(** * iso-manager: download, checksum discovery and archive catalog

    A shallow embedding of the parts of the JavaScript sources that the
    specification talks about, followed by the statements that relate the
    specification to the code.

    JavaScript strings are embedded as [string] (sequences of 8-bit code
    units); the sources only inspect ASCII characters.  Numbers that hold
    integers are embedded as [Z], the other values of [Number] as odd
    integers over a power of two, with the rounding of IEEE-754 doubles
    written out where a value can leave the exactly representable range.
    Event-driven code (HTTP requests, streams) is embedded as a function of
    the history of events the environment produces. *)

From Stdlib Require Import ZArith List String Ascii Bool Lia DecimalString.
From stdpp Require Import base option gmap strings.
Import ListNotations.

Local Open Scope string_scope.
Local Open Scope list_scope.

(* ------------------------------------------------------------------ *)
(** ** JavaScript string primitives *)

Module JSString.

Definition chars (s : string) : list ascii := list_ascii_of_string s.
Definition str (l : list ascii) : string := string_of_list_ascii l.

Definition code (c : ascii) : nat := nat_of_ascii c.

Definition in_range (lo hi c : ascii) : bool :=
  (code lo <=? code c)%nat && (code c <=? code hi)%nat.

Definition isDigit (c : ascii) : bool := in_range "0" "9" c.
Definition isUpper (c : ascii) : bool := in_range "A" "Z" c.
Definition isLower (c : ascii) : bool := in_range "a" "z" c.

Definition toLowerChar (c : ascii) : ascii :=
  if isUpper c then ascii_of_nat (code c + 32) else c.
Definition toUpperChar (c : ascii) : ascii :=
  if isLower c then ascii_of_nat (code c - 32) else c.

(** WhiteSpace and LineTerminator code units below 128: TAB, LF, VT, FF,
    CR and SPACE. *)
Definition isWhiteSpace (c : ascii) : bool :=
  (in_range (ascii_of_nat 9) (ascii_of_nat 13) c) || (code c =? 32)%nat.

Definition isLineTerminator (c : ascii) : bool :=
  (code c =? 10)%nat || (code c =? 13)%nat.

Definition toLowerCase (s : string) : string := str (map toLowerChar (chars s)).
Definition toUpperCase (s : string) : string := str (map toUpperChar (chars s)).

Fixpoint dropWhile {A} (p : A -> bool) (l : list A) : list A :=
  match l with
  | [] => []
  | x :: xs => if p x then dropWhile p xs else l
  end.

Definition trimChars (l : list ascii) : list ascii :=
  rev (dropWhile isWhiteSpace (rev (dropWhile isWhiteSpace l))).

(** [s.trim()] *)
Definition trim (s : string) : string := str (trimChars (chars s)).

(** [s.split(sep)] for a one-character separator: the pieces between the
    separators, empty pieces included; never the empty list. *)
Fixpoint splitChars (sep : ascii) (l : list ascii) (cur : list ascii)
  : list (list ascii) :=
  match l with
  | [] => [rev cur]
  | c :: l' =>
      if Ascii.eqb c sep then rev cur :: splitChars sep l' []
      else splitChars sep l' (c :: cur)
  end.

Definition split (sep : ascii) (s : string) : list string :=
  map str (splitChars sep (chars s) []).

Fixpoint isPrefix (p l : list ascii) : bool :=
  match p, l with
  | [], _ => true
  | _ :: _, [] => false
  | a :: p', b :: l' => Ascii.eqb a b && isPrefix p' l'
  end.

(** [s.startsWith(p)] *)
Definition startsWith (s p : string) : bool := isPrefix (chars p) (chars s).

Fixpoint isInfix (p l : list ascii) : bool :=
  isPrefix p l || match l with [] => false | _ :: l' => isInfix p l' end.

(** [s.includes(p)] *)
Definition includes (s p : string) : bool := isInfix (chars p) (chars s).

(** [s.endsWith(p)] *)
Definition endsWith (s p : string) : bool :=
  isPrefix (rev (chars p)) (rev (chars s)).

(** [l.join(sep)] *)
Fixpoint joinWith (sep : string) (l : list string) : string :=
  match l with
  | [] => ""
  | [x] => x
  | x :: l' => x +:+ sep +:+ joinWith sep l'
  end.

(** Truthiness of a string value: every string but the empty one. *)
Definition truthy (s : string) : bool := negb (String.eqb s "").

(** A value that is a string, [null] or [undefined] (here [None]), when
    it is truthy. *)
Definition truthyOpt (v : option string) : option string :=
  match v with
  | Some s => if truthy s then Some s else None
  | None => None
  end.

End JSString.

(* ------------------------------------------------------------------ *)
(** ** Regular expressions

    The sources build regular expressions both from literals and, with
    [new RegExp(text)], from strings computed at run time.  We embed the
    pattern grammar the sources use (a parser from pattern text to syntax
    trees, which reports the syntax errors the JavaScript constructor
    throws) and the backtracking matcher of the language definition. *)

Module RegExp.
Import JSString.

Inductive class_item :=
| CChar (c : ascii)
| CRange (lo hi : ascii)
| CSpace
| CDigit
| CWord.

Inductive regex :=
| REmpty
| RChar (c : ascii)
| RAny
| RClass (neg : bool) (items : list class_item)
| RSeq (a b : regex)
| RAlt (a b : regex)
| RRepeat (r : regex) (min : nat) (max : option nat)
| RGroup (i : nat) (r : regex)
| RBol
| REol.

(** *** Matching *)

Definition canon (icase : bool) (c : ascii) : ascii :=
  if icase then toUpperChar c else c.

Definition item_matches (icase : bool) (it : class_item) (c : ascii) : bool :=
  match it with
  | CChar x => Ascii.eqb (canon icase x) (canon icase c)
  | CRange lo hi =>
      in_range lo hi c
      || (icase && (in_range lo hi (toLowerChar c) || in_range lo hi (toUpperChar c)))
  | CSpace => isWhiteSpace c
  | CDigit => isDigit c
  | CWord => isDigit c || isUpper c || isLower c || Ascii.eqb c "_"
  end.

Record mstate := MState {
  pos : nat;                        (* index of the next character *)
  rest : list ascii;                (* the input from [pos] on *)
  caps : list (nat * list ascii)    (* captures set so far *)
}.

Definition matcher := mstate -> (mstate -> option mstate) -> option mstate.

Definition step1 (p : ascii -> bool) : matcher := fun st k =>
  match rest st with
  | c :: cs => if p c then k (MState (S (pos st)) cs (caps st)) else None
  | [] => None
  end.

Fixpoint groups_of (r : regex) : list nat :=
  match r with
  | RSeq a b | RAlt a b => groups_of a ++ groups_of b
  | RRepeat r' _ _ => groups_of r'
  | RGroup i r' => i :: groups_of r'
  | _ => []
  end.

Definition clear_caps (gs : list nat) (cs : list (nat * list ascii)) :=
  List.filter (fun p => negb (existsb (Nat.eqb (fst p)) gs)) cs.

Definition set_cap (i : nat) (v : list ascii) (cs : list (nat * list ascii)) :=
  (i, v) :: List.filter (fun p => negb (Nat.eqb (fst p) i)) cs.

(** RepeatMatcher: greedy; once [min] iterations are done an iteration
    that consumes nothing is rejected. *)
Fixpoint repeat_loop (m : matcher) (gs : list nat) (min : nat) (max : option nat)
         (fuel : nat) : matcher :=
  fun st k =>
    match fuel with
    | O => None
    | S fuel' =>
        match max with
        | Some O => k st
        | _ =>
            let st0 := MState (pos st) (rest st) (clear_caps gs (caps st)) in
            let iter :=
              m st0 (fun st' =>
                       if Nat.eqb min 0 && Nat.eqb (pos st') (pos st) then None
                       else repeat_loop m gs (Nat.pred min) (option_map Nat.pred max)
                                        fuel' st' k) in
            if Nat.eqb min 0
            then match iter with Some r => Some r | None => k st end
            else iter
        end
    end.

Fixpoint rmatch (icase : bool) (r : regex) : matcher :=
  match r with
  | REmpty => fun st k => k st
  | RChar c => step1 (fun x => Ascii.eqb (canon icase c) (canon icase x))
  | RAny => step1 (fun x => negb (isLineTerminator x))
  | RClass neg items =>
      step1 (fun x => xorb neg (existsb (fun it => item_matches icase it x) items))
  | RSeq a b => fun st k => rmatch icase a st (fun st' => rmatch icase b st' k)
  | RAlt a b => fun st k =>
      match rmatch icase a st k with
      | Some res => Some res
      | None => rmatch icase b st k
      end
  | RRepeat r' min max => fun st k =>
      repeat_loop (rmatch icase r') (groups_of r') min max
                  (min + length (rest st) + 1) st k
  | RGroup i r' => fun st k =>
      rmatch icase r' st
             (fun st' => k (MState (pos st') (rest st')
                                   (set_cap i (firstn (pos st' - pos st) (rest st))
                                            (caps st'))))
  | RBol => fun st k => if Nat.eqb (pos st) 0 then k st else None
  | REol => fun st k => match rest st with [] => k st | _ :: _ => None end
  end.

Record match_result := MatchResult {
  m_index : nat;
  m_text : list ascii;
  m_caps : list (nat * list ascii)
}.

Definition match_at (icase : bool) (r : regex) (s : list ascii) (i : nat)
  : option match_result :=
  match rmatch icase r (MState i (skipn i s) []) Some with
  | Some st' => Some (MatchResult i (firstn (pos st' - i) (skipn i s)) (caps st'))
  | None => None
  end.

Fixpoint search_from (icase : bool) (r : regex) (s : list ascii) (i fuel : nat)
  : option match_result :=
  match match_at icase r s i with
  | Some m => Some m
  | None =>
      match fuel with
      | O => None
      | S fuel' => search_from icase r s (S i) fuel'
      end
  end.

(** [re.exec(s)] for a regular expression without the [g] flag: the
    leftmost match. *)
Definition exec (icase : bool) (r : regex) (s : string) : option match_result :=
  search_from icase r (chars s) 0 (length (chars s)).

(** [m[i]] of a match: [None] stands for [undefined]. *)
Definition group (m : match_result) (i : nat) : option string :=
  match i with
  | O => Some (str (m_text m))
  | _ => option_map (fun p => str (snd p))
                    (find (fun p => Nat.eqb (fst p) i) (m_caps m))
  end.

Definition test (icase : bool) (r : regex) (s : string) : bool :=
  match exec icase r s with Some _ => true | None => false end.

(** [s.replace(re, f)] without the [g] flag. *)
Definition replace_first (icase : bool) (r : regex)
           (f : match_result -> list ascii) (s : string) : string :=
  match exec icase r s with
  | None => s
  | Some m =>
      str (firstn (m_index m) (chars s) ++ f m
           ++ skipn (m_index m + length (m_text m)) (chars s))
  end.

(** [s.replace(re, f)] with the [g] flag: all matches, left to right, the
    scan moving one character on after an empty match. *)
Fixpoint replace_from (icase : bool) (r : regex) (f : match_result -> list ascii)
         (s : list ascii) (i fuel : nat) : list ascii :=
  match fuel with
  | O => skipn i s
  | S fuel' =>
      match search_from icase r s i (length s - i) with
      | None => skipn i s
      | Some m =>
          let pre := firstn (m_index m - i) (skipn i s) in
          match m_text m with
          | [] =>
              pre ++ f m ++ firstn 1 (skipn (m_index m) s)
                  ++ (if Nat.ltb (m_index m) (length s)
                      then replace_from icase r f s (S (m_index m)) fuel'
                      else [])
          | _ :: _ =>
              pre ++ f m
                  ++ replace_from icase r f s (m_index m + length (m_text m)) fuel'
          end
      end
  end.

Definition replace_all (icase : bool) (r : regex)
           (f : match_result -> list ascii) (s : string) : string :=
  str (replace_from icase r f (chars s) 0 (S (length (chars s)))).

(** *** Pattern syntax

    [compile] embeds the parsing that [new RegExp(text)] performs: the
    Pattern grammar with the web-compatibility extensions (a brace that
    does not form a quantifier is a literal character).  Constructs the
    sources do not use (look-around, back-references, lazy quantifiers,
    named groups, hexadecimal and unicode escapes) are reported as
    [Unsupported], which is a limit of this embedding and not a
    JavaScript error. *)

Local Open Scope char_scope.

Inductive parse_error :=
| NothingToRepeat
| UnterminatedGroup
| UnmatchedParen
| UnterminatedClass
| TrailingBackslash
| RangeOutOfOrder
| NumbersOutOfOrder
| Unsupported
| OutOfFuel.

Inductive presult (A : Type) :=
| Ok (a : A)
| Err (e : parse_error).
Arguments Ok {A} a.
Arguments Err {A} e.

Definition digit_val (c : ascii) : nat := code c - code "0".

Fixpoint read_digits (s : list ascii) (acc : nat) : nat * list ascii :=
  match s with
  | c :: t => if isDigit c then read_digits t (10 * acc + digit_val c) else (acc, s)
  | [] => (acc, s)
  end.

Definition read_number (s : list ascii) : option (nat * list ascii) :=
  match s with
  | c :: _ => if isDigit c then Some (read_digits s 0) else None
  | [] => None
  end.

(** The text after an opening brace: [n}], [n,}] or [n,m}]. *)
Definition parse_braces (s : list ascii) : option (nat * option nat * list ascii) :=
  match read_number s with
  | Some (n, "}" :: t) => Some (n, Some n, t)
  | Some (n, "," :: "}" :: t) => Some (n, None, t)
  | Some (n, "," :: t) =>
      match read_number t with
      | Some (m, "}" :: t') => Some (n, Some m, t')
      | _ => None
      end
  | _ => None
  end.

(** An optional quantifier after an atom. *)
Definition parse_quantifier (s : list ascii)
  : presult (option (nat * option nat) * list ascii) :=
  let found (q : nat * option nat) (t : list ascii) :=
    match t with
    | "?" :: _ => Err Unsupported
    | _ =>
        match q with
        | (n, Some m) => if Nat.ltb m n then Err NumbersOutOfOrder else Ok (Some q, t)
        | _ => Ok (Some q, t)
        end
    end in
  match s with
  | "*" :: t => found (0, None) t
  | "+" :: t => found (1, None) t
  | "?" :: t => found (0, Some 1) t
  | "{" :: t =>
      match parse_braces t with
      | Some (n, m, t') => found (n, m) t'
      | None => Ok (None, s)
      end
  | _ => Ok (None, s)
  end.

Definition isAlnum (c : ascii) : bool := isDigit c || isUpper c || isLower c.

(** The character after a backslash, as a class member. *)
Definition escape_item (c : ascii) : presult class_item :=
  if Ascii.eqb c "s" then Ok CSpace
  else if Ascii.eqb c "d" then Ok CDigit
  else if Ascii.eqb c "w" then Ok CWord
  else if Ascii.eqb c "t" then Ok (CChar (ascii_of_nat 9))
  else if Ascii.eqb c "n" then Ok (CChar (ascii_of_nat 10))
  else if Ascii.eqb c "v" then Ok (CChar (ascii_of_nat 11))
  else if Ascii.eqb c "f" then Ok (CChar (ascii_of_nat 12))
  else if Ascii.eqb c "r" then Ok (CChar (ascii_of_nat 13))
  else if isAlnum c then Err Unsupported
  else Ok (CChar c).

Definition class_atom (s : list ascii) : presult (class_item * list ascii) :=
  match s with
  | [] => Err UnterminatedClass
  | "\" :: [] => Err TrailingBackslash
  | "\" :: c :: t =>
      match escape_item c with
      | Ok it => Ok (it, t)
      | Err e => Err e
      end
  | c :: t => Ok (CChar c, t)
  end.

(** The members of a character class up to the closing bracket. *)
Fixpoint parse_class (fuel : nat) (s : list ascii) (acc : list class_item)
  : presult (list class_item * list ascii) :=
  match fuel with
  | O => Err OutOfFuel
  | S fuel' =>
      match s with
      | [] => Err UnterminatedClass
      | "]" :: t => Ok (rev acc, t)
      | _ =>
          match class_atom s with
          | Err e => Err e
          | Ok (a, "-" :: "]" :: t) => Ok (rev (CChar "-" :: a :: acc), t)
          | Ok (a, "-" :: t) =>
              match class_atom t with
              | Err e => Err e
              | Ok (b, t') =>
                  match a, b with
                  | CChar lo, CChar hi =>
                      if Nat.ltb (code hi) (code lo) then Err RangeOutOfOrder
                      else parse_class fuel' t' (CRange lo hi :: acc)
                  | _, _ => parse_class fuel' t' (b :: CChar "-" :: a :: acc)
                  end
              end
          | Ok (a, t) => parse_class fuel' t (a :: acc)
          end
      end
  end.

Inductive goal :=
| GDisjunction
| GAlternative (acc : regex).

Definition quantified (a : regex) (q : option (nat * option nat)) : regex :=
  match q with
  | Some (n, m) => RRepeat a n m
  | None => a
  end.

(** [parse fuel g s n]: parse the nonterminal [g] at the front of [s],
    [n] capturing groups having been opened so far.  Returns the tree,
    the text left and the number of groups opened. *)
Fixpoint parse (fuel : nat) (g : goal) (s : list ascii) (n : nat)
  : presult (regex * list ascii * nat) :=
  match fuel with
  | O => Err OutOfFuel
  | S fuel' =>
      let after_atom (acc a : regex) (t : list ascii) (n' : nat) :=
        match parse_quantifier t with
        | Err e => Err e
        | Ok (q, t') => parse fuel' (GAlternative (RSeq acc (quantified a q))) t' n'
        end in
      match g with
      | GDisjunction =>
          match parse fuel' (GAlternative REmpty) s n with
          | Err e => Err e
          | Ok (r1, "|" :: s', n') =>
              match parse fuel' GDisjunction s' n' with
              | Err e => Err e
              | Ok (r2, s'', n'') => Ok (RAlt r1 r2, s'', n'')
              end
          | Ok res => Ok res
          end
      | GAlternative acc =>
          match s with
          | [] => Ok (acc, s, n)
          | "|" :: _ => Ok (acc, s, n)
          | ")" :: _ => Ok (acc, s, n)
          | "^" :: t => parse fuel' (GAlternative (RSeq acc RBol)) t n
          | "$" :: t => parse fuel' (GAlternative (RSeq acc REol)) t n
          | "*" :: _ => Err NothingToRepeat
          | "+" :: _ => Err NothingToRepeat
          | "?" :: _ => Err NothingToRepeat
          | "{" :: t =>
              match parse_braces t with
              | Some _ => Err NothingToRepeat
              | None => after_atom acc (RChar "{") t n
              end
          | "(" :: "?" :: ":" :: t =>
              match parse fuel' GDisjunction t n with
              | Err e => Err e
              | Ok (r, ")" :: t', n') => after_atom acc r t' n'
              | Ok _ => Err UnterminatedGroup
              end
          | "(" :: "?" :: _ => Err Unsupported
          | "(" :: t =>
              match parse fuel' GDisjunction t (S n) with
              | Err e => Err e
              | Ok (r, ")" :: t', n') => after_atom acc (RGroup (S n) r) t' n'
              | Ok _ => Err UnterminatedGroup
              end
          | "[" :: "^" :: t =>
              match parse_class (S (length t)) t [] with
              | Err e => Err e
              | Ok (items, t') => after_atom acc (RClass true items) t' n
              end
          | "[" :: t =>
              match parse_class (S (length t)) t [] with
              | Err e => Err e
              | Ok (items, t') => after_atom acc (RClass false items) t' n
              end
          | "." :: t => after_atom acc RAny t n
          | "\" :: [] => Err TrailingBackslash
          | "\" :: c :: t =>
              match escape_item c with
              | Err e => Err e
              | Ok (CChar x) => after_atom acc (RChar x) t n
              | Ok it => after_atom acc (RClass false [it]) t n
              end
          | c :: t => after_atom acc (RChar c) t n
          end
      end
  end.

(** The syntax tree of a pattern text, or the error of the constructor. *)
Definition compile (pattern : string) : presult regex :=
  let s := chars pattern in
  match parse (2 * length s + 2) GDisjunction s 0 with
  | Err e => Err e
  | Ok (r, [], _) => Ok r
  | Ok (_, _ :: _, _) => Err UnmatchedParen
  end.

Local Close Scope char_scope.

(** A regular expression literal [/text/]: its text is a valid pattern
    (the script would not load otherwise). *)
Definition literal (pattern : string) : regex :=
  match compile pattern with
  | Ok r => r
  | Err _ => RClass false []
  end.

End RegExp.

(* ------------------------------------------------------------------ *)
(** ** Completions of JavaScript code *)

Inductive js_error :=
| SyntaxError (message : string)
| TypeError (message : string)
| Error (message : string).

(** How an evaluation ends: with a value, with an exception, or outside the
    fragment of the language that this development embeds. *)
Inductive completion (A : Type) :=
| Return (a : A)
| Throw (e : js_error)
| Unmodelled.
Arguments Return {A} a.
Arguments Throw {A} e.
Arguments Unmodelled {A}.

#[global] Instance completion_ret : MRet completion := fun A a => Return a.

#[global] Instance completion_bind : MBind completion := fun A B k c =>
  match c with
  | Return a => k a
  | Throw e => Throw e
  | Unmodelled => Unmodelled
  end.

(** Untagged template literals: the cooked text of a template chunk.  A
    backslash followed by a character that starts no escape sequence
    stands for that character alone.  [None]: an escape form that the
    sources do not use (hexadecimal, unicode, digits, line continuation). *)
Module Template.
Import JSString.
Local Open Scope char_scope.

Definition single_escape (c : ascii) : option ascii :=
  if Ascii.eqb c "b" then Some (ascii_of_nat 8)
  else if Ascii.eqb c "t" then Some (ascii_of_nat 9)
  else if Ascii.eqb c "n" then Some (ascii_of_nat 10)
  else if Ascii.eqb c "v" then Some (ascii_of_nat 11)
  else if Ascii.eqb c "f" then Some (ascii_of_nat 12)
  else if Ascii.eqb c "r" then Some (ascii_of_nat 13)
  else if Ascii.eqb c "x" || Ascii.eqb c "u" || isDigit c || isLineTerminator c
       then None
  else Some c.

Fixpoint cookChars (l : list ascii) : option (list ascii) :=
  match l with
  | [] => Some []
  | "\" :: [] => None
  | "\" :: c :: t =>
      match single_escape c, cookChars t with
      | Some x, Some t' => Some (x :: t')
      | _, _ => None
      end
  | c :: t => option_map (cons c) (cookChars t)
  end.

Definition cook (raw : string) : option string :=
  option_map str (cookChars (chars raw)).
End Template.

(** [new RegExp(text)]: the syntax tree, or the SyntaxError thrown. *)
Definition RegExp_new (text : string) : completion RegExp.regex :=
  match RegExp.compile text with
  | RegExp.Ok r => Return r
  | RegExp.Err RegExp.NothingToRepeat =>
      Throw (SyntaxError "Invalid regular expression: Nothing to repeat")
  | RegExp.Err RegExp.UnterminatedGroup =>
      Throw (SyntaxError "Invalid regular expression: Unterminated group")
  | RegExp.Err RegExp.UnmatchedParen =>
      Throw (SyntaxError "Invalid regular expression: Unmatched ')'")
  | RegExp.Err RegExp.UnterminatedClass =>
      Throw (SyntaxError "Invalid regular expression: Unterminated character class")
  | RegExp.Err RegExp.TrailingBackslash =>
      Throw (SyntaxError "Invalid regular expression: \ at end of pattern")
  | RegExp.Err RegExp.RangeOutOfOrder =>
      Throw (SyntaxError "Invalid regular expression: Range out of order in character class")
  | RegExp.Err RegExp.NumbersOutOfOrder =>
      Throw (SyntaxError "Invalid regular expression: numbers out of order in {} quantifier")
  | RegExp.Err RegExp.Unsupported => Unmodelled
  | RegExp.Err RegExp.OutOfFuel => Unmodelled
  end.

Definition LF : ascii := ascii_of_nat 10.

(** A template literal with one substitution, [`raw1${subst}raw2`]. *)
Definition template (raw1 subst raw2 : string) : completion string :=
  match Template.cook raw1, Template.cook raw2 with
  | Some a, Some b => Return (a +:+ subst +:+ b)
  | _, _ => Unmodelled
  end.

(** [m && m[i]]: capture [i] of a successful match when it is a non-empty
    string. *)
Definition captured (m : option RegExp.match_result) (i : nat) : option string :=
  match m with
  | Some r =>
      match RegExp.group r i with
      | Some s => if JSString.truthy s then Some s else None
      | None => None
      end
  | None => None
  end.

(* ------------------------------------------------------------------ *)
(** ** Checksum files, src/iso-manager.js *)

Module IsoManagerHash.
Import JSString.

(** [escapeRegExp], iso-manager.js:531 *)
Definition escapeRegExp (s : string) : string :=
  RegExp.replace_all false (RegExp.literal "[.*+?^${}()|[\]\\]")
                     (fun m => "\"%char :: RegExp.m_text m) s.

(** The length check of the hash-only format, iso-manager.js:516 *)
Definition expectedLength (hashAlgorithm : string) : nat :=
  if String.eqb hashAlgorithm "md5" then 32
  else if String.eqb hashAlgorithm "sha1" then 40
  else 64.

(** "If the file only contains a hash (no filename)",
    iso-manager.js:513-520: the hash returned for a trimmed line, if any. *)
Definition hashOnlyLine (trimmedLine hashAlgorithm : string) : option string :=
  if RegExp.test false (RegExp.literal "^[a-fA-F0-9]{32,128}$") trimmedLine
  then if Nat.eqb (String.length trimmedLine) (expectedLength hashAlgorithm)
       then Some (toLowerCase trimmedLine)
       else None
  else None.

(** The body of the loop over the lines, iso-manager.js:486-520, for a
    non-empty trimmed line: [Some h] when the function returns [h],
    [None] when the loop goes on to the next line. *)
Definition scanLine (trimmedLine filename hashAlgorithm : string)
  : completion (option string) :=
  text1 ← template "^([a-fA-F0-9]{32,128})\s+(?:\*|\s)" (escapeRegExp filename) "$";
  hashFirstRegex ← RegExp_new text1;
  match captured (RegExp.exec false hashFirstRegex trimmedLine) 1 with
  | Some h => Return (Some (toLowerCase h))
  | None =>
      text2 ← template "" (escapeRegExp filename) "\s*:\s*([a-fA-F0-9]{32,128})";
      filenameFirstRegex ← RegExp_new text2;
      match captured (RegExp.exec true filenameFirstRegex trimmedLine) 1 with
      | Some h => Return (Some (toLowerCase h))
      | None =>
          text3 ← template "^([a-fA-F0-9]{32,128})\s+\(" (escapeRegExp filename) "\)$";
          hashWithParensRegex ← RegExp_new text3;
          match captured (RegExp.exec true hashWithParensRegex trimmedLine) 1 with
          | Some h => Return (Some (toLowerCase h))
          | None => Return (hashOnlyLine trimmedLine hashAlgorithm)
          end
      end
  end.

Fixpoint scanLines (lines : list string) (filename hashAlgorithm : string)
  : completion string :=
  match lines with
  | [] => Return ""
  | line :: lines' =>
      let trimmedLine := trim line in
      if negb (truthy trimmedLine) then scanLines lines' filename hashAlgorithm
      else
        r ← scanLine trimmedLine filename hashAlgorithm;
        match r with
        | Some h => Return h
        | None => scanLines lines' filename hashAlgorithm
        end
  end.

(** [extractHashFromFile], iso-manager.js:476; the empty string is the
    "not found" answer. *)
Definition extractHashFromFile (fileContent filename hashAlgorithm : string)
  : completion string :=
  if negb (truthy fileContent) || negb (truthy (trim fileContent)) then Return ""
  else scanLines (split LF fileContent) filename hashAlgorithm.

End IsoManagerHash.

(* ------------------------------------------------------------------ *)
(** ** Checksum files, src/iso-hash-verifier.js *)

Module IsoHashVerifier.
Import JSString.

(** Values of [JSON.parse].  A number keeps only whether it is zero,
    which is all that the code below can observe of it. *)
#[warnings="-register-all"] Inductive json :=
| JNull
| JBool (b : bool)
| JNumber (nonzero : bool)
| JString (s : string)
| JArray (items : list json)
| JObject (members : list (string * json)).

Definition json_truthy (j : json) : bool :=
  match j with
  | JNull => false
  | JBool b => b
  | JNumber nz => nz
  | JString s => truthy s
  | JArray _ | JObject _ => true
  end.

(** Names that every object inherits from [Object.prototype]. *)
Definition inherited : list string :=
  [ "constructor"; "toString"; "toLocaleString"; "valueOf"; "hasOwnProperty";
    "isPrototypeOf"; "propertyIsEnumerable"; "__proto__"; "__defineGetter__";
    "__defineSetter__"; "__lookupGetter__"; "__lookupSetter__" ].

Fixpoint lastMember (key : string) (members : list (string * json)) (found : option json)
  : option json :=
  match members with
  | [] => found
  | (k, v) :: rest =>
      lastMember key rest (if String.eqb k key then Some v else found)
  end.

(** [j[key]]: [Return None] is [undefined].  Reading a property of [null]
    throws; properties of primitive values and arrays, and inherited
    properties, are outside the embedded fragment. *)
Definition get (j : json) (key : string) : completion (option json) :=
  match j with
  | JNull => Throw (TypeError "Cannot read properties of null")
  | JObject members =>
      match lastMember key members None with
      | Some v => Return (Some v)
      | None => if existsb (String.eqb key) inherited then Unmodelled else Return None
      end
  | _ => Unmodelled
  end.

(** What the function returns: [null], a string, or a value found in a
    JSON document. *)
Inductive value :=
| VNull
| VString (s : string)
| VJson (j : json).

(** [a[key] || a], for [a] a value already known to be truthy. *)
Definition memberOr (a : json) (key : string) : completion json :=
  m ← get a key;
  match m with
  | Some v => if json_truthy v then Return v else Return a
  | None => Return a
  end.

Definition whenTruthy (o : option json) : option json :=
  match o with
  | Some j => if json_truthy j then Some j else None
  | None => None
  end.

(** The three JSON shapes, iso-hash-verifier.js:52-62: [Some v] when one
    of the three [if] statements returns [v], [None] when none does. *)
Definition jsonFormats (jsonData : json) (filename hashAlgorithm : string)
  : completion (option json) :=
  hashes ← get jsonData "hashes";
  inHashes ← match whenTruthy hashes with
             | Some h => get h filename
             | None => Return None
             end;
  match whenTruthy inHashes with
  | Some e => v ← memberOr e hashAlgorithm; Return (Some v)
  | None =>
      byName ← get jsonData filename;
      match whenTruthy byName with
      | Some e => v ← memberOr e hashAlgorithm; Return (Some v)
      | None =>
          byAlgorithm ← get jsonData hashAlgorithm;
          match whenTruthy byAlgorithm with
          | Some a => v ← memberOr a filename; Return (Some v)
          | None => Return None
          end
      end
  end.

(** Format 1, iso-hash-verifier.js:27-45: the first line that mentions
    the file name and is neither a comment nor blank. *)
Definition mentions (filename line : string) : bool :=
  includes (toLowerCase line) (toLowerCase filename)
  && negb (startsWith line "#") && negb (startsWith line "//")
  && negb (String.eqb (trim line) "").

Definition hashLine (fileContent filename : string) : option string :=
  find (mentions filename) (split LF fileContent).

Definition fromHashLine (line : string) : option string :=
  match captured (RegExp.exec false
                    (RegExp.literal "^([0-9a-fA-F]+)[\s*]+([^\s].*)$") line) 1 with
  | Some h => Some (toLowerCase h)
  | None =>
      match captured (RegExp.exec false
                        (RegExp.literal "^([^\s].*)[\s*]+([0-9a-fA-F]+)$") line) 2 with
      | Some h => Some (toLowerCase h)
      | None => None
      end
  end.

(** Format 3, iso-hash-verifier.js:67-70: a file that holds just a hash. *)
Definition hashOnlyFile (fileContent : string) : option string :=
  if RegExp.test false (RegExp.literal "^[0-9a-fA-F]+$") (trim fileContent)
  then Some (toLowerCase (trim fileContent))
  else None.

Section WithJSON.
(** [JSON.parse]; [None] when it throws a SyntaxError. *)
Variable JSON_parse : string -> option json.

(** Format 2, the [try] block of iso-hash-verifier.js:48-65: an
    exception thrown inside it is caught and ignored. *)
Definition fromJson (fileContent filename hashAlgorithm : string)
  : completion (option json) :=
  match JSON_parse fileContent with
  | None => Return None
  | Some jsonData =>
      match jsonFormats jsonData filename hashAlgorithm with
      | Throw _ => Return None
      | c => c
      end
  end.

(** [extractHashFromFile], iso-hash-verifier.js:23 *)
Definition extractHashFromFile (fileContent filename hashAlgorithm : string)
  : completion value :=
  match match hashLine fileContent filename with
        | Some line => fromHashLine line
        | None => None
        end with
  | Some h => Return (VString h)
  | None =>
      j ← fromJson fileContent filename hashAlgorithm;
      match j with
      | Some v => Return (VJson v)
      | None =>
          match hashOnlyFile fileContent with
          | Some h => Return (VString h)
          | None => Return VNull
          end
      end
  end.
End WithJSON.

End IsoHashVerifier.

(* ------------------------------------------------------------------ *)
(** ** Numbers

    The Number values that the embedded code computes: the integers, the
    other finite values (an odd integer over a power of two), the
    infinities and NaN; a negative zero is not told from zero.  A numeral
    denotes the double nearest to its value (ties to even); for an
    integer below 2^53 that is the value itself. *)

Module JSNumber.
Import JSString.
Local Open Scope Z_scope.

Inductive number :=
| Fin (z : Z)
| PosInf
| NaN
| NegInf
| Frac (m : Z) (k : positive).      (* m / 2^k, m odd *)

(** The double nearest to a non-negative integer. *)
Definition round53 (n : Z) : Z :=
  if n <? 2 ^ 53 then n
  else
    let e := Z.log2 n - 52 in
    let q := Z.shiftr n e in
    let r := n - Z.shiftl q e in
    let half := 2 ^ (e - 1) in
    let q' := if (half <? r) || ((r =? half) && Z.odd q) then q + 1 else q in
    Z.shiftl q' e.

Definition ofInteger (n : Z) : number :=
  let r := round53 n in
  if r <? 2 ^ 1024 then Fin r else PosInf.

Definition digitValue (c : ascii) : Z := Z.of_nat (code c) - 48.

(** The value of a decimal numeral. *)
Definition decimal (l : list ascii) : Z :=
  fold_left (fun acc c => 10 * acc + digitValue c) l 0.

(** [q / 2^k] in lowest terms. *)
Definition dyadic (q k : Z) : number :=
  let g := Z.gcd q (2 ^ k) in
  let k' := k - Z.log2 g in
  if k' <=? 0 then Fin (q / g) else Frac (q / g) (Z.to_pos k').

(** The double nearest to [a / b], for [a] and [b] positive: a multiple
    [q * 2^e] with [q] of 53 bits at most and [e] no less than -1074,
    the exponent of the subnormal numbers. *)
Definition nearest (a b : Z) : number :=
  let l := Z.log2 a - Z.log2 b in
  let p := if (if 0 <=? l then b * 2 ^ l <=? a else b <=? a * 2 ^ (- l))
           then l else l - 1 in
  let e := Z.max (p - 52) (-1074) in
  let num := if 0 <=? e then a else a * 2 ^ (- e) in
  let den := if 0 <=? e then b * 2 ^ e else b in
  let q := num / den in
  let r := num mod den in
  let q' := if (den <? 2 * r) || ((2 * r =? den) && Z.odd q) then q + 1 else q in
  if 0 <=? e
  then (if q' * 2 ^ e <? 2 ^ 1024 then Fin (q' * 2 ^ e) else PosInf)
  else dyadic q' (- e).

(** The Number for [n * 10^x], [n] not negative. *)
Definition ofDecimal (n x : Z) : number :=
  if n =? 0 then Fin 0
  else if 0 <=? x then ofInteger (n * 10 ^ x)
  else nearest n (10 ^ (- x)).

Definition negate (n : number) : number :=
  match n with
  | Fin z => Fin (- z)
  | PosInf => NegInf
  | NegInf => PosInf
  | Frac m k => Frac (- m) k
  | NaN => NaN
  end.

(** The decimal digits at the head of a text, and what follows them. *)
Fixpoint digitsAndRest (l : list ascii) : list ascii * list ascii :=
  match l with
  | c :: l' =>
      if isDigit c then let (ds, r) := digitsAndRest l' in (c :: ds, r)
      else ([], l)
  | [] => ([], [])
  end.

(** An ExponentPart, or nothing, up to the end of the text: the
    exponent. *)
Definition exponentPart (l : list ascii) : option Z :=
  match l with
  | [] => Some 0
  | c :: l' =>
      if Ascii.eqb c "e" || Ascii.eqb c "E" then
        let (negative, ds) :=
          match l' with
          | "-"%char :: t => (true, t)
          | "+"%char :: t => (false, t)
          | _ => (false, l')
          end in
        match ds with
        | [] => None
        | _ :: _ =>
            if forallb isDigit ds
            then Some (if negative then - decimal ds else decimal ds)
            else None
        end
      else None
  end.

(** StrUnsignedDecimalLiteral: [Infinity], or digits with a point
    somewhere or nowhere, one digit at least, and an exponent or none. *)
Definition unsignedDecimal (l : list ascii) : number :=
  if String.eqb (str l) "Infinity" then PosInf
  else
    let (ip, r1) := digitsAndRest l in
    let '(fp, r2) :=
      match r1 with
      | "."%char :: r => digitsAndRest r
      | _ => ([], r1)
      end in
    match ip ++ fp with
    | [] => NaN
    | digits =>
        match exponentPart r2 with
        | Some x => ofDecimal (decimal digits) (x - Z.of_nat (length fp))
        | None => NaN
        end
    end.

(** The value of a digit in a radix up to 16, if it is one. *)
Definition digitIn (radix : Z) (c : ascii) : option Z :=
  let v := if isDigit c then digitValue c
           else if in_range "a" "f" c then Z.of_nat (code c) - 87
           else if in_range "A" "F" c then Z.of_nat (code c) - 55
           else radix in
  if v <? radix then Some v else None.

(** The digits of a NonDecimalIntegerLiteral: one at least. *)
Definition radixLiteral (radix : Z) (l : list ascii) : number :=
  match l with
  | [] => NaN
  | _ :: _ =>
      match fold_left (fun acc c =>
                         match acc, digitIn radix c with
                         | Some a, Some d => Some (radix * a + d)
                         | _, _ => None
                         end) l (Some 0) with
      | Some n => ofInteger n
      | None => NaN
      end
  end.

(** StrNumericLiteral: a literal in radix 16, 8 or 2, which takes no
    sign, or a decimal literal with a sign or without. *)
Definition numericLiteral (l : list ascii) : number :=
  match l with
  | "0"%char :: p :: ds =>
      if Ascii.eqb p "x" || Ascii.eqb p "X" then radixLiteral 16 ds
      else if Ascii.eqb p "o" || Ascii.eqb p "O" then radixLiteral 8 ds
      else if Ascii.eqb p "b" || Ascii.eqb p "B" then radixLiteral 2 ds
      else unsignedDecimal l
  | "+"%char :: t => unsignedDecimal t
  | "-"%char :: t => negate (unsignedDecimal t)
  | _ => unsignedDecimal l
  end.

(** [Number(s)] for a string: surrounding white space is ignored, the
    empty string is 0, a numeric literal has its (rounded) value, and
    every other text is NaN. *)
Definition Number (s : string) : completion number :=
  let t := trimChars (chars s) in
  match t with
  | [] => Return (Fin 0)
  | _ :: _ =>
      if forallb isDigit t then Return (ofInteger (decimal t))
      else Return (numericLiteral t)
  end.

(** [a > b] and [a < b] *)
Definition gt (a b : number) : bool :=
  match a, b with
  | Fin x, Fin y => y <? x
  | PosInf, Fin _ => true
  | Fin x, Frac m k => m <? x * 2 ^ Z.pos k
  | Frac m k, Fin y => y * 2 ^ Z.pos k <? m
  | Frac m k, Frac m' k' => m' * 2 ^ Z.pos k <? m * 2 ^ Z.pos k'
  | PosInf, Frac _ _ => true
  | PosInf, NegInf => true
  | Fin _, NegInf => true
  | Frac _ _, NegInf => true
  | _, _ => false
  end.

Definition lt (a b : number) : bool := gt b a.

End JSNumber.

(** [l.map(f)] for an [f] that may throw: left to right. *)
Fixpoint mapM {A B} (f : A -> completion B) (l : list A) : completion (list B) :=
  match l with
  | [] => Return []
  | x :: l' => y ← f x; ys ← mapM f l'; Return (y :: ys)
  end.

(* ------------------------------------------------------------------ *)
(** ** Paths (the POSIX flavour of Node's [path] module) *)

Module Path.
Import JSString.

Definition SEP : ascii := "/"%char.

Definition isAbsolute (p : string) : bool := startsWith p "/".

(** [normalizeString]: the segments of a path with [.] and empty
    segments dropped and [..] resolved; [acc] is the stack of segments
    kept so far, the last one first. *)
Fixpoint normalizeSegments (allowAboveRoot : bool) (segs acc : list string)
  : list string :=
  match segs with
  | [] => rev acc
  | seg :: segs' =>
      if String.eqb seg "" || String.eqb seg "." then
        normalizeSegments allowAboveRoot segs' acc
      else if String.eqb seg ".." then
        match acc with
        | top :: acc' =>
            if String.eqb top ".." then
              normalizeSegments allowAboveRoot segs'
                                (if allowAboveRoot then ".." :: acc else acc)
            else normalizeSegments allowAboveRoot segs' acc'
        | [] =>
            normalizeSegments allowAboveRoot segs'
                              (if allowAboveRoot then [".."] else [])
        end
      else normalizeSegments allowAboveRoot segs' (seg :: acc)
  end.

(** [path.normalize] *)
Definition normalize (p : string) : string :=
  if String.eqb p "" then "."
  else
    let absolute := isAbsolute p in
    let trailingSeparator := endsWith p "/" in
    let body := joinWith "/" (normalizeSegments (negb absolute) (split SEP p) []) in
    if String.eqb body "" then
      if absolute then "/" else if trailingSeparator then "./" else "."
    else
      let body := if trailingSeparator then body +:+ "/" else body in
      if absolute then "/" +:+ body else body.

(** [path.join(a, b)] *)
Definition join (a b : string) : string :=
  match List.filter truthy [a; b] with
  | [] => "."
  | parts => normalize (joinWith "/" parts)
  end.

Definition join3 (a b c : string) : string :=
  match List.filter truthy [a; b; c] with
  | [] => "."
  | parts => normalize (joinWith "/" parts)
  end.

(** [path.resolve(p)] in the working directory [cwd], an absolute path. *)
Definition resolve (cwd p : string) : string :=
  let full := if isAbsolute p then p else cwd +:+ "/" +:+ p in
  "/" +:+ joinWith "/" (normalizeSegments false (split SEP full) []).

(** [path.basename(p)]: the last segment, trailing separators ignored. *)
Definition basename (p : string) : string :=
  let stripped := dropWhile (Ascii.eqb SEP) (rev (chars p)) in
  let fix upToSep (l : list ascii) : list ascii :=
    match l with
    | [] => []
    | c :: l' => if Ascii.eqb c SEP then [] else c :: upToSep l'
    end in
  str (rev (upToSep stripped)).

End Path.

(* ------------------------------------------------------------------ *)
(** ** The web server, src/iso-manager-web (server script) *)

Module Server.
Import JSString JSNumber.

Definition DOT : ascii := "."%char.

(** [compareVersions], line 780: the loop over the component index. *)
Fixpoint compareLoop (v1Parts v2Parts : list number) (i n : nat) : Z :=
  match n with
  | O => 0%Z
  | S n' =>
      let part1 := if Nat.ltb i (length v1Parts) then nth i v1Parts (Fin 0) else Fin 0 in
      let part2 := if Nat.ltb i (length v2Parts) then nth i v2Parts (Fin 0) else Fin 0 in
      if gt part1 part2 then 1%Z
      else if lt part1 part2 then (-1)%Z
      else compareLoop v1Parts v2Parts (S i) n'
  end.

Definition compareVersions (v1 v2 : string) : completion Z :=
  v1Parts ← mapM Number (split DOT v1);
  v2Parts ← mapM Number (split DOT v2);
  Return (compareLoop v1Parts v2Parts 0 (Nat.max (length v1Parts) (length v2Parts))).

Definition erase (_ : RegExp.match_result) : list ascii := [].

(** [normalizeIsoName], line 754 *)
Definition normalizeIsoName (name : string) : string :=
  let normalized := toLowerCase name in
  let normalized :=
    RegExp.replace_first true (RegExp.literal "\.(iso|img|esd)$") erase normalized in
  let normalized :=
    RegExp.replace_all false (RegExp.literal "[-_]?\d+(\.\d+)+[-_]?") erase normalized in
  let normalized :=
    RegExp.replace_all false
      (RegExp.literal "[-_]?(amd64|x86_64|i386|x86|arm64)[-_]?") erase normalized in
  let normalized :=
    RegExp.replace_all false
      (RegExp.literal "[-_]?(live|desktop|server|netinst|dvd|cd)[-_]?") erase normalized in
  RegExp.replace_all false (RegExp.literal "[^a-z0-9]") erase normalized.

(** [extractVersionFromFilename], line 773; [None] is [null]. *)
Definition extractVersionFromFilename (filename : string) : option string :=
  match RegExp.exec false (RegExp.literal "[\d]+(\.[\d]+)+") filename with
  | Some m => RegExp.group m 0
  | None => None
  end.

(** *** The archive catalog, isos.json *)

(** One entry of the [isos] array.  [version] is a string or [null];
    [hashAlgorithm] and [url] are present only in the entries that the
    command-line tool writes. *)
Record IsoRecord := {
  name : string;
  filename : string;
  version : option string;
  hash : string;
  size : Z;
  addedDate : string;
  hashAlgorithm : option string;
  url : option string
}.

(** What is on disk at the path of isos.json: nothing, a text that
    [JSON.parse] rejects, or a document with or without an [isos]
    array. *)
Inductive catalogFile :=
| NoFile
| Corrupt
| Doc (isos : option (list IsoRecord)).

(** [readIsosJson().isos], line 1303; [None] is [undefined]. *)
Definition readIsos (f : catalogFile) : option (list IsoRecord) :=
  match f with
  | NoFile => Some []
  | Corrupt => Some []
  | Doc isos => isos
  end.

(** [l.findIndex(p)]; [None] is -1. *)
Fixpoint findIndex {A} (p : A -> bool) (l : list A) : option nat :=
  match l with
  | [] => None
  | x :: l' => if p x then Some 0 else option_map S (findIndex p l')
  end.

(** The [iso] argument of [addIsoToJson]: a name and a version that may
    be missing. *)
Record IsoInfo := { iso_name : string; iso_version : option string }.

(** The entry built at line 1349, [now] being the time of the call. *)
Definition isoData (now : string) (iso : IsoInfo) (filename hash : string) (size : Z)
  : IsoRecord :=
  {| name := iso_name iso;
     filename := filename;
     version := match truthyOpt (iso_version iso) with
                | Some v => Some v
                | None => extractVersionFromFilename filename
                end;
     hash := hash;
     size := size;
     addedDate := now;
     hashAlgorithm := None;
     url := None |}.

(** [addIsoToJson], line 1335: the catalog file after the call.  Reading
    [findIndex] of a document without [isos] throws. *)
Definition addIsoToJson (now : string) (iso : IsoInfo) (filename hash : string)
           (size : Z) (f : catalogFile) : completion catalogFile :=
  match readIsos f with
  | None => Throw (TypeError "Cannot read properties of undefined (reading 'findIndex')")
  | Some isos =>
      let normalizedName := normalizeIsoName (iso_name iso) in
      let existingIndex :=
        match findIndex (fun item => String.eqb (Server.filename item) filename) isos with
        | Some i => Some i
        | None =>
            findIndex (fun item => String.eqb (normalizeIsoName (name item)) normalizedName)
                      isos
        end in
      let data := isoData now iso filename hash size in
      match existingIndex with
      | Some i => Return (Doc (Some (<[i := data]> isos)))
      | None => Return (Doc (Some (isos ++ [data])))
      end
  end.

(** [removeIsoFromJson], line 1372 *)
Definition removeIsoFromJson (filename : string) (f : catalogFile)
  : completion catalogFile :=
  match readIsos f with
  | None => Throw (TypeError "Cannot read properties of undefined (reading 'filter')")
  | Some isos =>
      Return (Doc (Some (List.filter
                           (fun iso => negb (String.eqb (Server.filename iso) filename))
                           isos)))
  end.

(** [getIsoDataFromJson], line 1382, and [getIsoDataByName], line 1388,
    on the [isos] array read from the file. *)
Definition getIsoDataFromJson (isos : list IsoRecord) (filename : string)
  : option IsoRecord :=
  List.find (fun iso => String.eqb (Server.filename iso) filename) isos.

Definition getIsoDataByName (isos : list IsoRecord) (name : string)
  : option IsoRecord :=
  List.find (fun iso => String.eqb (normalizeIsoName (Server.name iso))
                                   (normalizeIsoName name)) isos.

(** *** Marking the listing against the archive, [markArchivedIsos] *)

(** One entry of the listing as [processIsoDetails] (line 589) builds it:
    its URL is there, a missing version is the empty string and a
    missing size is 0. *)
Record Details := {
  d_url : string;
  d_version : string;
  d_size : Z;
  d_inArchive : bool;
  d_updateAvailable : bool;
  d_filename : option string
}.

(** Truthiness of a number that is not NaN. *)
Definition truthyNum (z : Z) : bool := negb (z =? 0)%Z.

Definition orElse (v : option string) (w : option string) : option string :=
  match truthyOpt v with
  | Some s => Some s
  | None => w
  end.

(** [archivedVersion && newVersion && archivedVersion !== newVersion] *)
Definition versionsDiffer (archivedVersion newVersion : option string)
  : option (string * string) :=
  match truthyOpt archivedVersion, truthyOpt newVersion with
  | Some a, Some n => if String.eqb a n then None else Some (a, n)
  | _, _ => None
  end.

(** Lines 691-711: the check when the catalog has an entry for the
    matched file.  [isoFilename] is the file name read off the URL of
    the entry at line 638. *)
Definition checkWithMetadata (d : Details) (isoFilename : string)
           (matchedIsoData : IsoRecord) : completion bool :=
  let archivedVersion := version matchedIsoData in
  let newVersion :=
    orElse (Some (d_version d)) (extractVersionFromFilename isoFilename) in
  match versionsDiffer archivedVersion newVersion with
  | Some (a, n) =>
      c ← compareVersions n a;
      Return (0 <? c)%Z
  | None =>
      Return (truthyNum (d_size d) && truthyNum (size matchedIsoData)
              && (1024 * 1024 <? Z.abs (d_size d - size matchedIsoData))%Z)
  end.

(** Lines 713-734: the fallback when the catalog has no entry;
    [statSize] is the size of the matched file on disk. *)
Definition checkWithoutMetadata (d : Details) (isoFilename matchedFile : string)
           (exactMatch : bool) (statSize : Z) : completion bool :=
  let bySize := truthyNum (d_size d) && negb (statSize =? d_size d)%Z in
  if truthy (d_version d) && negb exactMatch then
    let archivedVersion := extractVersionFromFilename matchedFile in
    let newVersion :=
      orElse (Some (d_version d)) (extractVersionFromFilename isoFilename) in
    match versionsDiffer archivedVersion newVersion with
    | Some (a, n) =>
        c ← compareVersions n a;
        Return (bySize || (0 <? c)%Z)
    | None => Return bySize
    end
  else Return bySize.

Definition isListed (files : list string) (file : string) : bool :=
  existsb (String.eqb file) files.

(** Lines 664-678: a file of the archive whose normalized name is
    related to the entry's. *)
Definition findRelated (files : list string) (normalizedName : string)
  : option string :=
  List.find (fun file =>
               (endsWith file ".iso" || endsWith file ".img")
               && (String.eqb (normalizeIsoName file) normalizedName
                   || includes file normalizedName
                   || includes normalizedName (normalizeIsoName file)))
            files.

(** Lines 644-679: the matched file, its catalog entry and whether the
    match is exact. *)
Definition locate (files : list string) (isos : list IsoRecord)
           (name isoFilename : string)
  : option string * option IsoRecord * bool :=
  let byFilename :=
    if isListed files isoFilename
    then (Some isoFilename, getIsoDataFromJson isos isoFilename, true)
    else match findRelated files (normalizeIsoName name) with
         | Some file => (Some file, getIsoDataFromJson isos file, false)
         | None => (None, None, false)
         end in
  match getIsoDataByName isos name with
  | Some isoDataByName =>
      if isListed files (filename isoDataByName)
      then (Some (filename isoDataByName), Some isoDataByName, true)
      else byFilename
  | None => byFilename
  end.

(** Lines 681-735: [updateAvailable] for an entry, given the outcome of
    the matching.  [statSize file] is the size of the file of that name
    in the archive directory, [None] when [fs.statSync] throws; the file
    that was matched is examined whether or not its size is used. *)
Definition updateCheck (d : Details) (isoFilename : string)
           (matchedFile : option string) (matchedIsoData : option IsoRecord)
           (exactMatch : bool) (statSize : string -> option Z) : completion bool :=
  match truthyOpt matchedFile with
  | Some file =>
      match statSize file with
      | None => Throw (Error "ENOENT: no such file or directory")
      | Some diskSize =>
          match matchedIsoData with
          | Some data => checkWithMetadata d isoFilename data
          | None => checkWithoutMetadata d isoFilename file exactMatch diskSize
          end
      end
  | None => Return false
  end.

Section WithURL.
(** [new URL(url).pathname]; [None] when the constructor throws. *)
Variable URL_pathname : string -> option string.

(** The body of the loop, lines 633-744, for one entry. *)
Definition markEntry (files : list string) (isos : list IsoRecord)
           (statSize : string -> option Z) (name : string) (d : Details)
  : completion Details :=
  match URL_pathname (d_url d) with
  | None => Throw (TypeError "Invalid URL")
  | Some pathname =>
      let isoFilename := Path.basename pathname in
      let '(matchedFile, matchedIsoData, exactMatch) :=
        locate files isos name isoFilename in
      updateAvailable ←
        updateCheck d isoFilename matchedFile matchedIsoData exactMatch statSize;
      Return {| d_url := d_url d;
                d_version := d_version d;
                d_size := d_size d;
                d_inArchive := match truthyOpt matchedFile with
                               | Some _ => true
                               | None => false
                               end;
                d_updateAvailable := updateAvailable;
                d_filename := orElse matchedFile (Some isoFilename) |}
  end.

(** [markArchivedIsos], line 613.  [archive] lists the files of the
    archive directory, [None] when the directory does not exist.  An
    exception raised on the way (a URL that [new URL] turns down, a file
    that [fs.statSync] does not find, a catalog without its [isos]
    array) is caught at line 747 and the listing is returned as it
    came. *)
Definition markArchivedIsos (archive : option (list string))
           (statSize : string -> option Z)
           (catalog : catalogFile) (isoList : list (string * Details))
  : completion (list (string * Details)) :=
  match archive with
  | None => Return isoList
  | Some files =>
      match readIsos catalog with
      | None => Return isoList
      | Some isos =>
          match mapM (fun entry =>
                        d ← markEntry files isos statSize (fst entry) (snd entry);
                        Return (fst entry, d)) isoList with
          | Throw _ => Return isoList
          | c => c
          end
      end
  end.
End WithURL.

End Server.

(* ------------------------------------------------------------------ *)
(** ** The file system

    A map from paths to what is there. *)

Module FS.

Inductive node :=
| File (content : list Byte.byte)
| Directory.

Abbreviation filesystem := (gmap string node).

Definition existsSync (fs : filesystem) (p : string) : bool :=
  match fs !! p with Some _ => true | None => false end.

(** [fs.unlinkSync(p)]: removes a file; fails on a directory or when
    nothing is there. *)
Definition unlinkSync (fs : filesystem) (p : string) : completion filesystem :=
  match fs !! p with
  | Some (File _) => Return (delete p fs)
  | Some Directory => Throw (Error "EISDIR")
  | None => Throw (Error "ENOENT")
  end.

(** [fs.unlink(p, () => {})]: the same with the error ignored. *)
Definition unlinkQuiet (fs : filesystem) (p : string) : filesystem :=
  match unlinkSync fs p with
  | Return fs' => fs'
  | _ => fs
  end.

(** Opening a write stream on [p] creates the file or empties it. *)
Definition createWriteStream (fs : filesystem) (p : string) : filesystem :=
  <[p := File []]> fs.

Definition writeAll (fs : filesystem) (p : string) (content : list Byte.byte)
  : filesystem :=
  <[p := File content]> fs.

End FS.

(* ------------------------------------------------------------------ *)
(** ** Deleting from the archive *)

(** The route [DELETE /api/iso-archive/:filename] of the web server,
    lines 1233-1284.  The catalog isos.json is a file of the archive
    directory like the others, so the route is embedded on the file
    system alone. *)
Module ServerDelete.
Import JSString FS.

(** [resolveArchivePath], line 431; [dirname] is [__dirname]. *)
Definition resolveArchivePath (dirname : string) (archivePath : string) : string :=
  if negb (truthy archivePath) then Path.join3 dirname ".." "ISO-Archive"
  else if Path.isAbsolute archivePath then archivePath
  else Path.join3 dirname ".." archivePath.

Section WithCatalog.
(** [JSON.parse] on the text of isos.json, as [readIsosJson] uses the
    result: [None] when it throws, and else the [isos] array of the
    document, [Some None] when the document has none. *)
Variable JSON_parse : list Byte.byte -> option (option (list Server.IsoRecord)).
(** [JSON.stringify(data, null, 2)] for the document whose [isos] array
    is the one given. *)
Variable JSON_stringify : list Server.IsoRecord -> list Byte.byte.
(** [config.isoArchive], the archive directory that [loadConfiguration]
    resolved when the server started (line 467). *)
Variable configIsoArchive : string.

(** Line 474 *)
Definition isosJsonPath : string := Path.join configIsoArchive "isos.json".

(** [readIsosJson], line 1303: what is on disk at the path of
    isos.json.  A read that fails counts like a text that is no JSON. *)
Definition readIsosJson (fs : filesystem) : Server.catalogFile :=
  match fs !! isosJsonPath with
  | None => Server.NoFile
  | Some Directory => Server.Corrupt
  | Some (File content) =>
      match JSON_parse content with
      | Some isos => Server.Doc isos
      | None => Server.Corrupt
      end
  end.

(** [writeIsosJson], line 1319: the directory is made when nothing is
    there, and the text is written; an exception (the directory is a
    file, isos.json is a directory) is caught and nothing is written. *)
Definition writeIsosJson (fs : filesystem) (isos : list Server.IsoRecord)
  : filesystem :=
  match fs !! configIsoArchive with
  | Some (File _) => fs
  | made =>
      let fs := match made with
                | None => <[configIsoArchive := Directory]> fs
                | Some _ => fs
                end in
      match fs !! isosJsonPath with
      | Some Directory => fs
      | _ => <[isosJsonPath := File (JSON_stringify isos)]> fs
      end
  end.

(** The call of [removeIsoFromJson] at line 1270, inside its [try]. *)
Definition removeIsoFromJson (filename : string) (fs : filesystem) : filesystem :=
  match Server.removeIsoFromJson filename (readIsosJson fs) with
  | Return (Server.Doc (Some isos)) => writeIsosJson fs isos
  | _ => fs
  end.

(** The handler: the status of the response and the file system it
    leaves.  [isoArchive] is the setting read from the configuration
    file at the time of the request, [None] when the file cannot be read
    or has no such setting. *)
Definition deleteRoute (dirname : string) (isoArchive : option string)
           (filenameToDelete : string) (fs : filesystem) : Z * filesystem :=
  if negb (truthy filenameToDelete) then (400%Z, fs)
  else
    match truthyOpt isoArchive with
    | None => (500%Z, fs)
    | Some archivePath =>
        let resolvedArchivePath := resolveArchivePath dirname archivePath in
        let fullPathToDelete :=
          Path.join resolvedArchivePath (Path.basename filenameToDelete) in
        if negb (startsWith fullPathToDelete (resolvedArchivePath +:+ "/"))
        then (403%Z, fs)
        else if negb (existsSync fs fullPathToDelete) then (404%Z, fs)
        else
          match unlinkSync fs fullPathToDelete with
          | Return fs' => (200%Z, removeIsoFromJson filenameToDelete fs')
          | _ => (500%Z, fs)
          end
    end.
End WithCatalog.

End ServerDelete.

(** The command-line tool, src/unnamed/part_003.  Its state is the file
    system together with what is on disk at the path of isos.json, of
    which the tool only looks at the parsed content. *)
Record state := {
  fs : FS.filesystem;
  catalog : Server.catalogFile
}.

Module Cli.
Import JSString.

Inductive outcome :=
| Exited (code : Z)
| Completed
| Failed (e : js_error).

(** The update of isos.json after a deletion, lines 1719-1735. *)
Definition forget (filename : string) (c : Server.catalogFile) : Server.catalogFile :=
  match c with
  | Server.NoFile => Server.NoFile
  | Server.Corrupt => Server.Doc (Some [])
  | Server.Doc None => Server.Doc (Some [])
  | Server.Doc (Some isos) =>
      Server.Doc
        (Some (List.filter
                 (fun i => negb (String.eqb (Server.filename i) filename)
                           && negb (String.eqb (Server.name i) filename))
                 isos))
  end.

(** [deleteArchiveIso], line 1697; [cwd] is the working directory and
    [isoArchive] the setting of the configuration. *)
Definition deleteArchiveIso (cwd : string) (isoArchive : option string)
           (filename : string) (st : state) : outcome * state :=
  let archivePath :=
    Path.resolve cwd (match truthyOpt isoArchive with
                      | Some p => p
                      | None => "ISO-Archive"
                      end) in
  let filePath := Path.join archivePath filename in
  if negb (startsWith filePath archivePath) then (Exited 1, st)
  else if negb (FS.existsSync (fs st) filePath) then (Exited 1, st)
  else
    match FS.unlinkSync (fs st) filePath with
    | Return fs' => (Completed, {| fs := fs'; catalog := forget filename (catalog st) |})
    | Throw e => (Failed e, st)
    | Unmodelled => (Failed (Error "unlink"), st)
    end.

(** [updateIsosJson], line 1821: nothing is done unless isos.json
    exists. *)
Definition updateIsosJson (meta : Server.IsoRecord) (remove : bool)
           (c : Server.catalogFile) : Server.catalogFile :=
  match c with
  | Server.NoFile => Server.NoFile
  | _ =>
      let isos := match c with
                  | Server.Doc (Some l) => l
                  | _ => []
                  end in
      let isos :=
        List.filter (fun i => negb (String.eqb (Server.filename i) (Server.filename meta)))
                    isos in
      Server.Doc (Some (if remove then isos else isos ++ [meta]))
  end.

End Cli.

(* ------------------------------------------------------------------ *)
(** ** Requests and promises

    An HTTP request is embedded by what the environment does in answer to
    it; a function that issues several requests consumes a list of such
    exchanges, one per request, in the order of the requests. *)

Module Net.

Record response := {
  statusCode : Z;
  statusMessage : string;
  location : option string;          (* the Location header *)
  contentLength : option string      (* the Content-Length header *)
}.

(** How the body of a response ends. *)
Inductive bodyEnd :=
| Finish                    (* all of it arrived *)
| Lost (message : string)   (* the request emits 'error' on the way *)
| Stall.                    (* nothing more arrives *)

Inductive exchange :=
| RequestError (message : string)   (* 'error' before any response *)
| NoAnswer                          (* no response at all *)
| Answer (r : response) (chunks : list (list Byte.byte)) (e : bodyEnd).

(** The state a promise ends in.  [Uncaught]: an exception escaped from
    an event handler, so that the promise is never settled and the
    exception reaches the process. *)
Inductive settled (A : Type) :=
| Pending
| Resolved (a : A)
| Rejected (e : js_error)
| Uncaught (e : js_error).
Arguments Pending {A}.
Arguments Resolved {A} a.
Arguments Rejected {A} e.
Arguments Uncaught {A} e.

(** [300 <= status < 400 && headers.location] *)
Definition redirectsTo (r : response) : option string :=
  if ((300 <=? statusCode r) && (statusCode r <? 400))%Z
  then JSString.truthyOpt (location r)
  else None.

Definition showZ (z : Z) : string := NilZero.string_of_int (Z.to_int z).

End Net.

(* ------------------------------------------------------------------ *)
(** ** The downloader module (the script after the web server in
       src/iso-manager-web/index.html, lines 1462-1779) *)

Module Downloader.
Import JSString Net FS.

(** The object that the promise is resolved with.  The duration and the
    speed, which are read off the clock, are left out. *)
Record result := {
  success : bool;
  path : string;
  size : option Z;
  hash : option string;
  error : option string;
  expected : option string;
  actual : option string
}.

Definition totalLength (chunks : list (list Byte.byte)) : Z :=
  Z.of_nat (length (concat chunks)).

Section WithCrypto.
(** [crypto.createHash(algorithm)] followed by [update] on every chunk
    and [digest('hex')]: the digest as a function of the bytes, [None]
    when the algorithm is not supported and [createHash] throws. *)
Variable digestHex : string -> option (list Byte.byte -> string).
(** [httpModule.get(url, ...)], line 1564, looks at its argument before
    any request is made: [getThrows url] is the exception that it throws
    for a text that is no URL, such as the Location [/pool/a.iso] of a
    redirect, which line 1569 hands on as it came, or whose protocol is
    not the one of the module chosen at line 1555; [None] when the
    request is made. *)
Variable getThrows : string -> option js_error.

(** The [hash] object of line 1556: [Some None] is [null]. *)
Definition hashObject (expectedHash hashAlgorithm : string)
  : option (option (list Byte.byte -> string)) :=
  if truthy expectedHash then option_map Some (digestHex hashAlgorithm)
  else Some None.

(** The handler of 'finish', lines 1596-1643. *)
Definition onFinish (hash : option (list Byte.byte -> string))
           (outputPath expectedHash : string) (chunks : list (list Byte.byte))
  : result :=
  match hash with
  | Some digest =>
      let calculatedHash := digest (concat chunks) in
      if String.eqb (toLowerCase calculatedHash) (toLowerCase expectedHash)
      then {| success := true; path := outputPath;
              size := Some (totalLength chunks); hash := Some calculatedHash;
              error := None; expected := None; actual := None |}
      else {| success := false; path := outputPath;
              size := None; hash := None;
              error := Some "Hash verification failed";
              expected := Some expectedHash; actual := Some calculatedHash |}
  | None =>
      {| success := true; path := outputPath;
         size := Some (totalLength chunks); hash := None;
         error := None; expected := None; actual := None |}
  end.

(** [downloadAndVerifyFile], line 1552.  [diskError] is the error, if
    any, that the write stream reports while the body is written.  An
    exception thrown in the executor of the promise, by [createHash] or
    by [get], rejects it before any handler is installed: the file that
    was just opened stays. *)
Fixpoint downloadAndVerifyFile (net : list exchange) (diskError : option string)
         (url outputPath expectedHash hashAlgorithm : string) (fs : filesystem)
  : filesystem * settled result :=
  let fs := createWriteStream fs outputPath in
  match hashObject expectedHash hashAlgorithm with
  | None => (fs, Rejected (Error "Digest method not supported"))
  | Some hash =>
      match getThrows url with
      | Some err => (fs, Rejected err)
      | None =>
          match net with
          | [] => (fs, Pending)
          | NoAnswer :: _ => (fs, Pending)
          | RequestError message :: _ =>
              (unlinkQuiet fs outputPath, Rejected (Error message))
          | Answer r chunks e :: net' =>
              match redirectsTo r with
              | Some target =>
                  downloadAndVerifyFile net' diskError target outputPath
                                        expectedHash hashAlgorithm fs
              | None =>
                  if negb (statusCode r =? 200)%Z then
                    match unlinkSync fs outputPath with
                    | Return fs' =>
                        (fs', Rejected (Error ("HTTP Error: " +:+ showZ (statusCode r)
                                               +:+ " " +:+ statusMessage r)))
                    | Throw err => (fs, Uncaught err)
                    | Unmodelled => (fs, Pending)
                    end
                  else
                    let written := writeAll fs outputPath (concat chunks) in
                    match diskError with
                    | Some message =>
                        (unlinkQuiet written outputPath, Rejected (Error message))
                    | None =>
                        match e with
                        | Finish =>
                            (written,
                             Resolved (onFinish hash outputPath expectedHash chunks))
                        | Lost message =>
                            (unlinkQuiet written outputPath, Rejected (Error message))
                        | Stall => (written, Pending)
                        end
                    end
              end
          end
      end
  end.
End WithCrypto.

End Downloader.

(* ------------------------------------------------------------------ *)
(** ** The download engine of src/iso-manager.js *)

Module IsoManager.
Import JSString Net FS.

Section WithURL.
(** [new URL(location, base).toString()]; [None] when the constructor
    throws. *)
Variable URL_resolve : string -> string -> option string.

Definition locationText (r : response) : string :=
  match location r with
  | Some l => l
  | None => "undefined"
  end.

(** [fetchData], line 175: the text fetched. *)
Fixpoint fetchData (net : list exchange) (url : string) (maxRedirects : Z)
  : settled string :=
  match net with
  | [] => Rejected (Error "Request timed out")
  | NoAnswer :: _ => Rejected (Error "Request timed out")
  | RequestError message :: _ => Rejected (Error message)
  | Answer r chunks e :: net' =>
      match redirectsTo r with
      | Some target =>
          if (maxRedirects <=? 0)%Z then Rejected (Error "Too many redirects")
          else
            match URL_resolve target url with
            | Some redirectUrl => fetchData net' redirectUrl (maxRedirects - 1)
            | None => Uncaught (TypeError "Invalid URL")
            end
      | None =>
          if negb (statusCode r =? 200)%Z
          then Rejected (Error ("Failed to fetch: HTTP " +:+ showZ (statusCode r)))
          else
            match e with
            | Finish => Resolved (string_of_list_byte (concat chunks))
            | Lost message => Rejected (Error message)
            | Stall => Rejected (Error "Request timed out")
            end
      end
  end.

(** [followRedirects], line 973: the loop, [n] iterations being left.
    Returns the exchanges that remain as well. *)
Fixpoint followLoop (net : list exchange) (currentUrl : string) (n : nat)
         {struct n} : settled string * list exchange :=
  match n with
  | O => (Resolved currentUrl, net)
  | S n' =>
      match net with
      | [] => (Pending, [])
      | NoAnswer :: net' => (Pending, net')
      | RequestError _ :: net' => (Resolved currentUrl, net')
      | Answer r _ _ :: net' =>
          if ((statusCode r =? 301) || (statusCode r =? 302))%Z then
            match URL_resolve (locationText r) currentUrl with
            | Some next => followLoop net' next n'
            | None => (Rejected (TypeError "Invalid URL"), net')
            end
          else (Resolved currentUrl, net')
      end
  end.

Definition followRedirects (net : list exchange) (url : string) (maxRedirects : Z)
  : settled string * list exchange :=
  followLoop net url (Z.to_nat maxRedirects).

(** What [downloadAndVerifyFile] resolves with, lines 1083-1088. *)
Record result := {
  success : bool;
  filePath : string;
  filename : string;
  size : Z
}.

Definition lastSegment (u : string) : string :=
  List.last (split Path.SEP u) "".

(** [downloadAndVerifyFile], line 990: [resolvedOutputPath] is the
    output directory, [diskError] the error, if any, that the write
    stream reports while the body is written.  [fuel] bounds the
    number of redirects followed at the download request itself. *)
Fixpoint downloadLoop (fuel : nat) (net : list exchange) (diskError : option string)
         (url resolvedOutputPath : string) (fs : filesystem)
  : filesystem * settled result :=
  match fuel with
  | O => (fs, Pending)
  | S fuel' =>
      match followRedirects net url 5 with
      | (Pending, _) => (fs, Pending)
      | (Rejected e, _) => (fs, Rejected e)
      | (Uncaught e, _) => (fs, Uncaught e)
      | (Resolved finalUrl, net1) =>
          match fs !! resolvedOutputPath with
          | Some (File _) =>
              (fs, Rejected (Error "Failed to create download directory: EEXIST"))
          | _ =>
              let fs := <[resolvedOutputPath := Directory]> fs in
              let filename := lastSegment finalUrl in
              let downloadPath := Path.join resolvedOutputPath filename in
              let fs := createWriteStream fs downloadPath in
              match net1 with
              | [] => (fs, Pending)
              | NoAnswer :: _ => (fs, Pending)
              | RequestError message :: _ => (fs, Rejected (Error message))
              | Answer r chunks e :: net2 =>
                  if ((statusCode r =? 301) || (statusCode r =? 302))%Z then
                    match URL_resolve (locationText r) finalUrl with
                    | Some redirectUrl =>
                        downloadLoop fuel' net2 diskError redirectUrl
                                     resolvedOutputPath fs
                    | None => (fs, Uncaught (TypeError "Invalid URL"))
                    end
                  else if negb (statusCode r =? 200)%Z then
                    (fs, Rejected (Error ("HTTP " +:+ showZ (statusCode r))))
                  else
                    let written := writeAll fs downloadPath (concat chunks) in
                    match diskError with
                    | Some message =>
                        (written, Rejected (Error ("File write error: " +:+ message)))
                    | None =>
                        match e with
                        | Finish =>
                            (written,
                             Resolved {| success := true; filePath := downloadPath;
                                         filename := filename; size := 0 |})
                        | Lost message => (written, Rejected (Error message))
                        | Stall => (written, Pending)
                        end
                    end
              end
          end
      end
  end.

Definition downloadAndVerifyFile (net : list exchange) (diskError : option string)
           (url resolvedOutputPath : string) (fs : filesystem)
  : filesystem * settled result :=
  downloadLoop (S (length net)) net diskError url resolvedOutputPath fs.

End WithURL.

(** *** Verification of a file *)

Record verification := {
  v_filePath : string;
  v_hash : string;
  v_expectedHash : option string;
  v_algorithm : option string;
  isValid : bool;
  message : string
}.

Section WithCrypto.
Variable digestHex : string -> option (list Byte.byte -> string).

(** [calculateFileHash], line 1146; the algorithm defaults to sha256. *)
Definition calculateFileHash (fs : filesystem) (filePath : string)
           (algorithm : option string) : settled string :=
  let algorithm := match algorithm with Some a => a | None => "sha256" end in
  match digestHex algorithm with
  | None => Rejected (Error "Hash calculation error: Digest method not supported")
  | Some digest =>
      match fs !! filePath with
      | Some (File content) => Resolved (digest content)
      | Some Directory => Rejected (Error "Failed to read file: EISDIR")
      | None => Rejected (Error "Failed to read file: ENOENT")
      end
  end.

(** [verifyFile], line 1169 *)
Definition verifyFile (fs : filesystem) (filePath : string)
           (expectedHash algorithm : option string) : settled verification :=
  if negb (existsSync fs filePath)
  then Rejected (Error ("File not found: " +:+ filePath))
  else
    match calculateFileHash fs filePath algorithm with
    | Pending => Pending
    | Rejected e => Rejected e
    | Uncaught e => Uncaught e
    | Resolved hash =>
        let isValid :=
          match truthyOpt expectedHash with
          | Some expected => String.eqb (toLowerCase hash) (toLowerCase expected)
          | None => true
          end in
        Resolved {| v_filePath := filePath;
                    v_hash := hash;
                    v_expectedHash := expectedHash;
                    v_algorithm := algorithm;
                    isValid := isValid;
                    message := if isValid then "Hash verified successfully"
                               else "Hash verification failed" |}
    end.
End WithCrypto.

End IsoManager.

(* ================================================================== *)
(** * More of the code

    The functions around the ones above: the other scripts of the web
    server, the prompt, the search for checksum files and the
    housekeeping of the command-line tool. *)

(* ------------------------------------------------------------------ *)
(** ** The size of a remote file, get-size.js (the script after the web
       server in src/iso-manager-web/index.html, lines 1423-1460) *)

Module GetSize.
Import JSString Net.

(** How the process ends: with an exit code and, for code 0, the line
    printed on the standard output; waiting for an answer that does not
    come; or with an exception that nothing catches. *)
Inductive outcome :=
| Exit (code : Z) (printed : option string)
| Waiting
| Crashed (e : js_error).

Section WithURL.
(** [new URL(location, base).href]; [None] when the constructor
    throws. *)
Variable URL_resolve : string -> string -> option string.
(** [https.request(url, ...)] accepts the text [url]: it is a URL and its
    protocol is https. *)
Variable accepted : string -> bool.

(** [getFileSize], line 1432: one HEAD request per exchange. *)
Fixpoint getFileSize (net : list exchange) (url : string) : outcome :=
  if negb (accepted url) then Crashed (TypeError "Invalid URL")
  else
    match net with
    | [] => Waiting
    | NoAnswer :: _ => Waiting
    | RequestError _ :: _ => Exit 4 None
    | Answer r _ _ :: net' =>
        match redirectsTo r with
        | Some target =>
            match URL_resolve target url with
            | Some newUrl => getFileSize net' newUrl
            | None => Crashed (TypeError "Invalid URL")
            end
        | None =>
            if (statusCode r =? 200)%Z then
              match truthyOpt (contentLength r) with
              | Some length => Exit 0 (Some length)
              | None => Exit 2 None
              end
            else Exit 3 None
        end
    end.

(** The script: [inputUrl] is [process.argv[2]]. *)
Definition main (inputUrl : option string) (net : list exchange) : outcome :=
  match truthyOpt inputUrl with
  | None => Exit 1 None
  | Some url => getFileSize net url
  end.
End WithURL.
End GetSize.

(* ------------------------------------------------------------------ *)
(** ** Fetching a text in the downloader module (server script, lines
       1497-1542) *)

Module DownloaderNet.
Import JSString Net.

Section WithURL.
(** [new URL(location, base).href]; [None] when the constructor
    throws. *)
Variable URL_resolve : string -> string -> option string.

(** [fetchUrl], line 1501: the closure that makes one request;
    [redirectCount] is the counter it shares with the earlier
    requests. *)
Fixpoint fetchUrl (net : list exchange) (currentUrl : string)
         (redirectCount maxRedirects : Z) : settled string :=
  match net with
  | [] => Pending
  | NoAnswer :: _ => Pending
  | RequestError message :: _ => Rejected (Error message)
  | Answer r chunks e :: net' =>
      match redirectsTo r with
      | Some target =>
          let redirectCount := (redirectCount + 1)%Z in
          if (maxRedirects <? redirectCount)%Z
          then Rejected (Error ("Too many redirects (" +:+ showZ maxRedirects +:+ ")"))
          else
            match URL_resolve target currentUrl with
            | Some redirectUrl => fetchUrl net' redirectUrl redirectCount maxRedirects
            | None => Uncaught (TypeError "Invalid URL")
            end
      | None =>
          if negb (statusCode r =? 200)%Z
          then Rejected (Error ("HTTP Error: " +:+ showZ (statusCode r)
                                +:+ " " +:+ statusMessage r))
          else
            match e with
            | Finish => Resolved (string_of_list_byte (concat chunks))
            | Lost message => Rejected (Error message)
            | Stall => Pending
            end
      end
  end.

(** [fetchData], line 1497 *)
Definition fetchData (net : list exchange) (url : string) (maxRedirects : Z)
  : settled string :=
  fetchUrl net url 0 maxRedirects.
End WithURL.
End DownloaderNet.

(* ------------------------------------------------------------------ *)
(** ** Verifying a file of the archive, command-line tool
       (src/unnamed/part_003, lines 1739-1781) *)

Module CliVerify.
Import JSString FS Server.


Section WithCrypto.
(** The digests of the crypto module, as for the downloader. *)
Variable digestHex : string -> option (list Byte.byte -> string).

End WithCrypto.
End CliVerify.

(* ------------------------------------------------------------------ *)
(** ** Throttling the log of the archive watcher, command-line tool
       (src/unnamed/part_003, lines 1681-1694) *)

Module Watcher.
Import JSString.

(** [shouldLogWatcherEvent], line 1683.  [filename] is [None] for the
    [null] that [fs.watch] may pass; [now] is [Date.now()]; the table is
    [watcherEventTimestamps].  Returns the answer and the table it
    leaves. *)
Definition shouldLogWatcherEvent (filename : option string) (eventType : string)
           (now : Z) (watcherEventTimestamps : gmap string Z)
  : bool * gmap string Z :=
  match truthyOpt filename with
  | None => (false, watcherEventTimestamps)
  | Some f =>
      if negb (RegExp.test true (RegExp.literal "\.(iso|esd)$") f)
      then (false, watcherEventTimestamps)
      else
        let key := eventType +:+ ":" +:+ f in
        let stored := watcherEventTimestamps !! key in
        if match stored with Some t => negb (Server.truthyNum t) | None => true end
           || match stored with Some t => (5000 <? now - t)%Z | None => false end
        then (true, <[key := now]> watcherEventTimestamps)
        else (false, watcherEventTimestamps)
  end.

(** A call of the function: its arguments and the time of the call. *)
Record call := {
  c_filename : option string;
  c_eventType : string;
  c_now : Z
}.

(** The answers to a sequence of calls, the table being handed on from
    each call to the next. *)
Fixpoint answers (calls : list call) (table : gmap string Z) : list bool :=
  match calls with
  | [] => []
  | c :: calls' =>
      let r := shouldLogWatcherEvent (c_filename c) (c_eventType c) (c_now c) table in
      fst r :: answers calls' (snd r)
  end.
End Watcher.

(* ------------------------------------------------------------------ *)
(** ** Choosing an image at the prompt *)

Module JSParse.
Import JSString JSNumber.
Local Open Scope char_scope.

Fixpoint takeWhile {A} (p : A -> bool) (l : list A) : list A :=
  match l with
  | [] => []
  | x :: xs => if p x then x :: takeWhile p xs else []
  end.

(** [parseInt(s, 10)]: white space in front is skipped, a sign is read,
    then the decimal digits up to the first other character; no digit
    gives NaN.  The result is the double nearest to the integer read; a
    negative zero is not told from zero.  With more than twenty digits
    the language leaves the last ones to the implementation, which is
    outside the embedded fragment. *)
Definition parseInt (s : string) : completion number :=
  let t := dropWhile isWhiteSpace (chars s) in
  let negative := match t with "-" :: _ => true | _ => false end in
  let t := match t with
           | "-" :: t' => t'
           | "+" :: t' => t'
           | _ => t
           end in
  match takeWhile isDigit t with
  | [] => Return NaN
  | digits =>
      if Nat.ltb 20 (length digits) then Unmodelled
      else
        match ofInteger (decimal digits) with
        | Fin v => Return (Fin (if negative then - v else v))
        | _ => Unmodelled
        end
  end.
End JSParse.

Module SelectIso.
Import JSString JSNumber JSParse Net.

Section WithIsos.
(** The entries of the list: objects with a name that is a string. *)
Context {Iso : Type}.

(** [isos[n]] for a Number [n]; [None] is [undefined]. *)
Definition at_index (isos : list Iso) (n : number) : option Iso :=
  match n with
  | Fin k => if (k <? 0)%Z then None else nth_error isos (Z.to_nat k)
  | _ => None
  end.

(** [n - 1] *)
Definition minus1 (n : number) : number :=
  match n with
  | Fin k => Fin (k - 1)
  | Frac m k => Frac (m - 2 ^ Z.pos k) k
  | other => other
  end.

(** [selectIso] of iso-manager.js, line 843.  [answers] are the lines
    typed at the prompt; the promise stays pending when they run out.
    After the first answer [selectedIndex] is never [undefined]
    again. *)
Fixpoint selectIso (isos : list Iso) (answers : list string)
  : completion (settled (option Iso)) :=
  match answers with
  | [] => Return Pending
  | answer :: answers' =>
      selectedIndex ← parseInt answer;
      if lt selectedIndex (Fin 1) || gt selectedIndex (Fin (Z.of_nat (length isos)))
      then selectIso isos answers'
      else Return (Resolved (at_index isos (minus1 selectedIndex)))
  end.

(** The loop of [selectIso] of the downloader module, server script
    line 1680: an answer that is no number in range sets [selection]
    back to -1. *)
Fixpoint selectLoop (isos : list Iso) (answers : list string)
  : completion (settled (option Iso)) :=
  match answers with
  | [] => Return Pending
  | answer :: answers' =>
      n ← parseInt answer;
      let selection := minus1 n in
      let isNaN := match selection with NaN => true | _ => false end in
      if isNaN || lt selection (Fin 0)
         || negb (lt selection (Fin (Z.of_nat (length isos))))
      then selectLoop isos answers'
      else Return (Resolved (at_index isos selection))
  end.

(** [selectIso] of the downloader module, server script line 1663 *)
Definition downloaderSelectIso (isos : list Iso) (answers : list string)
  : completion (settled (option Iso)) :=
  match isos with
  | [] => Return (Rejected (Error "No ISOs available"))
  | _ :: _ => selectLoop isos answers
  end.
End WithIsos.
End SelectIso.

(* ------------------------------------------------------------------ *)
(** ** Looking for a checksum file, src/iso-manager.js *)

Module HashFiles.
Import JSString Net.
Local Open Scope char_scope.

(** [url.substring(0, url.lastIndexOf('/') + 1)] *)
Definition upToLastSlash (url : string) : string :=
  str (rev (dropWhile (fun c => negb (Ascii.eqb c "/")) (rev (chars url)))).

(** The replacement text of [String.prototype.replace] for a search
    string: [$$], [$&], [$`] and ['] after a dollar stand for a dollar,
    the match, the text before it and the text after it. *)
Fixpoint substitution (replaceValue matched before after : list ascii) : list ascii :=
  match replaceValue with
  | "$" :: "$" :: t => "$" :: substitution t matched before after
  | "$" :: "&" :: t => matched ++ substitution t matched before after
  | "$" :: "`" :: t => before ++ substitution t matched before after
  | "$" :: "'" :: t => after ++ substitution t matched before after
  | c :: t => c :: substitution t matched before after
  | [] => []
  end.

(** The text before and the text after the first occurrence of [p]. *)
Fixpoint splitAtFirst (p l revBefore : list ascii) : option (list ascii * list ascii) :=
  if isPrefix p l then Some (rev revBefore, skipn (length p) l)
  else match l with
       | [] => None
       | c :: l' => splitAtFirst p l' (c :: revBefore)
       end.

Local Close Scope char_scope.

(** [s.replace(searchValue, replaceValue)] for two strings *)
Definition replaceString (s searchValue replaceValue : string) : string :=
  match splitAtFirst (chars searchValue) (chars s) [] with
  | None => s
  | Some (before, after) =>
      str (before
           ++ substitution (chars replaceValue) (chars searchValue) before after
           ++ after)
  end.

(** The elements of [new Set(l)], in the order of insertion. *)
Fixpoint distinct (l seen : list string) : list string :=
  match l with
  | [] => []
  | x :: l' =>
      if existsb (String.eqb x) seen then distinct l' seen
      else x :: distinct l' (x :: seen)
  end.

(** The entry of an image as [fetchIsoList] builds it and
    [verifyIsoHash] completes it; [None] is a property that is not
    there. *)
Record Iso := {
  name : string;
  link : string;
  hash : string;
  hashAlgorithm : option string;
  hashSource : option string;
  lastVerified : option string;
  verified : option bool;
  changed : option bool;
  currentHash : option string
}.

Definition orDefault (v : option string) (d : string) : string :=
  match truthyOpt v with Some s => s | None => d end.

(** The second half of [verifyIsoHash], iso-manager.js:701-735: the
    "placeholder for actual hash verification". *)
Definition simulate (now : string) (iso : Iso) : Iso :=
  if truthy (hash iso) then
    let current := hash iso in
    if truthy (hash iso) && negb (String.eqb (hash iso) current)
    then {| name := name iso; link := link iso; hash := hash iso;
            hashAlgorithm := hashAlgorithm iso; hashSource := hashSource iso;
            lastVerified := lastVerified iso; verified := Some true;
            changed := Some true; currentHash := Some current |}
    else {| name := name iso; link := link iso; hash := hash iso;
            hashAlgorithm := hashAlgorithm iso; hashSource := hashSource iso;
            lastVerified := Some now; verified := Some true;
            changed := Some false; currentHash := currentHash iso |}
  else iso.

Section WithWeb.
(** [new URL(location, base).toString()]; [None] when the constructor
    throws. *)
Variable URL_resolve : string -> string -> option string.
(** [new URL(url).pathname]; [None] when the constructor throws. *)
Variable URL_pathname : string -> option string.
(** The exchanges that follow a request for a URL. *)
Variable web : string -> list exchange.

(** [parseUrl], iso-manager.js:353: [(baseUrl, filename)]. *)
Definition parseUrl (url : string) : string * string :=
  match URL_pathname url with
  | Some pathname => (upToLastSlash url, List.last (split "/"%char pathname) "")
  | None => ("", "")
  end.

(** The loops over the candidate names, iso-manager.js:419-435 and
    442-458: [Resolved (Some h)] when the function returns [h] from
    inside the loop, [Resolved None] when the loop comes to its end. *)
Fixpoint tryPatterns (baseUrl : string) (patterns : list string)
         (filename hashAlgorithm : string) : completion (settled (option string)) :=
  match patterns with
  | [] => Return (Resolved None)
  | pattern :: patterns' =>
      let hashFileUrl := baseUrl +:+ pattern in
      match IsoManager.fetchData URL_resolve (web hashFileUrl) hashFileUrl 5 with
      | Resolved hashData =>
          match IsoManagerHash.extractHashFromFile hashData filename hashAlgorithm with
          | Return extractedHash =>
              if truthy extractedHash then Return (Resolved (Some extractedHash))
              else tryPatterns baseUrl patterns' filename hashAlgorithm
          | Throw _ => tryPatterns baseUrl patterns' filename hashAlgorithm
          | Unmodelled => Unmodelled
          end
      | Rejected _ => tryPatterns baseUrl patterns' filename hashAlgorithm
      | Pending => Return Pending
      | Uncaught e => Return (Uncaught e)
      end
  end.

(** The names tried in the directory of the image,
    iso-manager.js:384-416. *)
Definition candidates (isoUrl filename hashAlgorithm hashMatch : string) : list string :=
  let customPattern :=
    replaceString (replaceString hashMatch "{filename}" filename)
                  "{hashAlgorithm}" hashAlgorithm in
  [ customPattern;
    filename +:+ "." +:+ hashAlgorithm;
    filename +:+ "." +:+ hashAlgorithm +:+ "sum";
    hashAlgorithm +:+ "sums.txt";
    hashAlgorithm +:+ "sum.txt";
    "SHA" +:+ toUpperCase hashAlgorithm +:+ "SUMS";
    toUpperCase hashAlgorithm +:+ "SUMS";
    "SUMS." +:+ hashAlgorithm;
    "CHECKSUM." +:+ hashAlgorithm;
    hashAlgorithm +:+ ".txt" ]
  ++ (if includes isoUrl "debian.org" then ["SHA256SUMS"]
      else if includes isoUrl "ubuntu.com" then ["SHA256SUMS"]
      else if includes isoUrl "linuxmint" then ["sha256sum.txt"]
      else if includes isoUrl "freebsd.org" then ["CHECKSUM.SHA256"]
      else []).

(** [findHashFile], iso-manager.js:374; the empty string is the "not
    found" answer. *)
Definition findHashFile (isoUrl hashAlgorithm hashMatch : string)
  : completion (settled string) :=
  let '(baseUrl, filename) := parseUrl isoUrl in
  if negb (truthy baseUrl) || negb (truthy filename) then Return (Resolved "")
  else
    here ← tryPatterns baseUrl
                       (distinct (candidates isoUrl filename hashAlgorithm hashMatch) [])
                       filename hashAlgorithm;
    match here with
    | Resolved (Some h) => Return (Resolved h)
    | Resolved None =>
        let parts := split "/"%char baseUrl in
        if Nat.ltb 2 (length (List.filter truthy parts)) then
          let parentUrl := joinWith "/" (firstn (length parts - 2) parts) +:+ "/" in
          above ← tryPatterns parentUrl
                              (distinct [ "SHA256SUMS"; "sha256sum.txt";
                                          toUpperCase hashAlgorithm +:+ "SUMS" ] [])
                              filename hashAlgorithm;
          match above with
          | Resolved (Some h) => Return (Resolved h)
          | Resolved None => Return (Resolved "")
          | Pending => Return Pending
          | Rejected e => Return (Rejected e)
          | Uncaught e => Return (Uncaught e)
          end
        else Return (Resolved "")
    | Pending => Return Pending
    | Rejected e => Return (Rejected e)
    | Uncaught e => Return (Uncaught e)
    end.

(** [verifyIsoHash], iso-manager.js:678.  [configAlgorithm] and
    [configMatch] are the settings [hashAlgorithm] and [hashMatch] of
    the configuration, [now] is [new Date().toISOString()]. *)
Definition verifyIsoHash (configAlgorithm configMatch : option string) (now : string)
           (iso : Iso) : completion (settled Iso) :=
  if negb (truthy (link iso)) then Return (Resolved iso)
  else
    let algorithm := orDefault (hashAlgorithm iso) (orDefault configAlgorithm "sha256") in
    if negb (truthy (hash iso)) then
      let hashMatch := orDefault configMatch "{filename}.{hashAlgorithm}" in
      found ← findHashFile (link iso) algorithm hashMatch;
      match found with
      | Resolved h =>
          let iso :=
            {| name := name iso; link := link iso; hash := h;
               hashAlgorithm := hashAlgorithm iso;
               hashSource := if truthy h then Some "file" else hashSource iso;
               lastVerified := if truthy h then Some now else lastVerified iso;
               verified := verified iso; changed := changed iso;
               currentHash := currentHash iso |} in
          Return (Resolved (simulate now iso))
      | Pending => Return Pending
      | Rejected e => Return (Rejected e)
      | Uncaught e => Return (Uncaught e)
      end
    else Return (Resolved (simulate now iso)).
End WithWeb.
End HashFiles.

(* ================================================================== *)
(** * The specification's side

    What follows the words of the specification, to be compared with the
    code, and the inputs of the examples. *)

Module HashFileSpec.
(** A digest of 64 hexadecimal digits, upper and lower case mixed. *)
Definition digest64 : string :=
  "DEADBEEFdeadbeefdeadbeefdeadbeefdeadbeefdeadbeefdeadbeefdeadbeef".

Definition digest64lower : string :=
  "deadbeefdeadbeefdeadbeefdeadbeefdeadbeefdeadbeefdeadbeefdeadbeef".

(** A digest of 128 hexadecimal digits, the length of sha512. *)
Definition digest128 : string := digest64lower +:+ digest64lower.

Definition nothingToRepeat : js_error :=
  SyntaxError "Invalid regular expression: Nothing to repeat".
End HashFileSpec.

Module VersionSpec.
Import JSString JSNumber.
Local Open Scope Z_scope.

(** The comparison that the specification describes: component by
    component on the numeric values, a missing component counting as 0;
    1, -1 or 0. *)
Fixpoint compareZeros (l2 : list Z) : Z :=
  match l2 with
  | [] => 0
  | y :: l2' => if y <? 0 then 1 else if 0 <? y then -1 else compareZeros l2'
  end.

Fixpoint compareNumeric (l1 l2 : list Z) : Z :=
  match l1 with
  | [] => compareZeros l2
  | x :: l1' =>
      let y := hd 0 l2 in
      if y <? x then 1 else if x <? y then -1 else compareNumeric l1' (tl l2)
  end.

(** The value of a component written in decimal digits. *)
Definition value (component : string) : Z := decimal (chars component).

(** A component of a dotted-numeric version: one decimal digit or more. *)
Definition isNumeral (component : string) : bool :=
  truthy component && forallb isDigit (chars component).

(** A numeral whose value a Number holds exactly. *)
Definition isExact (component : string) : bool :=
  isNumeral component && (value component <? 2 ^ 53).

End VersionSpec.

Module CatalogSpec.
Import Server.

(** The entry is the one for file name [f]. *)
Definition hasFilename (f : string) (r : IsoRecord) : bool :=
  String.eqb (filename r) f.

(** The entry is for another file and its name normalizes to something
    else than [n] does. *)
Definition unrelated (f n : string) (r : IsoRecord) : bool :=
  negb (hasFilename f r)
  && negb (String.eqb (normalizeIsoName (name r)) (normalizeIsoName n)).

(** The entries of a catalog file as [updateIsosJson] reads them. *)
Definition entries (c : catalogFile) : list IsoRecord :=
  match c with
  | Doc (Some l) => l
  | _ => []
  end.
End CatalogSpec.

Module UpdateSpec.
Import JSString Server.
Local Open Scope Z_scope.

(** The version of a listing entry: its [version], or else the version
    read from the file name of its URL. *)
Definition listingVersion (d : Details) (isoFilename : string) : option string :=
  orElse (Some (d_version d)) (extractVersionFromFilename isoFilename).

(** A version that is there: a non-empty string. *)
Definition present (v : option string) (s : string) : Prop :=
  v = Some s /\ s <> "".

Definition absent (v : option string) : Prop :=
  v = None \/ v = Some "".

(** The listing version [n] is compared with the archived version [a]
    and found strictly greater. *)
Definition newer (n a : string) : Prop :=
  exists c, compareVersions n a = Return c /\ 0 < c.

(** Both sizes are known and differ by more than 1 MiB. *)
Definition sizesDiffer (listingSize archivedSize : Z) : Prop :=
  listingSize <> 0 /\ archivedSize <> 0
  /\ 1024 * 1024 < Z.abs (listingSize - archivedSize).

(** The rule as the specification words it, for an entry matched with a
    catalog record: by version when both sides have one, by size
    otherwise. *)
Definition specifiedUpdate (d : Details) (isoFilename : string) (r : IsoRecord) : Prop :=
  (exists n a, present (listingVersion d isoFilename) n /\ present (version r) a
               /\ newer n a)
  \/ ((absent (listingVersion d isoFilename) \/ absent (version r))
      /\ sizesDiffer (d_size d) (size r)).

(** The listing size is known and is not the size of the file on disk. *)
Definition sizeChanged (listingSize diskSize : Z) : Prop :=
  listingSize <> 0 /\ diskSize <> listingSize.

(** Without a catalog record the versions compared are the one of the
    listing and the one in the name of the matched file, and only for a
    match that is not exact and an entry that states its version. *)
Definition namesCompared (d : Details) (isoFilename file : string) (exactMatch : bool)
           (a n : string) : Prop :=
  d_version d <> "" /\ exactMatch = false
  /\ present (extractVersionFromFilename file) a
  /\ present (listingVersion d isoFilename) n
  /\ a <> n.

(** The rule for an entry that was matched with the file [file] of the
    archive, whose size on disk is [diskSize]: (a) and (b) with a
    catalog record, (c) without. *)
Definition flagged (d : Details) (isoFilename file : string) (record : option IsoRecord)
           (exactMatch : bool) (diskSize : Z) : Prop :=
  match record with
  | Some r =>
      (exists a n, present (version r) a /\ present (listingVersion d isoFilename) n
                   /\ a <> n /\ newer n a)
      \/ ((absent (version r) \/ absent (listingVersion d isoFilename)
           \/ exists s, present (version r) s /\ present (listingVersion d isoFilename) s)
          /\ sizesDiffer (d_size d) (size r))
  | None =>
      sizeChanged (d_size d) diskSize
      \/ exists a n, namesCompared d isoFilename file exactMatch a n /\ newer n a
  end.

Section WithURL.
Variable URL_pathname : string -> option string.

(** The entry can be examined: its URL is one that [new URL] reads, and
    the file of the archive matched with it, if there is one, is one
    that [fs.statSync] finds. *)
Definition examined (files : list string) (isos : list IsoRecord)
           (statSize : string -> option Z) (entry : string * Details) : Prop :=
  exists pathname,
    URL_pathname (d_url (snd entry)) = Some pathname
    /\ forall file,
        present (fst (fst (locate files isos (fst entry) (Path.basename pathname)))) file ->
        exists diskSize, statSize file = Some diskSize.

(** The pass over the listing goes through without an exception: the
    archive directory is there, the catalog gives its [isos] array, and
    every entry can be examined. *)
Definition completes (archive : option (list string)) (statSize : string -> option Z)
           (catalog : catalogFile) (isoList : list (string * Details)) : Prop :=
  exists files isos,
    archive = Some files /\ readIsos catalog = Some isos
    /\ Forall (examined files isos statSize) isoList.

(** The entry was matched with a file of the archive and the rule asks
    for the flag. *)
Definition updateDue (archive : option (list string)) (statSize : string -> option Z)
           (catalog : catalogFile) (entry : string * Details) : Prop :=
  exists files isos pathname matchedFile record exactMatch file diskSize,
    archive = Some files /\ readIsos catalog = Some isos
    /\ URL_pathname (d_url (snd entry)) = Some pathname
    /\ locate files isos (fst entry) (Path.basename pathname)
       = (matchedFile, record, exactMatch)
    /\ present matchedFile file
    /\ statSize file = Some diskSize
    /\ flagged (snd entry) (Path.basename pathname) file record exactMatch diskSize.
End WithURL.
End UpdateSpec.

Module DownloadSpec.
Import Net.

(** A response that makes the downloader issue a new request. *)
Definition isRedirect (x : exchange) : bool :=
  match x with
  | Answer r _ _ => match redirectsTo r with Some _ => true | None => false end
  | _ => false
  end.

(** A response with status 301 or 302, the ones [followRedirects]
    follows. *)
Definition isMoved (x : exchange) : bool :=
  match x with
  | Answer r _ _ => ((statusCode r =? 301) || (statusCode r =? 302))%Z
  | _ => false
  end.


(** The answer [200 OK] to a request. *)
Definition ok200 : response :=
  {| statusCode := 200; statusMessage := "OK"; location := None; contentLength := None |}.

(** The answer [301] with a Location header. *)
Definition moved (target : string) : exchange :=
  Answer {| statusCode := 301; statusMessage := "Moved Permanently";
            location := Some target; contentLength := None |} [] Finish.

(** Resolution of a location that is an absolute URL with a path: the
    location itself. *)
Definition absolute (target base : string) : option string := Some target.

(** A stand-in for the test that [get] makes: a text that starts with
    [http://] is requested, any other is turned down. *)
Definition httpOnly (url : string) : option js_error :=
  if JSString.startsWith url "http://" then None else Some (TypeError "Invalid URL").
End DownloadSpec.

(** Inputs for the statements below. *)
Module Examples.
Import Net FS Server DownloadSpec.

(** A stand-in for the digests of the crypto module: sha256 alone is
    known, and a digest only tells the empty input from the others. *)
Definition toyDigest (algorithm : string) : option (list Byte.byte -> string) :=
  if String.eqb algorithm "sha256"
  then Some (fun bytes => match bytes with [] => "e3b0c442" | _ :: _ => "ab12cd34" end)
  else None.

(** A chain of six redirects, one more than the limit of five, that ends
    at a file. *)
Definition sixHops : list exchange :=
  [ moved "http://mirror.example/1"; moved "http://mirror.example/2";
    moved "http://mirror.example/3"; moved "http://mirror.example/4";
    moved "http://mirror.example/5"; moved "http://mirror.example/6";
    Answer ok200 [] Finish ].

(** A transfer that breaks after two bytes: the request that
    [followRedirects] makes is answered, the download request loses its
    connection. *)
Definition brokenTransfer : list exchange :=
  [ Answer ok200 [] Finish;
    Answer ok200 [[Byte.x01]; [Byte.x02]] (Lost "ECONNRESET") ].

(** An archive at /data/ISO-Archive next to a directory whose name
    starts with the same characters. *)
Definition besideArchive : state :=
  {| fs := {[ "/data/ISO-Archive-old/debian.iso" := File [Byte.x01] ]};
     catalog := NoFile |}.

(** An archive of the web server that holds a file called passwd and
    no catalog. *)
Definition archiveWithPasswd : filesystem :=
  {[ "/srv/ISO-Archive" := Directory;
     "/srv/ISO-Archive/passwd" := File [Byte.x01] ]}.



(** A stand-in for [new URL(url).pathname]: what follows the host. *)
Definition pathAfterHost (url : string) : option string :=
  match JSString.split Path.SEP url with
  | _ :: "" :: _ :: segments => Some ("/" +:+ JSString.joinWith "/" segments)
  | _ => None
  end.

(** The catalog entry of an image downloaded earlier. *)
Definition olderUbuntu : IsoRecord :=
  {| name := "ubuntu-22.04-desktop-amd64";
     filename := "ubuntu-22.04-desktop-amd64.iso";
     version := Some "22.04";
     hash := "";
     size := 2097152;
     addedDate := "2025-01-01T00:00:00.000Z";
     hashAlgorithm := None;
     url := None |}.

(** The point release of the same image, as the download route names
    it. *)
Definition pointRelease : IsoInfo :=
  {| iso_name := "ubuntu-22.04.3-desktop-amd64"; iso_version := Some "22.04.3" |}.

(** A listing entry with the version of [olderUbuntu] and another
    size. *)
Definition sameVersionOtherSize : Details :=
  {| d_url := "https://releases.example/22.04/ubuntu-22.04-desktop-amd64.iso";
     d_version := "22.04";
     d_size := 4194304;
     d_inArchive := false;
     d_updateAvailable := false;
     d_filename := None |}.


Definition entryOf (f : string) : IsoRecord :=
  {| name := f; filename := f; version := None; hash := ""; size := 0;
     addedDate := ""; hashAlgorithm := None; url := None |}.
End Examples.

(* ------------------------------------------------------------------ *)
(** ** Words for the properties of the code beyond the specification *)

(** Escaping a text for use in a pattern, in the words of the comment
    of [escapeRegExp]: "Escape regular expression special characters". *)
Module PatternSpec.
Import JSString RegExp.
Local Open Scope char_scope.

(** The characters that the pattern of [escapeRegExp] lists. *)
Definition isSpecial (c : ascii) : bool :=
  existsb (Ascii.eqb c)
          ["."; "*"; "+"; "?"; "^"; "$"; "{"; "}"; "("; ")"; "|"; "["; "]"; "\"].

(** The text with a backslash in front of every special character. *)
Definition escaped (cs : list ascii) : list ascii :=
  flat_map (fun c => if isSpecial c then ["\"; c] else [c]) cs.

(** The pattern that stands for the characters [cs] in a row. *)
Definition literalText (cs : list ascii) : regex :=
  fold_left (fun a c => RSeq a (RChar c)) cs REmpty.
End PatternSpec.

(** Hexadecimal digits, as the class [[0-9a-fA-F]] lists them. *)
Module HexSpec.
Import JSString.
Definition isHexDigit (c : ascii) : bool :=
  in_range "0" "9" c || in_range "a" "f" c || in_range "A" "F" c.

(** A text of one hexadecimal digit or more. *)
Definition isHex (s : string) : bool :=
  negb (String.eqb s "") && forallb isHexDigit (chars s).
End HexSpec.

(** The texts that a pattern stands for, without regard to what
    surrounds them: the assertions [^] and [$] stand for the empty
    text. *)
Module RegExpSpec.
Import JSString RegExp.

Inductive lang (icase : bool) : regex -> list ascii -> Prop :=
| L_empty : lang icase REmpty []
| L_char c x :
    Ascii.eqb (canon icase c) (canon icase x) = true -> lang icase (RChar c) [x]
| L_any x : isLineTerminator x = false -> lang icase RAny [x]
| L_class neg items x :
    xorb neg (existsb (fun it => item_matches icase it x) items) = true ->
    lang icase (RClass neg items) [x]
| L_seq a b u v : lang icase a u -> lang icase b v -> lang icase (RSeq a b) (u ++ v)
| L_alt_l a b u : lang icase a u -> lang icase (RAlt a b) u
| L_alt_r a b v : lang icase b v -> lang icase (RAlt a b) v
| L_repeat_done r max : lang icase (RRepeat r 0 max) []
| L_repeat_full r min : lang icase (RRepeat r min (Some 0)) []
| L_repeat_more r min max u v :
    max <> Some 0 ->
    lang icase r u ->
    lang icase (RRepeat r (Nat.pred min) (option_map Nat.pred max)) v ->
    lang icase (RRepeat r min max) (u ++ v)
| L_group i r u : lang icase r u -> lang icase (RGroup i r) u
| L_bol : lang icase RBol []
| L_eol : lang icase REol [].
(** What a matcher promises: when it succeeds, it has handed to its
    continuation a state that lies a text of the pattern further. *)
Definition sound (icase : bool) (r : regex) (m : matcher) : Prop :=
  forall (st : mstate) (k : mstate -> option mstate) (res : mstate),
    m st k = Some res ->
    exists (w : list ascii) (st' : mstate),
      rest st = w ++ rest st'
      /\ pos st' = pos st + length w
      /\ lang icase r w
      /\ k st' = Some res.

End RegExpSpec.

(* ================================================================== *)
(** * Facts about the embedded code *)

Section StringFacts.
Import JSString.

Lemma chars_str (l : list ascii) : chars (str l) = l.
Proof. apply list_ascii_of_string_of_list_ascii. Qed.

Lemma str_chars (s : string) : str (chars s) = s.
Proof. apply string_of_list_ascii_of_string. Qed.

Lemma chars_append (s t : string) : chars (s +:+ t) = chars s ++ chars t.
Proof. induction s as [|c s IH]; simpl; [reflexivity | now rewrite <- IH]. Qed.
End StringFacts.

(* ------------------------------------------------------------------ *)
(** ** Checksum files *)


Section HashFileFacts.
Import JSString IsoManagerHash HashFileSpec.

(** The pattern text of the first regular expression of the loop starts
    with a text in which a star follows the opening of a group. *)
Lemma parse_hashFirst (fuel : nat) (tail : list ascii) :
  RegExp.parse (20 + fuel) RegExp.GDisjunction
               (chars "^([a-fA-F0-9]{32,128})s+(?:*|s)" ++ tail) 0
  = RegExp.Err RegExp.NothingToRepeat.
Proof. lazy. reflexivity. Qed.

Lemma compile_hashFirst (tail : string) :
  RegExp.compile ("^([a-fA-F0-9]{32,128})s+(?:*|s)" +:+ tail)
  = RegExp.Err RegExp.NothingToRepeat.
Proof.
  unfold RegExp.compile. rewrite chars_append, length_app.
  set (n := length (chars tail)).
  replace (2 * (length (chars "^([a-fA-F0-9]{32,128})s+(?:*|s)") + n) + 2)%nat
    with (20 + (2 * n + 44))%nat by (simpl length; lia).
  now rewrite parse_hashFirst.
Qed.

Lemma RegExp_new_hashFirst (tail : string) :
  RegExp_new ("^([a-fA-F0-9]{32,128})s+(?:*|s)" +:+ tail) = Throw nothingToRepeat.
Proof. unfold RegExp_new. now rewrite compile_hashFirst. Qed.

Lemma template_hashFirst (subst : string) :
  template "^([a-fA-F0-9]{32,128})\s+(?:\*|\s)" subst "$"
  = Return ("^([a-fA-F0-9]{32,128})s+(?:*|s)" +:+ subst +:+ "$").
Proof. reflexivity. Qed.

(** The loop body throws on every line. *)
Lemma scanLine_throws (trimmedLine filename hashAlgorithm : string) :
  scanLine trimmedLine filename hashAlgorithm = Throw nothingToRepeat.
Proof.
  unfold scanLine. rewrite template_hashFirst.
  cbv beta iota delta [mbind completion_bind].
  now rewrite RegExp_new_hashFirst.
Qed.

(** So the function never finds a hash: it returns the empty string for
    a content without a non-blank line and throws for any other. *)
Lemma scanLines_never_finds (lines : list string) (filename hashAlgorithm : string) :
  scanLines lines filename hashAlgorithm = Return ""
  \/ scanLines lines filename hashAlgorithm = Throw nothingToRepeat.
Proof.
  induction lines as [|line lines IH]; [now left|].
  cbn [scanLines].
  destruct (negb (truthy (trim line))); [exact IH|].
  rewrite scanLine_throws. now right.
Qed.

Lemma extractHashFromFile_never_finds (fileContent filename hashAlgorithm : string) :
  extractHashFromFile fileContent filename hashAlgorithm = Return ""
  \/ extractHashFromFile fileContent filename hashAlgorithm = Throw nothingToRepeat.
Proof.
  unfold extractHashFromFile.
  destruct (negb (truthy fileContent) || negb (truthy (trim fileContent)));
    [now left | apply scanLines_never_finds].
Qed.

(** The length check of the hash-only format: what it accepts has the
    length of the table, which knows md5 and sha1 and takes 64 for
    everything else. *)
Lemma hashOnlyLine_length (trimmedLine hashAlgorithm h : string) :
  hashOnlyLine trimmedLine hashAlgorithm = Some h ->
  String.length trimmedLine = expectedLength hashAlgorithm
  /\ h = toLowerCase trimmedLine.
Proof.
  unfold hashOnlyLine.
  destruct (RegExp.test _ _ _); [|discriminate].
  destruct (Nat.eqb_spec (String.length trimmedLine) (expectedLength hashAlgorithm));
    [|discriminate].
  now intros [= <-].
Qed.

Lemma expectedLength_values (hashAlgorithm : string) :
  expectedLength hashAlgorithm
  = if String.eqb hashAlgorithm "md5" then 32%nat
    else if String.eqb hashAlgorithm "sha1" then 40%nat else 64%nat.
Proof. reflexivity. Qed.
End HashFileFacts.

(* ------------------------------------------------------------------ *)
(** ** Version comparison *)


Section VersionFacts.
Import JSString JSNumber Server VersionSpec.
Local Open Scope Z_scope.

Lemma digit_not_space (c : ascii) : isDigit c = true -> isWhiteSpace c = false.
Proof.
  unfold isDigit, isWhiteSpace, in_range, code. intros H.
  apply andb_true_iff in H as [H1 H2].
  apply Nat.leb_le in H1, H2.
  change (nat_of_ascii "0") with 48%nat in H1.
  change (nat_of_ascii "9") with 57%nat in H2.
  rewrite !nat_ascii_embedding by lia.
  apply orb_false_iff; split.
  - apply andb_false_iff. right. apply Nat.leb_gt. lia.
  - apply Nat.eqb_neq. lia.
Qed.

Lemma digit_not_dot (c : ascii) : isDigit c = true -> Ascii.eqb c DOT = false.
Proof.
  intros H. apply Ascii.eqb_neq. intros ->. discriminate H.
Qed.

Lemma dropWhile_id {A} (p : A -> bool) (l : list A) :
  match l with [] => True | x :: _ => p x = false end -> dropWhile p l = l.
Proof. destruct l as [|x l]; simpl; [reflexivity | now intros ->]. Qed.

Lemma trim_digits (l : list ascii) :
  forallb isDigit l = true -> trimChars l = l.
Proof.
  intros H. unfold trimChars.
  assert (Hl : dropWhile isWhiteSpace l = l).
  { apply dropWhile_id. destruct l as [|c l]; [exact I|].
    simpl in H. apply andb_true_iff in H as [H _]. now apply digit_not_space. }
  rewrite Hl.
  assert (Hr : dropWhile isWhiteSpace (rev l) = rev l).
  { apply dropWhile_id. destruct (rev l) as [|c r] eqn:E; [exact I|].
    apply digit_not_space.
    rewrite forallb_forall in H. apply H. apply in_rev. rewrite E. now left. }
  rewrite Hr. apply rev_involutive.
Qed.

Lemma round53_exact (n : Z) : n < 2 ^ 53 -> ofInteger n = Fin n.
Proof.
  intros H. unfold ofInteger, round53.
  assert ((n <? 2 ^ 53) = true) as -> by now apply Z.ltb_lt.
  assert ((n <? 2 ^ 1024) = true) as ->; [|reflexivity].
  apply Z.ltb_lt. eapply Z.lt_trans; [exact H|].
  apply Z.pow_lt_mono_r; lia.
Qed.

Lemma Number_exact (s : string) :
  isExact s = true -> Number s = Return (Fin (value s)).
Proof.
  unfold isExact, isNumeral, value, Number. intros H.
  apply andb_true_iff in H as [H Hv]. apply andb_true_iff in H as [Hne Hd].
  apply Z.ltb_lt in Hv.
  rewrite (trim_digits _ Hd).
  destruct (chars s) as [|c l] eqn:E.
  - destruct s; [discriminate Hne | discriminate E].
  - rewrite Hd. now rewrite round53_exact.
Qed.

Lemma mapM_Number_exact (cs : list string) :
  forallb isExact cs = true -> mapM Number cs = Return (map (fun c => Fin (value c)) cs).
Proof.
  induction cs as [|c cs IH]; simpl; [reflexivity|].
  intros H. apply andb_true_iff in H as [Hc Hcs].
  rewrite (Number_exact _ Hc). simpl. rewrite (IH Hcs). reflexivity.
Qed.

(** *** Splitting a joined list gives the list back *)

Lemma splitChars_app (sep : ascii) (c rest cur : list ascii) :
  forallb (fun x => negb (Ascii.eqb x sep)) c = true ->
  splitChars sep (c ++ rest) cur = splitChars sep rest (rev c ++ cur).
Proof.
  revert cur. induction c as [|x c IH]; intros cur H; simpl; [reflexivity|].
  simpl in H. apply andb_true_iff in H as [Hx Hc].
  apply negb_true_iff in Hx. rewrite Hx. rewrite (IH _ Hc).
  now rewrite <- app_assoc.
Qed.

Lemma numeral_no_dot (s : string) :
  isNumeral s = true -> forallb (fun x => negb (Ascii.eqb x DOT)) (chars s) = true.
Proof.
  unfold isNumeral. intros H. apply andb_true_iff in H as [_ H].
  rewrite forallb_forall in *. intros x Hx.
  apply negb_true_iff. apply digit_not_dot. now apply H.
Qed.

Lemma split_joinWith (cs : list string) :
  cs <> [] -> forallb isNumeral cs = true -> split DOT (joinWith "." cs) = cs.
Proof.
  unfold split. induction cs as [|c cs IH]; [congruence|].
  intros _ H. simpl in H. apply andb_true_iff in H as [Hc Hcs].
  destruct cs as [|c' cs].
  - simpl. rewrite <- (app_nil_r (chars c)).
    rewrite splitChars_app by now apply numeral_no_dot.
    simpl. rewrite app_nil_r, rev_involutive, str_chars. reflexivity.
  - change (joinWith "." (c :: c' :: cs)) with (c +:+ "." +:+ joinWith "." (c' :: cs)).
    rewrite !chars_append.
    rewrite splitChars_app by now apply numeral_no_dot.
    simpl. rewrite app_nil_r, rev_involutive, str_chars.
    f_equal. apply IH; [congruence | exact Hcs].
Qed.

(** *** The loop computes the comparison *)

Lemma compareLoop_shift (n i : nat) (x y : number) (p1 p2 : list number) :
  compareLoop (x :: p1) (y :: p2) (S i) n = compareLoop p1 p2 i n.
Proof.
  revert i. induction n as [|n IH]; intros i; simpl; [reflexivity|].
  rewrite IH. reflexivity.
Qed.

Lemma compareLoop_shift_l (n i : nat) (x : number) (p1 : list number) :
  compareLoop (x :: p1) [] (S i) n = compareLoop p1 [] i n.
Proof.
  revert i. induction n as [|n IH]; intros i; simpl; [reflexivity|].
  rewrite IH. reflexivity.
Qed.

Lemma compareLoop_shift_r (n i : nat) (y : number) (p2 : list number) :
  compareLoop [] (y :: p2) (S i) n = compareLoop [] p2 i n.
Proof.
  revert i. induction n as [|n IH]; intros i; simpl; [reflexivity|].
  rewrite IH. reflexivity.
Qed.

Lemma compareLoop_zeros (l2 : list Z) :
  compareLoop [] (map Fin l2) 0 (length l2) = compareZeros l2.
Proof.
  induction l2 as [|y l2 IH]; simpl; [reflexivity|].
  unfold lt. simpl.
  rewrite compareLoop_shift_r, IH. reflexivity.
Qed.

Lemma compareLoop_zeros_more (l1 : list Z) :
  compareLoop (map Fin l1) [] 0 (length l1) = compareNumeric l1 [].
Proof.
  induction l1 as [|x l1 IH]; simpl; [reflexivity|].
  unfold lt. simpl.
  rewrite compareLoop_shift_l, IH. reflexivity.
Qed.

Lemma compareLoop_numeric (l1 l2 : list Z) :
  compareLoop (map Fin l1) (map Fin l2) 0 (Nat.max (length l1) (length l2))
  = compareNumeric l1 l2.
Proof.
  revert l2. induction l1 as [|x l1 IH]; intros l2.
  - simpl. apply compareLoop_zeros.
  - destruct l2 as [|y l2].
    + rewrite Nat.max_0_r. apply compareLoop_zeros_more.
    + simpl. unfold lt. simpl.
      rewrite compareLoop_shift, IH. reflexivity.
Qed.

End VersionFacts.

(* ------------------------------------------------------------------ *)
(** ** The archive catalog *)


Section CatalogFacts.
Import Server CatalogSpec.
Context {A : Type}.
Implicit Types (p q : A -> bool) (l : list A).

Lemma findIndex_Some p l i :
  findIndex p l = Some i ->
  exists x, l !! i = Some x /\ p x = true /\ List.filter p (take i l) = [].
Proof.
  revert i. induction l as [|a l IH]; intros i; simpl; [discriminate|].
  destruct (p a) eqn:Ea.
  - intros [= <-]. exists a. simpl. auto.
  - destruct (findIndex p l) as [j|]; [|discriminate].
    intros [= <-]. destruct (IH j eq_refl) as (x & Hx & Hp & Hf).
    exists x. simpl. rewrite Ea. auto.
Qed.

Lemma findIndex_None p l : findIndex p l = None -> List.filter p l = [].
Proof.
  induction l as [|a l IH]; simpl; [reflexivity|].
  destruct (p a); [discriminate|].
  destruct (findIndex p l); [discriminate | auto].
Qed.


Lemma filter_split p l i x :
  l !! i = Some x ->
  List.filter p l
  = List.filter p (take i l) ++ (if p x then [x] else []) ++ List.filter p (drop (S i) l).
Proof.
  intros H. rewrite <- (take_drop_middle l i x H) at 1.
  rewrite List.filter_app. simpl. now destruct (p x).
Qed.

Lemma filter_insert p l i x y :
  l !! i = Some x ->
  List.filter p (<[i := y]> l)
  = List.filter p (take i l) ++ (if p y then [y] else []) ++ List.filter p (drop (S i) l).
Proof.
  intros H. rewrite insert_take_drop by (eapply lookup_lt_Some; eauto).
  rewrite List.filter_app. simpl. now destruct (p y).
Qed.

(** Replacing an entry by one that a predicate treats alike leaves the
    selection by that predicate alone. *)
Lemma filter_insert_false p l i x y :
  l !! i = Some x -> p x = false -> p y = false ->
  List.filter p (<[i := y]> l) = List.filter p l.
Proof.
  intros H Hx Hy.
  rewrite (filter_insert _ _ _ _ _ H), (filter_split _ _ _ _ H), Hx, Hy.
  reflexivity.
Qed.

Lemma filter_nil_sub p l i : List.filter p l = [] -> List.filter p (take i l) = []
                                                   /\ List.filter p (drop i l) = [].
Proof.
  intros H. rewrite <- (take_drop i l), List.filter_app in H.
  now apply app_eq_nil in H.
Qed.

(** Replacing the only selected entry. *)
Lemma filter_insert_only p l i x y :
  l !! i = Some x -> p x = true -> p y = true ->
  (length (List.filter p l) <= 1)%nat ->
  List.filter p (<[i := y]> l) = [y].
Proof.
  intros H Hx Hy Hc.
  rewrite (filter_split _ _ _ _ H), Hx in Hc.
  rewrite (filter_insert _ _ _ _ _ H), Hy.
  rewrite !length_app in Hc. simpl in Hc.
  destruct (List.filter p (take i l)); [|simpl in Hc; lia].
  destruct (List.filter p (drop (S i) l)); [reflexivity | simpl in Hc; lia].
Qed.

(** Replacing an entry that is not selected by a selected one, none
    being selected before. *)
Lemma filter_insert_new p l i x y :
  l !! i = Some x -> p y = true -> List.filter p l = [] ->
  List.filter p (<[i := y]> l) = [y].
Proof.
  intros H Hy Hn.
  rewrite (filter_insert _ _ _ _ _ H), Hy.
  destruct (filter_nil_sub p l i Hn) as [-> _].
  destruct (filter_nil_sub p l (S i) Hn) as [_ ->]. reflexivity.
Qed.


Lemma filter_idem p l : List.filter p (List.filter p l) = List.filter p l.
Proof.
  induction l as [|a l IH]; simpl; [reflexivity|].
  destruct (p a) eqn:E; simpl; [rewrite E; now f_equal | exact IH].
Qed.
End CatalogFacts.

Section AddFacts.
Import JSString Server CatalogSpec.

Lemma isoData_filename now iso f h s : hasFilename f (isoData now iso f h s) = true.
Proof. unfold hasFilename. simpl. apply String.eqb_refl. Qed.

(** One call of [addIsoToJson] on a catalog with at most one entry for
    the file name. *)
Lemma addIsoToJson_once now iso f h s c isos :
  readIsos c = Some isos ->
  (length (List.filter (hasFilename f) isos) <= 1)%nat ->
  exists isos',
    addIsoToJson now iso f h s c = Return (Doc (Some isos'))
    /\ List.filter (hasFilename f) isos' = [isoData now iso f h s]
    /\ List.filter (unrelated f (iso_name iso)) isos'
       = List.filter (unrelated f (iso_name iso)) isos.
Proof.
  intros Hc Hone. unfold addIsoToJson. rewrite Hc.
  pose proof (isoData_filename now iso f h s) as Hd.
  assert (Hu : unrelated f (iso_name iso) (isoData now iso f h s) = false).
  { unfold unrelated. now rewrite Hd. }
  change (findIndex (fun item => String.eqb (filename item) f) isos)
    with (findIndex (hasFilename f) isos).
  destruct (findIndex (hasFilename f) isos) as [i|] eqn:E1.
  - destruct (findIndex_Some _ _ _ E1) as (x & Hx & Hp & _).
    eexists; split; [reflexivity|]. split.
    + now apply (filter_insert_only _ _ _ x).
    + apply (filter_insert_false _ _ _ x); [assumption | | assumption].
      unfold unrelated. now rewrite Hp.
  - apply findIndex_None in E1.
    destruct (findIndex _ isos) as [j|] eqn:E2.
    + destruct (findIndex_Some _ _ _ E2) as (x & Hx & Hq & _).
      eexists; split; [reflexivity|]. split.
      * now apply (filter_insert_new _ _ _ x).
      * apply (filter_insert_false _ _ _ x); [assumption | | assumption].
        unfold unrelated. rewrite Hq. now rewrite andb_false_r.
    + eexists; split; [reflexivity|]. split.
      * rewrite List.filter_app, E1. simpl. now rewrite Hd.
      * rewrite List.filter_app. simpl. rewrite Hu. now rewrite app_nil_r.
Qed.



End AddFacts.

(* ------------------------------------------------------------------ *)
(** ** Update detection *)


Section UpdateFacts.
Import JSString Server UpdateSpec.
Local Open Scope Z_scope.

Lemma truthy_true (s : string) : truthy s = true <-> s <> "".
Proof.
  unfold truthy. rewrite negb_true_iff. split.
  - intros H ->. discriminate.
  - intros H. now apply String.eqb_neq.
Qed.

Lemma truthyOpt_Some (v : option string) (s : string) :
  truthyOpt v = Some s <-> present v s.
Proof.
  unfold truthyOpt, present. destruct v as [x|]; [|split; [discriminate | intros [? _]; discriminate]].
  destruct (truthy x) eqn:E.
  - apply truthy_true in E. split; [intros [= <-]; auto | intros [[= <-] _]; reflexivity].
  - split; [discriminate|]. intros [[= <-] H]. apply truthy_true in H. congruence.
Qed.

Lemma truthyOpt_None (v : option string) : truthyOpt v = None <-> absent v.
Proof.
  unfold truthyOpt, absent. destruct v as [x|]; [|tauto].
  destruct (truthy x) eqn:E.
  - apply truthy_true in E. split; [discriminate|]. intros [H|[= ->]]; congruence.
  - split; [|reflexivity]. intros _. right. f_equal.
    destruct (String.eqb_spec x ""); [assumption|].
    apply truthy_true in n. congruence.
Qed.

Lemma versionsDiffer_Some av nv a n :
  versionsDiffer av nv = Some (a, n) <-> present av a /\ present nv n /\ a <> n.
Proof.
  unfold versionsDiffer.
  destruct (truthyOpt av) as [x|] eqn:Ea; destruct (truthyOpt nv) as [y|] eqn:En.
  - apply truthyOpt_Some in Ea, En. destruct (String.eqb_spec x y) as [->|Hxy].
    + split; [discriminate|]. intros ([Hx _] & [Hy _] & Hn).
      destruct Ea as [Ea _], En as [En _]. congruence.
    + split.
      * intros [= <- <-]. auto.
      * intros ([Hx _] & [Hy _] & _). destruct Ea as [Ea _], En as [En _]. congruence.
  - split; [discriminate|]. intros (_ & Hy & _). apply truthyOpt_Some in Hy. congruence.
  - split; [discriminate|]. intros (Hx & _ & _). apply truthyOpt_Some in Hx. congruence.
  - split; [discriminate|]. intros (Hx & _ & _). apply truthyOpt_Some in Hx. congruence.
Qed.

Lemma versionsDiffer_None av nv :
  versionsDiffer av nv = None
  <-> absent av \/ absent nv \/ exists s, present av s /\ present nv s.
Proof.
  unfold versionsDiffer.
  destruct (truthyOpt av) as [x|] eqn:Ea; destruct (truthyOpt nv) as [y|] eqn:En.
  - pose proof Ea as Ea'. pose proof En as En'.
    apply truthyOpt_Some in Ea', En'. destruct (String.eqb_spec x y) as [->|Hxy].
    + split; [|reflexivity]. intros _. right. right. eauto.
    + split; [discriminate|]. intros [H|[H|(s & H1 & H2)]].
      * apply truthyOpt_None in H. congruence.
      * apply truthyOpt_None in H. congruence.
      * apply truthyOpt_Some in H1, H2. congruence.
  - split; [|reflexivity]. intros _. right. left. now apply truthyOpt_None.
  - split; [|reflexivity]. intros _. left. now apply truthyOpt_None.
  - split; [|reflexivity]. intros _. left. now apply truthyOpt_None.
Qed.

Lemma truthyNum_true z : truthyNum z = true <-> z <> 0.
Proof. unfold truthyNum. rewrite negb_true_iff. apply Z.eqb_neq. Qed.

Lemma sizeCheck_true (a b : Z) :
  truthyNum a && truthyNum b && (1024 * 1024 <? Z.abs (a - b)) = true
  <-> sizesDiffer a b.
Proof.
  unfold sizesDiffer. rewrite !andb_true_iff, !truthyNum_true, Z.ltb_lt. tauto.
Qed.

(** [Number] and [compareVersions] always return. *)
Lemma Number_returns (s : string) : exists n, JSNumber.Number s = Return n.
Proof.
  unfold JSNumber.Number. destruct (trimChars (chars s)) as [|c t]; [eauto|].
  destruct (forallb isDigit (c :: t)); eauto.
Qed.

Lemma mapM_returns {A B} (f : A -> completion B) (l : list A) :
  (forall x, exists y, f x = Return y) -> exists ys, mapM f l = Return ys.
Proof.
  intros Hf. induction l as [|x l [ys IH]]; simpl; [eauto|].
  destruct (Hf x) as [y ->]. simpl. rewrite IH. simpl. eauto.
Qed.

Lemma compareVersions_returns (v1 v2 : string) :
  exists c, compareVersions v1 v2 = Return c.
Proof.
  unfold compareVersions.
  destruct (mapM_returns JSNumber.Number (split DOT v1) Number_returns) as [p1 ->].
  destruct (mapM_returns JSNumber.Number (split DOT v2) Number_returns) as [p2 ->].
  simpl. eauto.
Qed.

(** The check against a catalog record. *)
Lemma checkWithMetadata_true d isoFilename r :
  checkWithMetadata d isoFilename r = Return true
  <-> flagged d isoFilename "" (Some r) false 0.
Proof.
  unfold checkWithMetadata, flagged. fold (listingVersion d isoFilename).
  destruct (versionsDiffer (version r) (listingVersion d isoFilename)) as [[a n]|] eqn:E.
  - pose proof E as E'. apply versionsDiffer_Some in E' as (Ha & Hn & Hne).
    split.
    + intros H. left. exists a, n.
      split; [exact Ha | split; [exact Hn | split; [exact Hne|]]].
      destruct (compareVersions n a) as [c| |] eqn:Ec; simpl in H; try discriminate.
      exists c. split; [exact Ec|]. injection H as H. now apply Z.ltb_lt.
    + intros [(a' & n' & Ha' & Hn' & _ & c & Hc & Hpos)|[H _]].
      * destruct Ha as [Ha _], Ha' as [Ha' _], Hn as [Hn _], Hn' as [Hn' _].
        assert (a' = a) by congruence. assert (n' = n) by congruence. subst.
        rewrite Hc. simpl. f_equal. now apply Z.ltb_lt.
      * apply versionsDiffer_None in H. congruence.
  - pose proof E as E'. apply versionsDiffer_None in E'.
    split.
    + intros [= H]. right. split; [exact E'|]. now apply sizeCheck_true.
    + intros [(a & n & Ha & Hn & Hne & _)|[_ H]].
      * assert (versionsDiffer (version r) (listingVersion d isoFilename) = Some (a, n))
          by now apply versionsDiffer_Some.
        congruence.
      * f_equal. now apply sizeCheck_true.
Qed.

Lemma bySize_true (a b : Z) :
  truthyNum a && negb (b =? a) = true <-> sizeChanged a b.
Proof.
  unfold sizeChanged. rewrite andb_true_iff, truthyNum_true, negb_true_iff, Z.eqb_neq.
  tauto.
Qed.

(** The check without a catalog record. *)
Lemma checkWithoutMetadata_true d isoFilename file exactMatch diskSize :
  checkWithoutMetadata d isoFilename file exactMatch diskSize = Return true
  <-> flagged d isoFilename file None exactMatch diskSize.
Proof.
  unfold checkWithoutMetadata, flagged. fold (listingVersion d isoFilename).
  set (bySize := truthyNum (d_size d) && negb (diskSize =? d_size d)).
  assert (HbS : bySize = true <-> sizeChanged (d_size d) diskSize) by apply bySize_true.
  destruct (truthy (d_version d) && negb exactMatch) eqn:Econd.
  - apply andb_true_iff in Econd as [Hv Hex].
    apply truthy_true in Hv. apply negb_true_iff in Hex.
    destruct (versionsDiffer (extractVersionFromFilename file)
                             (listingVersion d isoFilename))
      as [[a n]|] eqn:E.
    + pose proof E as E'. apply versionsDiffer_Some in E' as (Ha & Hn & Hne).
      assert (Hc : namesCompared d isoFilename file exactMatch a n)
        by (unfold namesCompared; tauto).
      destruct (compareVersions_returns n a) as [c Ec]. rewrite Ec. simpl.
      split.
      * intros [= H]. apply orb_true_iff in H as [H|H].
        -- left. now apply HbS.
        -- right. exists a, n. split; [exact Hc|].
           exists c. split; [exact Ec | now apply Z.ltb_lt].
      * intros [H|(a' & n' & Hc' & c' & Hcv & Hpos)]; f_equal; apply orb_true_iff.
        -- left. now apply HbS.
        -- destruct Hc' as (_ & _ & [Ha' _] & [Hn' _] & _).
           destruct Ha as [Ha _], Hn as [Hn _].
           assert (a' = a) by congruence. assert (n' = n) by congruence. subst.
           right. apply Z.ltb_lt. congruence.
    + assert (Hno : forall a n, ~ namesCompared d isoFilename file exactMatch a n).
      { intros a n (_ & _ & Ha & Hn & Hne).
        assert (versionsDiffer (extractVersionFromFilename file)
                               (listingVersion d isoFilename)
                = Some (a, n)) by now apply versionsDiffer_Some.
        congruence. }
      split.
      * intros [= H]. left. now apply HbS.
      * intros [H|(a & n & Hc & _)]; [|exfalso; now apply (Hno a n)].
        f_equal. now apply HbS.
  - assert (Hno : forall a n, ~ namesCompared d isoFilename file exactMatch a n).
    { intros a n (Hv & Hex & _).
      apply andb_false_iff in Econd as [E|E].
      - apply truthy_true in Hv. congruence.
      - rewrite Hex in E. discriminate. }
    split.
    + intros [= H]. left. now apply HbS.
    + intros [H|(a & n & Hc & _)]; [|exfalso; now apply (Hno a n)].
      f_equal. now apply HbS.
Qed.

(** Both checks return. *)
Lemma checkWithMetadata_returns d isoFilename r :
  exists b, checkWithMetadata d isoFilename r = Return b.
Proof.
  unfold checkWithMetadata.
  destruct (versionsDiffer _ _) as [[a n]|]; [|eauto].
  destruct (compareVersions_returns n a) as [c ->]. simpl. eauto.
Qed.

Lemma checkWithoutMetadata_returns d isoFilename file exactMatch diskSize :
  exists b, checkWithoutMetadata d isoFilename file exactMatch diskSize = Return b.
Proof.
  unfold checkWithoutMetadata.
  destruct (truthy (d_version d) && negb exactMatch); [|eauto].
  destruct (versionsDiffer _ _) as [[a n]|]; [|eauto].
  destruct (compareVersions_returns n a) as [c ->]. simpl. eauto.
Qed.

(** [updateCheck]: it throws when the matched file cannot be examined,
    and else it returns what the rule asks for. *)
Lemma updateCheck_rule d isoFilename matchedFile record exactMatch statSize :
  match updateCheck d isoFilename matchedFile record exactMatch statSize with
  | Return b =>
      (forall file, present matchedFile file -> exists diskSize, statSize file = Some diskSize)
      /\ (b = true
          <-> exists file diskSize,
              present matchedFile file /\ statSize file = Some diskSize
              /\ flagged d isoFilename file record exactMatch diskSize)
  | Throw _ => exists file, present matchedFile file /\ statSize file = None
  | Unmodelled => False
  end.
Proof.
  unfold updateCheck.
  destruct (truthyOpt matchedFile) as [file|] eqn:E.
  - pose proof E as Hp. apply truthyOpt_Some in Hp.
    assert (Hfile : forall file', present matchedFile file' -> file' = file).
    { intros file' [H _]. destruct Hp as [H' _]. congruence. }
    destruct (statSize file) as [diskSize|] eqn:Es; [|now exists file].
    assert (Hrule : forall b,
               (b = true <-> flagged d isoFilename file record exactMatch diskSize) ->
               (forall file', present matchedFile file' ->
                              exists diskSize', statSize file' = Some diskSize')
               /\ (b = true
                   <-> exists file' diskSize',
                       present matchedFile file' /\ statSize file' = Some diskSize'
                       /\ flagged d isoFilename file' record exactMatch diskSize')).
    { intros b Hb. split.
      - intros file' Hf. rewrite (Hfile _ Hf). eauto.
      - rewrite Hb. split.
        + intros H. exists file, diskSize. auto.
        + intros (file' & diskSize' & Hf & Hs & H).
          rewrite (Hfile _ Hf) in Hs, H. congruence. }
    destruct record as [r|].
    + destruct (checkWithMetadata_returns d isoFilename r) as [b Eb]. rewrite Eb.
      apply Hrule. rewrite <- (checkWithMetadata_true d isoFilename r), Eb.
      split; congruence.
    + destruct (checkWithoutMetadata_returns d isoFilename file exactMatch diskSize)
        as [b Eb]. rewrite Eb.
      apply Hrule.
      rewrite <- (checkWithoutMetadata_true d isoFilename file exactMatch diskSize), Eb.
      split; congruence.
  - split.
    + intros file Hf. apply truthyOpt_Some in Hf. congruence.
    + split; [discriminate|]. intros (file & _ & Hf & _).
      apply truthyOpt_Some in Hf. congruence.
Qed.

Section MarkingFacts.
Variable URL_pathname : string -> option string.

(** The body of the loop for one entry: it throws exactly when the
    entry cannot be examined; and else the entry comes back with its
    name, and flagged exactly when the rule asks for it. *)
Lemma markEntry_rule files isos statSize (entry : string * Details) :
  match markEntry URL_pathname files isos statSize (fst entry) (snd entry) with
  | Return d' =>
      examined URL_pathname files isos statSize entry
      /\ (d_updateAvailable d' = true
          <-> updateDue URL_pathname (Some files) statSize (Doc (Some isos)) entry)
  | Throw _ => ~ examined URL_pathname files isos statSize entry
  | Unmodelled => False
  end.
Proof.
  unfold markEntry, examined, updateDue.
  destruct (URL_pathname (d_url (snd entry))) as [pathname|] eqn:Eu;
    [|intros (pathname & H & _); discriminate].
  cbv zeta.
  destruct (locate files isos (fst entry) (Path.basename pathname))
    as [[matchedFile record] exactMatch] eqn:El.
  pose proof (updateCheck_rule (snd entry) (Path.basename pathname) matchedFile record
                               exactMatch statSize) as Hrule.
  destruct (updateCheck (snd entry) (Path.basename pathname) matchedFile record
                        exactMatch statSize) as [b|e|]; cbn [mbind completion_bind].
  - destruct Hrule as [Hex Hb]. split.
    + exists pathname. split; [reflexivity|]. rewrite El. exact Hex.
    + cbn [d_updateAvailable]. rewrite Hb. split.
      * intros (file & diskSize & Hf & Hs & H).
        exists files, isos, pathname, matchedFile, record, exactMatch, file, diskSize.
        repeat split; auto; apply Hf.
      * intros (files' & isos' & pathname' & m' & r' & x' & file & diskSize
                & [= <-] & [= <-] & [= <-] & Hl & Hf & Hs & H).
        rewrite El in Hl. injection Hl as <- <- <-.
        exists file, diskSize. auto.
  - destruct Hrule as (file & Hf & Hs).
    intros (pathname' & [= <-] & Hex). rewrite El in Hex.
    destruct (Hex file Hf) as [diskSize Hd]. congruence.
  - exact Hrule.
Qed.

(** The pass over the listing. *)
Lemma markEntries_rule files isos statSize (isoList : list (string * Details)) :
  match mapM (fun entry =>
                d ← markEntry URL_pathname files isos statSize (fst entry) (snd entry);
                Return (fst entry, d)) isoList with
  | Return marked =>
      Forall (examined URL_pathname files isos statSize) isoList
      /\ Forall2 (fun e o =>
                    fst o = fst e
                    /\ (d_updateAvailable (snd o) = true
                        <-> updateDue URL_pathname (Some files) statSize
                                      (Doc (Some isos)) e))
                 isoList marked
  | Throw _ => ~ Forall (examined URL_pathname files isos statSize) isoList
  | Unmodelled => False
  end.
Proof.
  induction isoList as [|entry isoList IH]; cbn [mapM]; [split; constructor|].
  pose proof (markEntry_rule files isos statSize entry) as He.
  destruct (markEntry URL_pathname files isos statSize (fst entry) (snd entry))
    as [d'|e|]; cbn [mbind completion_bind].
  - destruct He as [Hex Hd].
    destruct (mapM _ isoList) as [marked|e|]; cbn [mbind completion_bind].
    + destruct IH as [Hall Hmarked]. split; [now constructor|].
      constructor; [|exact Hmarked]. split; [reflexivity | exact Hd].
    + intros H. apply IH. now inversion H.
    + exact IH.
  - intros H. apply He. now inversion H.
  - exact He.
Qed.
End MarkingFacts.

End UpdateFacts.

(* ------------------------------------------------------------------ *)
(** ** Downloads *)


Section DownloaderFacts.
Import JSString Net FS Downloader DownloadSpec.
Variable digestHex : string -> option (list Byte.byte -> string).
Variable getThrows : string -> option js_error.



End DownloaderFacts.

Section IsoManagerFacts.
Import JSString Net FS IsoManager DownloadSpec.
Variable URL_resolve : string -> string -> option string.

(** [followRedirects] has no rejection for a chain that is too long:
    whatever the exchanges, it resolves, stays pending, or fails on a
    location that is no URL. *)
Lemma followLoop_outcomes (n : nat) :
  forall (net : list exchange) (url : string),
    match fst (followLoop URL_resolve net url n) with
    | Resolved _ | Pending => True
    | Rejected e => e = TypeError "Invalid URL"
    | Uncaught _ => False
    end.
Proof.
  induction n as [|n IH]; intros net url; simpl; [exact I|].
  destruct net as [|[m| |r chunks e] net]; simpl; try exact I.
  destruct ((statusCode r =? 301) || (statusCode r =? 302))%Z; [|exact I].
  destruct (URL_resolve (locationText r) url); [apply IH | reflexivity].
Qed.

(** After [n] answers 301 or 302 the loop of [n] iterations resolves
    with the location of the last of them, whatever that URL answers. *)
Lemma followLoop_chain (chain : list exchange) :
  (forall t u, URL_resolve t u = Some t) ->
  forall (net : list exchange) (url : string),
    forallb isMoved chain = true ->
    exists final,
      followLoop URL_resolve (chain ++ net) url (length chain) = (Resolved final, net).
Proof.
  intros Habs. induction chain as [|x chain IH]; intros net url H; simpl.
  - now exists url.
  - simpl in H. apply andb_true_iff in H as [Hx H].
    destruct x as [m| |r chunks e]; try discriminate.
    simpl in Hx. rewrite Hx, Habs. apply (IH _ _ H).
Qed.

(** [fetchData] rejects a chain longer than the limit. *)
Lemma fetchData_too_many (redirects : list exchange) :
  (forall t u, exists v, URL_resolve t u = Some v) ->
  forall (net : list exchange) (url : string) (maxRedirects : Z),
    forallb isRedirect redirects = true ->
    (0 <= maxRedirects < Z.of_nat (length redirects))%Z ->
    fetchData URL_resolve (redirects ++ net) url maxRedirects
    = Rejected (Error "Too many redirects").
Proof.
  intros Htot. induction redirects as [|x redirects IH]; intros net url m H Hm;
    simpl in *; [lia|].
  apply andb_true_iff in H as [Hx H].
  destruct x as [msg| |r chunks e]; try discriminate.
  simpl in Hx. destruct (redirectsTo r) as [target|]; [|discriminate].
  destruct (m <=? 0)%Z eqn:Em; [reflexivity|].
  apply Z.leb_gt in Em.
  destruct (Htot target url) as [v ->].
  apply IH; [exact H | lia].
Qed.
End IsoManagerFacts.

(* ------------------------------------------------------------------ *)
(** ** Deleting and verifying *)

Section FileSystemFacts.
Import FS.

(** Writing at a path takes nothing away. *)
Lemma insert_keeps (m : filesystem) (k p : string) (v : node) :
  is_Some (m !! p) -> is_Some (<[k := v]> m !! p).
Proof.
  intros H. destruct (decide (k = p)) as [->|Hne].
  - rewrite lookup_insert_eq. eauto.
  - now rewrite lookup_insert_ne.
Qed.
End FileSystemFacts.

Section DeleteFacts.
Import JSString FS ServerDelete.
Variable JSON_parse : list Byte.byte -> option (option (list Server.IsoRecord)).
Variable JSON_stringify : list Server.IsoRecord -> list Byte.byte.
Variable configIsoArchive : string.


Lemma writeIsosJson_keeps (fs0 : filesystem) (isos : list Server.IsoRecord)
      (q : string) :
  is_Some (fs0 !! q) ->
  is_Some (writeIsosJson JSON_stringify configIsoArchive fs0 isos !! q).
Proof.
  intros Hq. unfold writeIsosJson.
  destruct (fs0 !! configIsoArchive) as [[content|]|] eqn:Ed; [exact Hq| |].
  - destruct (fs0 !! isosJsonPath configIsoArchive) as [[c|]|];
      try exact Hq; now apply insert_keeps.
  - destruct (<[configIsoArchive := Directory]> fs0 !! isosJsonPath configIsoArchive)
      as [[c|]|];
      repeat apply insert_keeps; exact Hq.
Qed.


Lemma removeIsoFromJson_keeps (filename : string) (fs0 : filesystem) (q : string) :
  is_Some (fs0 !! q) ->
  is_Some (removeIsoFromJson JSON_parse JSON_stringify configIsoArchive filename fs0
             !! q).
Proof.
  intros Hq. unfold removeIsoFromJson.
  destruct (Server.removeIsoFromJson
              filename (readIsosJson JSON_parse configIsoArchive fs0))
    as [[| |[isos|]]| |]; try exact Hq.
  now apply writeIsosJson_keeps.
Qed.



(** What the route does: nothing, unless the answer is 200; and then it
    has unlinked a file of the archive directory and gone through the
    catalog. *)
Lemma deleteRoute_cases (dirname : string) (isoArchive : option string)
      (filenameToDelete : string) (fs0 fs1 : filesystem) (code : Z) :
  deleteRoute JSON_parse JSON_stringify configIsoArchive
              dirname isoArchive filenameToDelete fs0 = (code, fs1) ->
  (code <> 200%Z /\ fs1 = fs0)
  \/ exists archivePath content,
      code = 200%Z
      /\ truthy filenameToDelete = true
      /\ truthyOpt isoArchive = Some archivePath
      /\ startsWith (Path.join (resolveArchivePath dirname archivePath)
                               (Path.basename filenameToDelete))
                    (resolveArchivePath dirname archivePath +:+ "/") = true
      /\ fs0 !! Path.join (resolveArchivePath dirname archivePath)
                          (Path.basename filenameToDelete) = Some (File content)
      /\ fs1 = removeIsoFromJson
                 JSON_parse JSON_stringify configIsoArchive filenameToDelete
                 (delete (Path.join (resolveArchivePath dirname archivePath)
                                    (Path.basename filenameToDelete)) fs0).
Proof.
  unfold deleteRoute.
  destruct (truthy filenameToDelete) eqn:Hf; cbn [negb];
    [|intros [= <- <-]; left; split; [discriminate | reflexivity]].
  destruct (truthyOpt isoArchive) as [archivePath|];
    [|intros [= <- <-]; left; split; [discriminate | reflexivity]].
  set (resolved := resolveArchivePath dirname archivePath).
  set (p := Path.join resolved (Path.basename filenameToDelete)).
  destruct (startsWith p (resolved +:+ "/")) eqn:Hin; cbn [negb];
    [|intros [= <- <-]; left; split; [discriminate | reflexivity]].
  unfold existsSync, unlinkSync.
  destruct (fs0 !! p) as [[content|]|] eqn:Ep; cbn [negb];
    try (intros [= <- <-]; left; split; [discriminate | reflexivity]).
  intros [= <- <-]. right. exists archivePath, content. repeat split; auto.
Qed.

(** The route of the web server never deletes outside the archive
    directory: a path that has lost what it held lies in it. *)
Lemma deleteRoute_inside (dirname : string) (isoArchive : option string)
      (filenameToDelete : string) (fs0 fs1 : filesystem) (code : Z) (q : string) :
  deleteRoute JSON_parse JSON_stringify configIsoArchive
              dirname isoArchive filenameToDelete fs0 = (code, fs1) ->
  is_Some (fs0 !! q) -> fs1 !! q = None ->
  exists archivePath,
    truthyOpt isoArchive = Some archivePath
    /\ startsWith q (resolveArchivePath dirname archivePath +:+ "/") = true.
Proof.
  intros H Hq Hgone.
  destruct (deleteRoute_cases _ _ _ _ _ _ H)
    as [[_ ->]|(archivePath & content & _ & _ & Ha & Hin & Hp & ->)].
  - rewrite Hgone in Hq. now destruct Hq.
  - exists archivePath. split; [exact Ha|].
    destruct (decide (q = Path.join (resolveArchivePath dirname archivePath)
                                    (Path.basename filenameToDelete))) as [->|Hne];
      [exact Hin|].
    exfalso.
    assert (Hk : is_Some (delete (Path.join (resolveArchivePath dirname archivePath)
                                            (Path.basename filenameToDelete)) fs0 !! q))
      by now rewrite lookup_delete_ne.
    apply (removeIsoFromJson_keeps filenameToDelete) in Hk.
    rewrite Hgone in Hk. now destruct Hk.
Qed.
End DeleteFacts.


Section SiblingFacts.
Import JSString FS HashFileSpec Examples.

(** The function of the same name in iso-hash-verifier.js reads the
    coreutils line, whatever [JSON.parse] is. *)
Lemma verifier_reads_checksum_line (JSON_parse : string -> option IsoHashVerifier.json) :
  IsoHashVerifier.extractHashFromFile
    JSON_parse (digest64 +:+ "  ubuntu-22.04.iso") "ubuntu-22.04.iso" "sha256"
  = Return (IsoHashVerifier.VString digest64lower).
Proof. vm_compute. reflexivity. Qed.

(** It does not look at the length of a hash that stands alone. *)
Lemma verifier_accepts_any_length (JSON_parse : string -> option IsoHashVerifier.json) :
  JSON_parse "abc" = None ->
  IsoHashVerifier.extractHashFromFile JSON_parse "abc" "ubuntu-22.04.iso" "sha256"
  = Return (IsoHashVerifier.VString "abc").
Proof.
  intros H. unfold IsoHashVerifier.extractHashFromFile, IsoHashVerifier.fromJson.
  rewrite H. vm_compute. reflexivity.
Qed.

(** The command-line tool turns down the file name of the
    specification's example, whatever the state. *)
Lemma deleteArchiveIso_refuses_etc_passwd (st : state) :
  Cli.deleteArchiveIso "/data" None "../../etc/passwd" st = (Cli.Exited 1, st).
Proof. reflexivity. Qed.

(** The route of the web server keeps the last segment of that name and
    deletes the file of this name in the archive; the catalog is written
    on the way. *)
Lemma deleteRoute_etc_passwd
      (JSON_parse : list Byte.byte -> option (option (list Server.IsoRecord)))
      (JSON_stringify : list Server.IsoRecord -> list Byte.byte) :
  ServerDelete.deleteRoute JSON_parse JSON_stringify "/srv/ISO-Archive"
                           "/srv/iso-manager-web" (Some "ISO-Archive")
                           "../../etc/passwd" archiveWithPasswd
  = (200%Z, {[ "/srv/ISO-Archive" := Directory;
               "/srv/ISO-Archive/isos.json" := File (JSON_stringify []) ]}).
Proof. vm_compute. reflexivity. Qed.

(** Asked to delete isos.json, the route unlinks the catalog and writes
    it again without any entry, whatever it held. *)
Lemma deleteRoute_catalog_itself
      (JSON_parse : list Byte.byte -> option (option (list Server.IsoRecord)))
      (JSON_stringify : list Server.IsoRecord -> list Byte.byte)
      (content : list Byte.byte) :
  ServerDelete.deleteRoute JSON_parse JSON_stringify "/srv/ISO-Archive"
                           "/srv/iso-manager-web" (Some "ISO-Archive") "isos.json"
                           {[ "/srv/ISO-Archive" := Directory;
                              "/srv/ISO-Archive/isos.json" := File content ]}
  = (200%Z, {[ "/srv/ISO-Archive" := Directory;
               "/srv/ISO-Archive/isos.json" := File (JSON_stringify []) ]}).
Proof. vm_compute. reflexivity. Qed.
End SiblingFacts.

Section Evaluations.
Import JSString HashFileSpec.

(** The embedded functions on inputs whose results are known. *)

Example escapeRegExp_dots :
  IsoManagerHash.escapeRegExp "ubuntu-22.04.iso" = "ubuntu-22\.04\.iso".
Proof. vm_compute. reflexivity. Qed.

(** Had the backslashes reached the constructor (the text with the escapes
    kept), the pattern would be accepted and would read the hash off the
    line. *)
Example pattern_with_escapes_kept :
  match RegExp_new ("^([a-fA-F0-9]{32,128})\s+(?:\*|\s)"
                      +:+ IsoManagerHash.escapeRegExp "ubuntu-22.04.iso" +:+ "$") with
  | Return r => captured (RegExp.exec false r (digest64 +:+ "  ubuntu-22.04.iso")) 1
  | _ => None
  end = Some digest64.
Proof. vm_compute. reflexivity. Qed.

Example template_drops_backslashes :
  template "^([a-fA-F0-9]{32,128})\s+(?:\*|\s)" "x" "$"
  = Return "^([a-fA-F0-9]{32,128})s+(?:*|s)x$".
Proof. reflexivity. Qed.

Example normalizeIsoName_point_release :
  Server.normalizeIsoName "ubuntu-22.04.3-desktop-amd64.iso" = "ubuntu"
  /\ Server.normalizeIsoName "ubuntu-22.04-desktop-amd64.iso" = "ubuntu"
  /\ Server.normalizeIsoName "Debian 12 (netinst)" = "debian12".
Proof. repeat split; vm_compute; reflexivity. Qed.

Example extractVersion_examples :
  Server.extractVersionFromFilename "ubuntu-22.04.3-desktop-amd64.iso" = Some "22.04.3"
  /\ Server.extractVersionFromFilename "archlinux-x86_64.iso" = None.
Proof. repeat split; vm_compute; reflexivity. Qed.

Example Number_examples :
  JSNumber.Number "04" = Return (JSNumber.Fin 4)
  /\ JSNumber.Number "" = Return (JSNumber.Fin 0)
  /\ JSNumber.Number "9007199254740993" = Return (JSNumber.Fin 9007199254740992)
  /\ JSNumber.Number "9007199254740995" = Return (JSNumber.Fin 9007199254740996)
  /\ JSNumber.Number "3 4" = Return JSNumber.NaN.
Proof. repeat split; vm_compute; reflexivity. Qed.

(** [Number] on texts that are no plain numerals, and a comparison of
    versions with such a component: it counts as NaN, which is neither
    above nor below any number. *)
Example Number_literals :
  JSNumber.Number "1e3" = Return (JSNumber.Fin 1000)
  /\ JSNumber.Number "0x1f" = Return (JSNumber.Fin 31)
  /\ JSNumber.Number "-12" = Return (JSNumber.Fin (-12))
  /\ JSNumber.Number "0.1" = Return (JSNumber.Frac 3602879701896397 55)
  /\ JSNumber.Number "1e-400" = Return (JSNumber.Fin 0)
  /\ JSNumber.Number "1e400" = Return JSNumber.PosInf
  /\ JSNumber.Number "-Infinity" = Return JSNumber.NegInf
  /\ JSNumber.Number "0-rc1" = Return JSNumber.NaN
  /\ JSNumber.Number "rolling" = Return JSNumber.NaN
  /\ Server.compareVersions "13.0-rc1" "12.1.0" = Return 1%Z
  /\ Server.compareVersions "12.0-rc1" "12.0" = Return 0%Z.
Proof. repeat split; vm_compute; reflexivity. Qed.

Example path_examples :
  Path.join "/data/ISO-Archive" "../../etc/passwd" = "/etc/passwd"
  /\ Path.join "/data/ISO-Archive" "debian.iso" = "/data/ISO-Archive/debian.iso"
  /\ Path.basename "../../etc/passwd" = "passwd"
  /\ Path.basename ".." = ".."
  /\ Path.resolve "/data" "ISO-Archive" = "/data/ISO-Archive"
  /\ Path.normalize "a/../../b/" = "../b/".
Proof. repeat split; vm_compute; reflexivity. Qed.
End Evaluations.

Section ModelFacts.
Import JSString Net FS IsoManager.

(** The regular expression literals of the sources are patterns of the
    embedded grammar. *)
Lemma literals_are_patterns :
  Forall (fun text => exists r, RegExp.compile text = RegExp.Ok r)
         [ "[.*+?^${}()|[\]\\]";
           "^[a-fA-F0-9]{32,128}$";
           "^([0-9a-fA-F]+)[\s*]+([^\s].*)$";
           "^([^\s].*)[\s*]+([0-9a-fA-F]+)$";
           "^[0-9a-fA-F]+$";
           "\.(iso|img|esd)$";
           "[-_]?\d+(\.\d+)+[-_]?";
           "[-_]?(amd64|x86_64|i386|x86|arm64)[-_]?";
           "[-_]?(live|desktop|server|netinst|dvd|cd)[-_]?";
           "[^a-z0-9]";
           "[\d]+(\.[\d]+)+" ].
Proof. repeat constructor; eexists; vm_compute; reflexivity. Qed.

Variable URL_resolve : string -> string -> option string.

(** [followRedirects] uses up exchanges and makes none. *)
Lemma followLoop_rest (n : nat) :
  forall (net : list exchange) (url : string),
    (length (snd (followLoop URL_resolve net url n)) <= length net)%nat.
Proof.
  induction n as [|n IH]; intros net url; [simpl; lia|].
  destruct net as [|[m| |r chunks e] net]; simpl; try lia.
  destruct ((statusCode r =? 301) || (statusCode r =? 302))%Z; simpl; [|lia].
  destruct (URL_resolve (locationText r) url); simpl; [|lia].
  specialize (IH net s). lia.
Qed.

(** The bound on the redirects followed at the download request does not
    cut a download short: any two bounds above the number of exchanges
    give the same outcome. *)
Lemma downloadLoop_fuel (fuel1 : nat) :
  forall (fuel2 : nat) (net : list exchange) (diskError : option string)
         (url dir : string) (fs0 : filesystem),
    (length net < fuel1)%nat -> (length net < fuel2)%nat ->
    downloadLoop URL_resolve fuel1 net diskError url dir fs0
    = downloadLoop URL_resolve fuel2 net diskError url dir fs0.
Proof.
  induction fuel1 as [|fuel1 IH]; intros fuel2 net diskError url dir fs0 H1 H2; [lia|].
  destruct fuel2 as [|fuel2]; [lia|].
  cbn [downloadLoop].
  pose proof (followLoop_rest (Z.to_nat 5) net url) as Hrest.
  unfold followRedirects.
  destruct (followLoop URL_resolve net url (Z.to_nat 5)) as [[| finalUrl | e | e] net1];
    try reflexivity.
  simpl in Hrest.
  destruct (fs0 !! dir) as [[content|]|]; try reflexivity.
  - destruct net1 as [|[m| |r chunks e] net2]; try reflexivity.
    destruct ((statusCode r =? 301) || (statusCode r =? 302))%Z; [|reflexivity].
    destruct (URL_resolve (locationText r) finalUrl); [|reflexivity].
    apply IH; simpl in Hrest; lia.
  - destruct net1 as [|[m| |r chunks e] net2]; try reflexivity.
    destruct ((statusCode r =? 301) || (statusCode r =? 302))%Z; [|reflexivity].
    destruct (URL_resolve (locationText r) finalUrl); [|reflexivity].
    apply IH; simpl in Hrest; lia.
Qed.

(** Whatever is received before the connection is lost stays at the
    download path: the engine rejects and removes nothing. *)
Lemma engine_keeps_what_arrived (chunks : list (list Byte.byte)) (message : string) :
  let after :=
    downloadAndVerifyFile URL_resolve
                          [ Answer DownloadSpec.ok200 [] Finish;
                            Answer DownloadSpec.ok200 chunks (Lost message) ]
                          None "http://mirror.example/a.iso" "/data/ISO-Archive" ∅ in
  snd after = Rejected (Error message)
  /\ fst after !! "/data/ISO-Archive/a.iso" = Some (File (concat chunks)).
Proof. split; vm_compute; reflexivity. Qed.
End ModelFacts.

Section InvariantFacts.
Import JSString Server CatalogSpec.

(** [addIsoToJson] keeps the invariant of the catalog: at most one entry
    for a file name. *)
Lemma addIsoToJson_keeps_at_most_one now iso f h s c isos g :
  readIsos c = Some isos ->
  (forall g', length (List.filter (hasFilename g') isos) <= 1)%nat ->
  exists isos',
    addIsoToJson now iso f h s c = Return (Doc (Some isos'))
    /\ (length (List.filter (hasFilename g) isos') <= 1)%nat.
Proof.
  intros Hc Hall.
  destruct (addIsoToJson_once now iso f h s c isos Hc (Hall f)) as (isos' & E & Ff & _).
  exists isos'. split; [exact E|].
  destruct (String.eqb_spec f g) as [->|Hfg]; [rewrite Ff; simpl; lia|].
  assert (Hd : hasFilename g (isoData now iso f h s) = false).
  { unfold hasFilename. simpl. now apply String.eqb_neq. }
  revert E. unfold addIsoToJson. rewrite Hc.
  destruct (match findIndex _ isos with Some i => Some i | None => _ end) as [i|] eqn:Ei.
  - assert (Hi : exists x, isos !! i = Some x).
    { destruct (findIndex (fun item => String.eqb (filename item) f) isos) as [j|] eqn:E1.
      - injection Ei as <-. destruct (findIndex_Some _ _ _ E1) as (x & Hx & _). eauto.
      - destruct (findIndex_Some _ _ _ Ei) as (x & Hx & _). eauto. }
    destruct Hi as [x Hx]. intros [= <-].
    rewrite (filter_insert _ _ _ _ _ Hx), Hd.
    specialize (Hall g). rewrite (filter_split _ _ _ _ Hx) in Hall.
    rewrite !length_app in *. simpl. destruct (hasFilename g x); simpl in Hall; lia.
  - intros [= <-]. rewrite List.filter_app. simpl. rewrite Hd, app_nil_r. apply Hall.
Qed.
End InvariantFacts.

Section EngineFacts.
Import JSString Net FS IsoManager.
Variable URL_resolve : string -> string -> option string.

(** The engine of iso-manager.js removes nothing: whatever the exchanges
    and however the download ends, a path that held something before
    holds something after. *)
Lemma downloadLoop_removes_nothing (fuel : nat) :
  forall (net : list exchange) (diskError : option string) (url dir : string)
         (fs0 : filesystem) (p : string),
    is_Some (fs0 !! p) ->
    is_Some (fst (downloadLoop URL_resolve fuel net diskError url dir fs0) !! p).
Proof.
  induction fuel as [|fuel IH]; intros net diskError url dir fs0 p Hp; [exact Hp|].
  cbn [downloadLoop].
  destruct (followRedirects URL_resolve net url 5) as [[| finalUrl | e | e] net1];
    try exact Hp.
  assert (Hopen : is_Some (createWriteStream (<[dir := Directory]> fs0)
                             (Path.join dir (lastSegment finalUrl)) !! p)).
  { unfold createWriteStream. now do 2 apply insert_keeps. }
  assert (Hbody : forall content,
             is_Some (writeAll (createWriteStream (<[dir := Directory]> fs0)
                                                  (Path.join dir (lastSegment finalUrl)))
                               (Path.join dir (lastSegment finalUrl)) content !! p)).
  { intros content. unfold writeAll. now apply insert_keeps. }
  destruct (fs0 !! dir) as [[content|]|]; [exact Hp | |];
    (destruct net1 as [|[m| |r chunks e] net2]; try exact Hopen;
     destruct ((statusCode r =? 301) || (statusCode r =? 302))%Z;
     [ destruct (URL_resolve (locationText r) finalUrl); [now apply IH | exact Hopen]
     | destruct (negb (statusCode r =? 200)%Z); [exact Hopen|];
       cbv zeta; destruct diskError; [apply Hbody|]; destruct e; apply Hbody ]).
Qed.
End EngineFacts.

(* ================================================================== *)
(** * The claims of the specification *)

Section Claims.
Import JSString Net FS.
Import HashFileSpec VersionSpec CatalogSpec UpdateSpec DownloadSpec Examples.



(** C2, at a transfer that fails: the engine of iso-manager.js rejects
    the promise with the network error and leaves the two bytes already
    written at the destination path, where the specification wants no
    file.  The downloader module, given the same transfer, rejects and
    leaves nothing. *)
Theorem engine_keeps_partial_file :
  let after :=
    IsoManager.downloadAndVerifyFile absolute brokenTransfer None
                                     "http://mirror.example/a.iso" "/data/ISO-Archive" ∅ in
  let sibling :=
    Downloader.downloadAndVerifyFile toyDigest httpOnly (tl brokenTransfer) None
                                     "http://mirror.example/a.iso"
                                     "/data/ISO-Archive/a.iso" "" "sha256" ∅ in
  snd after = Rejected (Error "ECONNRESET")
  /\ fst after !! "/data/ISO-Archive/a.iso" = Some (File [Byte.x01; Byte.x02])
  /\ snd sibling = Rejected (Error "ECONNRESET")
  /\ fst sibling !! "/data/ISO-Archive/a.iso" = None.
Proof. vm_compute. repeat split; reflexivity. Qed.

(** C3, at a chain of six redirects with the limit of five:
    [followRedirects] of iso-manager.js resolves with the fifth
    location, an intermediate URL whose own answer is the sixth
    redirect, where the specification wants a failure.  [fetchData],
    given the same chain and limit, rejects. *)
Theorem followRedirects_returns_intermediate_url :
  IsoManager.followRedirects absolute sixHops "http://mirror.example/0" 5
  = (Resolved "http://mirror.example/5",
     [moved "http://mirror.example/6"; Answer ok200 [] Finish])
  /\ IsoManager.fetchData absolute sixHops "http://mirror.example/0" 5
     = Rejected (Error "Too many redirects").
Proof. split; vm_compute; reflexivity. Qed.

(** C4, at a checksum line of the coreutils form and at a content that
    has nothing to do with the file: [extractHashFromFile] of
    iso-manager.js throws a SyntaxError in both cases, where the
    specification wants the hash in lower case and the answer "not
    found". *)
Theorem extractHashFromFile_throws_on_checksum_line :
  IsoManagerHash.extractHashFromFile (digest64 +:+ "  ubuntu-22.04.iso")
                                     "ubuntu-22.04.iso" "sha256"
  = Throw nothingToRepeat
  /\ IsoManagerHash.extractHashFromFile "no checksum here" "ubuntu-22.04.iso" "sha256"
     = Throw nothingToRepeat.
Proof. split; vm_compute; reflexivity. Qed.

(** C5, at a file that holds one sha512 digest: the length check of
    iso-manager.js expects 64 characters for sha512, so the digest of
    128 characters is turned down and one of 64 characters would pass;
    the function as a whole throws before it gets there. *)
Theorem hash_only_length_table_misses_sha512 :
  IsoManagerHash.expectedLength "sha512" = 64%nat
  /\ IsoManagerHash.hashOnlyLine digest128 "sha512" = None
  /\ IsoManagerHash.hashOnlyLine digest64lower "sha512" = Some digest64lower
  /\ IsoManagerHash.extractHashFromFile digest128 "ubuntu-22.04.iso" "sha512"
     = Throw nothingToRepeat.
Proof. repeat split; vm_compute; reflexivity. Qed.

(** C6, as amended: for dotted-numeric versions whose components are
    below 2^53, [compareVersions] is the comparison of the numeric values
    component by component, a missing component counting as 0. *)
Theorem compareVersions_numeric_below_2_53 (cs1 cs2 : list string) :
  cs1 <> [] -> cs2 <> [] ->
  forallb isExact cs1 = true -> forallb isExact cs2 = true ->
  Server.compareVersions (joinWith "." cs1) (joinWith "." cs2)
  = Return (compareNumeric (map value cs1) (map value cs2)).
Proof.
  intros N1 N2 H1 H2. unfold Server.compareVersions.
  assert (E : forall cs, forallb isExact cs = true -> forallb isNumeral cs = true).
  { intros cs H. rewrite forallb_forall in *. intros c Hc.
    specialize (H c Hc). unfold isExact in H. now apply andb_true_iff in H as [H _]. }
  (* splitting at the dots gives the components back *)
  rewrite (split_joinWith _ N1 (E _ H1)), (split_joinWith _ N2 (E _ H2)).
  (* each component is read as its value *)
  rewrite (mapM_Number_exact _ H1). simpl.
  rewrite (mapM_Number_exact _ H2). simpl.
  rewrite <- (map_map value JSNumber.Fin cs1), <- (map_map value JSNumber.Fin cs2).
  rewrite !(List.length_map JSNumber.Fin).
  (* and the loop is the comparison of the values *)
  rewrite compareLoop_numeric. reflexivity.
Qed.

Lemma compareVersions_examples :
  Server.compareVersions "22.04.3" "22.04" = Return 1%Z
  /\ Server.compareVersions "1.2" "1.2.0" = Return 0%Z
  /\ Server.compareVersions "2.0" "10.0" = Return (-1)%Z.
Proof.
  split; [|split].
  - apply (compareVersions_numeric_below_2_53 ["22"; "04"; "3"] ["22"; "04"]);
      [discriminate | discriminate | reflexivity | reflexivity].
  - apply (compareVersions_numeric_below_2_53 ["1"; "2"] ["1"; "2"; "0"]);
      [discriminate | discriminate | reflexivity | reflexivity].
  - apply (compareVersions_numeric_below_2_53 ["2"; "0"] ["10"; "0"]);
      [discriminate | discriminate | reflexivity | reflexivity].
Defined.

(** C6 as stated fails: the two versions below differ in value, and
    [compareVersions] finds them equal, both components being read as
    the same Number. *)
Lemma compareVersions_rounds_large_components :
  Server.compareVersions "9007199254740993" "9007199254740992" = Return 0%Z
  /\ compareNumeric [value "9007199254740993"] [value "9007199254740992"] = 1%Z
  /\ isNumeral "9007199254740993" = true
  /\ isNumeral "9007199254740992" = true.
Proof. repeat split; vm_compute; reflexivity. Qed.




(** C8, as amended ([markArchivedIsos]): an entry of the listing comes
    back with [updateAvailable = true] exactly when the pass over the
    listing goes through without an exception, a file of the archive
    was matched with the entry, and either (with a catalog record) both
    versions are there, differ as texts, and the listing's compares
    strictly greater, or one of them is missing or they are the same
    text and both sizes are known and differ by more than 1 MiB; or
    (without a catalog record) the listing's size is known and is not
    the size of the file on disk, or the version of the listing compares
    strictly greater than the one in the name of a file that was not
    matched exactly.  The entries come in unflagged, as
    [processIsoDetails] builds them. *)
Theorem update_detection_rule
        (URL_pathname : string -> option string)
        (archive : option (list string)) (statSize : string -> option Z)
        (catalog : Server.catalogFile) (isoList : list (string * Server.Details)) :
  Forall (fun e => Server.d_updateAvailable (snd e) = false) isoList ->
  exists out,
    Server.markArchivedIsos URL_pathname archive statSize catalog isoList = Return out
    /\ Forall2 (fun e o =>
                  fst o = fst e
                  /\ (Server.d_updateAvailable (snd o) = true
                      <-> completes URL_pathname archive statSize catalog isoList
                          /\ updateDue URL_pathname archive statSize catalog e))
               isoList out.
Proof.
  intros Hin.
  (* when the pass does not complete the listing is returned as it came,
     and none of its entries is flagged *)
  assert (Hsame : ~ completes URL_pathname archive statSize catalog isoList ->
                  Forall2 (fun e o =>
                             fst o = fst e
                             /\ (Server.d_updateAvailable (snd o) = true
                                 <-> completes URL_pathname archive statSize catalog isoList
                                     /\ updateDue URL_pathname archive statSize catalog e))
                          isoList isoList).
  { intros Hno. clear -Hin Hno. revert Hno.
    generalize (completes URL_pathname archive statSize catalog isoList) as P.
    intros P Hno. induction Hin as [|e l He Hl IH]; constructor; [|exact IH].
    split; [reflexivity|]. rewrite He. split; [discriminate | tauto]. }
  unfold Server.markArchivedIsos.
  destruct archive as [files|];
    [|exists isoList; split; [reflexivity|];
      apply Hsame; intros (files & isos & H & _); discriminate].
  destruct (Server.readIsos catalog) as [isos|] eqn:Ec;
    [|exists isoList; split; [reflexivity|];
      apply Hsame; intros (files' & isos & _ & H & _); congruence].
  pose proof (markEntries_rule URL_pathname files isos statSize isoList) as Hpass.
  destruct (mapM _ isoList) as [marked|e|].
  - destruct Hpass as [Hall Hmarked]. exists marked. split; [reflexivity|].
    assert (Hc : completes URL_pathname (Some files) statSize catalog isoList)
      by (exists files, isos; auto).
    eapply Forall2_impl; [exact Hmarked|].
    intros e o [Hname Hflag]. split; [exact Hname|].
    rewrite Hflag. unfold updateDue. rewrite Ec. cbn [Server.readIsos]. tauto.
  - exists isoList. split; [reflexivity|]. apply Hsame.
    intros (files' & isos' & [= <-] & Hi & Hall). apply Hpass. congruence.
  - destruct Hpass.
Qed.

Lemma update_detection_rule_witness :
  exists out,
    Server.markArchivedIsos
      pathAfterHost (Some ["ubuntu-22.04-desktop-amd64.iso"]) (fun _ => Some 2097152%Z)
      (Server.Doc (Some [olderUbuntu])) [("Ubuntu 22.04 Desktop", sameVersionOtherSize)]
    = Return out
    /\ Forall2 (fun e o =>
                  fst o = fst e
                  /\ (Server.d_updateAvailable (snd o) = true
                      <-> completes pathAfterHost (Some ["ubuntu-22.04-desktop-amd64.iso"])
                                    (fun _ => Some 2097152%Z)
                                    (Server.Doc (Some [olderUbuntu]))
                                    [("Ubuntu 22.04 Desktop", sameVersionOtherSize)]
                          /\ updateDue pathAfterHost
                                       (Some ["ubuntu-22.04-desktop-amd64.iso"])
                                       (fun _ => Some 2097152%Z)
                                       (Server.Doc (Some [olderUbuntu])) e))
               [("Ubuntu 22.04 Desktop", sameVersionOtherSize)] out.
Proof.
  apply (update_detection_rule
           pathAfterHost (Some ["ubuntu-22.04-desktop-amd64.iso"])
           (fun _ => Some 2097152%Z) (Server.Doc (Some [olderUbuntu]))
           [("Ubuntu 22.04 Desktop", sameVersionOtherSize)]).
  repeat constructor.
Defined.

(** C8 as stated fails: the listing and the catalog record carry the
    same version and sizes 2 MiB apart; the code flags an update, and
    the rule of the specification, which looks at the sizes only when a
    version is missing, does not. *)
Lemma update_flagged_for_equal_versions :
  Server.markArchivedIsos
    pathAfterHost (Some ["ubuntu-22.04-desktop-amd64.iso"]) (fun _ => Some 2097152%Z)
    (Server.Doc (Some [olderUbuntu])) [("Ubuntu 22.04 Desktop", sameVersionOtherSize)]
  = Return [("Ubuntu 22.04 Desktop",
             {| Server.d_url :=
                  "https://releases.example/22.04/ubuntu-22.04-desktop-amd64.iso";
                Server.d_version := "22.04";
                Server.d_size := 4194304;
                Server.d_inArchive := true;
                Server.d_updateAvailable := true;
                Server.d_filename := Some "ubuntu-22.04-desktop-amd64.iso" |})]
  /\ ~ specifiedUpdate sameVersionOtherSize "ubuntu-22.04-desktop-amd64.iso" olderUbuntu.
Proof.
  split; [vm_compute; reflexivity|].
  intros [(n & a & [Hn _] & [Ha _] & c & Hc & Hpos) | [[[H|H]|[H|H]] _]];
    try discriminate H.
  vm_compute in Hn, Ha. injection Hn as <-. injection Ha as <-.
  vm_compute in Hc. injection Hc as <-. lia.
Qed.

(** C9, at a file name that leads into a directory beside the archive
    whose name starts like the archive's: [deleteArchiveIso] of the
    command-line tool passes its check and deletes the file, which is
    not in the archive directory. *)
Theorem deleteArchiveIso_deletes_outside_archive :
  Cli.deleteArchiveIso "/data" None "../ISO-Archive-old/debian.iso" besideArchive
  = (Cli.Completed, {| fs := ∅; catalog := Server.NoFile |})
  /\ Path.join (Path.resolve "/data" "ISO-Archive") "../ISO-Archive-old/debian.iso"
     = "/data/ISO-Archive-old/debian.iso"
  /\ startsWith "/data/ISO-Archive-old/debian.iso" "/data/ISO-Archive/" = false.
Proof. repeat split; vm_compute; reflexivity. Qed.

(** C10 ([verifyFile] of iso-manager.js): for a file that exists and an
    expected hash that is missing or empty, the result has
    [isValid = true] and the hash computed over the content of the file,
    with the message of a successful verification; nothing is raised. *)
Theorem verifyFile_without_expected_hash
        (digestHex : string -> option (list Byte.byte -> string))
        (fs0 : filesystem) (filePath : string) (content : list Byte.byte)
        (expectedHash algorithm : option string) (digest : list Byte.byte -> string) :
  fs0 !! filePath = Some (File content) ->
  digestHex (match algorithm with Some a => a | None => "sha256" end) = Some digest ->
  truthyOpt expectedHash = None ->
  exists v,
    IsoManager.verifyFile digestHex fs0 filePath expectedHash algorithm = Resolved v
    /\ IsoManager.isValid v = true
    /\ IsoManager.v_hash v = digest content
    /\ IsoManager.message v = "Hash verified successfully".
Proof.
  intros Hf Hd He.
  unfold IsoManager.verifyFile, existsSync, IsoManager.calculateFileHash.
  rewrite Hf, Hd, He.
  eexists. split; [reflexivity|]. repeat split.
Qed.

Lemma verifyFile_without_expected_hash_witness :
  exists v,
    IsoManager.verifyFile toyDigest {[ "/data/a.iso" := File [Byte.x01] ]}
                          "/data/a.iso" (Some "") None
    = Resolved v
    /\ IsoManager.isValid v = true
    /\ IsoManager.v_hash v = "ab12cd34"
    /\ IsoManager.message v = "Hash verified successfully".
Proof.
  apply (verifyFile_without_expected_hash
           toyDigest {[ "/data/a.iso" := File [Byte.x01] ]} "/data/a.iso" [Byte.x01]
           (Some "") None
           (fun bytes => match bytes with [] => "e3b0c442" | _ :: _ => "ab12cd34" end)).
  - reflexivity.
  - reflexivity.
  - reflexivity.
Defined.
End Claims.

(* ================================================================== *)
(** * Further properties of the code

    What the code does beyond the sentences of the specification: error
    and edge behaviour, invariants, round trips and compositions, each
    read off the source. *)

(* ------------------------------------------------------------------ *)
(** ** The download engine and the fetching of texts *)

Section EngineResult.
Import JSString Net FS DownloadSpec Examples.

(** The exchanges that [followRedirects] leaves are among those it was
    given. *)
Lemma followLoop_leaves_suffix (URL_resolve : string -> string -> option string) (n : nat) :
  forall (net : list exchange) (url : string) (x : exchange),
    In x (snd (IsoManager.followLoop URL_resolve net url n)) -> In x net.
Proof.
  induction n as [|n IH]; intros net url x; [exact id|].
  destruct net as [|[m| |r chunks e] net]; simpl; auto.
  destruct ((statusCode r =? 301) || (statusCode r =? 302))%Z; simpl; auto.
  destruct (URL_resolve (IsoManager.locationText r) url); simpl; auto.
  intros H. right. exact (IH _ _ _ H).
Qed.

(** X1 ([IsoManager.downloadAndVerifyFile], iso-manager.js:990-1091):
    whenever the download resolves, the result says [success] with a
    [size] of 0, whatever was transferred: the byte counter is copied
    into the stream object when the response arrives, before any chunk.
    The file named by [filePath] lies in the output directory and holds
    the whole body of an answer with status 200. *)
Theorem engine_resolves_with_size_zero
        (URL_resolve : string -> string -> option string)
        (net : list exchange) (diskError : option string)
        (url resolvedOutputPath : string) (fs0 fs' : filesystem)
        (res : IsoManager.result) :
  IsoManager.downloadAndVerifyFile URL_resolve net diskError url resolvedOutputPath fs0
  = (fs', Resolved res) ->
  IsoManager.success res = true
  /\ IsoManager.size res = 0%Z
  /\ IsoManager.filePath res = Path.join resolvedOutputPath (IsoManager.filename res)
  /\ exists r chunks,
      In (Answer r chunks Finish) net /\ statusCode r = 200%Z
      /\ fs' !! IsoManager.filePath res = Some (File (concat chunks)).
Proof.
  unfold IsoManager.downloadAndVerifyFile.
  generalize (S (length net)) as fuel. intros fuel.
  revert net url fs0. induction fuel as [|fuel IH]; intros net url fs0;
    cbn [IsoManager.downloadLoop]; [discriminate|].
  unfold IsoManager.followRedirects.
  pose proof (followLoop_leaves_suffix URL_resolve (Z.to_nat 5) net url) as Hsub.
  destruct (IsoManager.followLoop URL_resolve net url (Z.to_nat 5))
    as [[| finalUrl | e | e] net1]; try discriminate.
  simpl in Hsub.
  assert (Hgo : forall fsd,
    match net1 with
    | [] => (createWriteStream fsd (Path.join resolvedOutputPath (IsoManager.lastSegment finalUrl)), Pending)
    | NoAnswer :: _ => (createWriteStream fsd (Path.join resolvedOutputPath (IsoManager.lastSegment finalUrl)), Pending)
    | RequestError message :: _ => (createWriteStream fsd (Path.join resolvedOutputPath (IsoManager.lastSegment finalUrl)), Rejected (Error message))
    | Answer r chunks e :: net2 =>
        if ((statusCode r =? 301) || (statusCode r =? 302))%Z
        then match URL_resolve (IsoManager.locationText r) finalUrl with
             | Some redirectUrl =>
                 IsoManager.downloadLoop URL_resolve fuel net2 diskError redirectUrl resolvedOutputPath
                   (createWriteStream fsd (Path.join resolvedOutputPath (IsoManager.lastSegment finalUrl)))
             | None => (createWriteStream fsd (Path.join resolvedOutputPath (IsoManager.lastSegment finalUrl)), Uncaught (TypeError "Invalid URL"))
             end
        else if negb (statusCode r =? 200)%Z
             then (createWriteStream fsd (Path.join resolvedOutputPath (IsoManager.lastSegment finalUrl)),
                   Rejected (Error ("HTTP " +:+ showZ (statusCode r))))
             else
               let written := writeAll (createWriteStream fsd (Path.join resolvedOutputPath (IsoManager.lastSegment finalUrl)))
                                       (Path.join resolvedOutputPath (IsoManager.lastSegment finalUrl)) (concat chunks) in
               match diskError with
               | Some message => (written, Rejected (Error ("File write error: " +:+ message)))
               | None =>
                   match e with
                   | Finish =>
                       (written,
                        Resolved {| IsoManager.success := true;
                                    IsoManager.filePath := Path.join resolvedOutputPath (IsoManager.lastSegment finalUrl);
                                    IsoManager.filename := IsoManager.lastSegment finalUrl;
                                    IsoManager.size := 0 |})
                   | Lost message => (written, Rejected (Error message))
                   | Stall => (written, Pending)
                   end
               end
    end = (fs', Resolved res) ->
    IsoManager.success res = true
    /\ IsoManager.size res = 0%Z
    /\ IsoManager.filePath res = Path.join resolvedOutputPath (IsoManager.filename res)
    /\ exists r chunks,
        In (Answer r chunks Finish) net /\ statusCode r = 200%Z
        /\ fs' !! IsoManager.filePath res = Some (File (concat chunks))).
  { intros fsd. destruct net1 as [|[m| |r chunks e] net2]; try discriminate.
    destruct ((statusCode r =? 301) || (statusCode r =? 302))%Z.
    - destruct (URL_resolve (IsoManager.locationText r) finalUrl) as [redirectUrl|];
        [|discriminate].
      intros H. destruct (IH _ _ _ H) as (H1 & H2 & H3 & r' & chunks' & Hin & H4).
      repeat split; try assumption. exists r', chunks'. split; [|exact H4].
      apply Hsub. now right.
    - destruct (statusCode r =? 200)%Z eqn:E200; [|discriminate]. cbn [negb].
      cbv zeta. destruct diskError; [discriminate|].
      destruct e; try discriminate.
      intros [= <- <-]. cbn. repeat split.
      exists r, chunks. split; [apply Hsub; now left|].
      split; [now apply Z.eqb_eq|].
      unfold writeAll. apply lookup_insert_eq. }
  destruct (fs0 !! resolvedOutputPath) as [[content|]|]; [discriminate | |]; apply Hgo.
Qed.

Lemma engine_resolves_with_size_zero_witness :
  let res := {| IsoManager.success := true;
                IsoManager.filePath := "/data/ISO-Archive/a.iso";
                IsoManager.filename := "a.iso";
                IsoManager.size := 0 |} in
  let fs' : filesystem :=
    <[ "/data/ISO-Archive/a.iso" := File [Byte.x01; Byte.x02] ]>
      (<[ "/data/ISO-Archive" := Directory ]> ∅) in
  IsoManager.success res = true
  /\ IsoManager.size res = 0%Z
  /\ IsoManager.filePath res = Path.join "/data/ISO-Archive" (IsoManager.filename res)
  /\ exists r chunks,
      In (Answer r chunks Finish)
         [Answer ok200 [] Finish; Answer ok200 [[Byte.x01]; [Byte.x02]] Finish]
      /\ statusCode r = 200%Z
      /\ fs' !! IsoManager.filePath res = Some (File (concat chunks)).
Proof.
  intros res fs'.
  apply (engine_resolves_with_size_zero
           absolute [Answer ok200 [] Finish; Answer ok200 [[Byte.x01]; [Byte.x02]] Finish]
           None "http://mirror.example/a.iso" "/data/ISO-Archive" ∅ fs' res).
  vm_compute. reflexivity.
Defined.
End EngineResult.

Section FetchBudget.
Import JSString Net FS DownloadSpec Examples.


End FetchBudget.

Section CatalogRoundTrips.
Import JSString Server CatalogSpec Examples.

Lemma find_filter_neg {A} (p : A -> bool) (l : list A) :
  List.find p (List.filter (fun x => negb (p x)) l) = None.
Proof.
  induction l as [|a l IH]; simpl; [reflexivity|].
  destruct (p a) eqn:E; simpl; [exact IH | now rewrite E].
Qed.

Lemma find_filter_other {A} (p q : A -> bool) (l : list A) :
  (forall x, p x = true -> q x = true) ->
  List.find p (List.filter q l) = List.find p l.
Proof.
  intros H. induction l as [|a l IH]; simpl; [reflexivity|].
  destruct (q a) eqn:Eq; simpl.
  - destruct (p a); [reflexivity | exact IH].
  - destruct (p a) eqn:Ep; [|exact IH]. rewrite (H _ Ep) in Eq. discriminate.
Qed.

Lemma find_none_filter {A} (p : A -> bool) (l : list A) :
  List.filter p l = [] -> List.find p l = None.
Proof.
  induction l as [|a l IH]; simpl; [reflexivity|].
  destruct (p a); [discriminate | exact IH].
Qed.

Lemma find_app_new {A} (p : A -> bool) (l : list A) (x : A) :
  List.filter p l = [] -> p x = true -> List.find p (l ++ [x]) = Some x.
Proof.
  intros Hl Hx. induction l as [|a l IH]; simpl in *; [now rewrite Hx|].
  destruct (p a); [discriminate | auto].
Qed.

Lemma find_insert_first {A} (p : A -> bool) (l : list A) (i : nat) (x y : A) :
  l !! i = Some x -> List.filter p (take i l) = [] -> p y = true ->
  List.find p (<[i := y]> l) = Some y.
Proof.
  revert i. induction l as [|a l IH]; intros [|i] Hx Hf Hy; simpl in *;
    try discriminate.
  - now rewrite Hy.
  - destruct (p a); [discriminate|]. now apply IH.
Qed.

(** X3 ([addIsoToJson] and [getIsoDataFromJson], server script lines
    1335-1386): what is added is what is found.  After an addition to a
    catalog whose [isos] array can be read, the look-up by the file name
    returns the entry just built, whether the addition replaced an entry
    (matched by file name or, failing that, by normalized name) or
    appended one; the catalog grows by one entry at most. *)
Theorem addIsoToJson_then_lookup
        (now : string) (iso : IsoInfo) (f h : string) (s : Z)
        (c : catalogFile) (isos : list IsoRecord) :
  readIsos c = Some isos ->
  exists isos',
    addIsoToJson now iso f h s c = Return (Doc (Some isos'))
    /\ getIsoDataFromJson isos' f = Some (isoData now iso f h s)
    /\ (length isos <= length isos' <= S (length isos))%nat.
Proof.
  intros Hc. unfold addIsoToJson, getIsoDataFromJson. rewrite Hc.
  pose proof (isoData_filename now iso f h s) as Hd. unfold hasFilename in Hd.
  change (findIndex (fun item => String.eqb (filename item) f) isos)
    with (findIndex (hasFilename f) isos).
  change (fun iso0 : IsoRecord => String.eqb (filename iso0) f) with (hasFilename f).
  destruct (findIndex (hasFilename f) isos) as [i|] eqn:E1.
  - destruct (findIndex_Some _ _ _ E1) as (x & Hx & _ & Hbefore).
    eexists; split; [reflexivity|]. split.
    + now apply (find_insert_first _ _ _ x).
    + rewrite length_insert. lia.
  - apply findIndex_None in E1.
    destruct (findIndex _ isos) as [j|] eqn:E2.
    + destruct (findIndex_Some _ _ _ E2) as (x & Hx & _ & _).
      eexists; split; [reflexivity|]. split.
      * apply (find_insert_first _ _ _ x); [exact Hx | | exact Hd].
        now destruct (filter_nil_sub (hasFilename f) isos j E1).
      * rewrite length_insert. lia.
    + eexists; split; [reflexivity|]. split.
      * now apply find_app_new.
      * rewrite length_app. simpl. lia.
Qed.

Lemma addIsoToJson_then_lookup_witness :
  exists isos',
    addIsoToJson "t1" pointRelease "ubuntu-22.04.3-desktop-amd64.iso" "ab" 7
                 (Doc (Some [entryOf "debian-12.iso"; olderUbuntu]))
    = Return (Doc (Some isos'))
    /\ getIsoDataFromJson isos' "ubuntu-22.04.3-desktop-amd64.iso"
       = Some (isoData "t1" pointRelease "ubuntu-22.04.3-desktop-amd64.iso" "ab" 7)
    /\ (length [entryOf "debian-12.iso"; olderUbuntu] <= length isos'
        <= S (length [entryOf "debian-12.iso"; olderUbuntu]))%nat.
Proof.
  apply (addIsoToJson_then_lookup
           "t1" pointRelease "ubuntu-22.04.3-desktop-amd64.iso" "ab" 7
           (Doc (Some [entryOf "debian-12.iso"; olderUbuntu]))
           [entryOf "debian-12.iso"; olderUbuntu]).
  reflexivity.
Defined.

(** X4 ([removeIsoFromJson], server script lines 1372-1386): a removal
    forgets the file and nothing else.  After it the look-up by that file
    name finds nothing, and the look-up by any other file name finds
    what it found before. *)
Theorem removeIsoFromJson_forgets_only_that_file
        (f : string) (c : catalogFile) (isos : list IsoRecord) :
  readIsos c = Some isos ->
  exists isos',
    removeIsoFromJson f c = Return (Doc (Some isos'))
    /\ getIsoDataFromJson isos' f = None
    /\ forall g, g <> f -> getIsoDataFromJson isos' g = getIsoDataFromJson isos g.
Proof.
  intros Hc. unfold removeIsoFromJson, getIsoDataFromJson. rewrite Hc.
  eexists; split; [reflexivity|]. split.
  - apply (find_filter_neg (fun iso => String.eqb (filename iso) f)).
  - intros g Hg. apply find_filter_other. intros x Hx.
    apply String.eqb_eq in Hx. apply negb_true_iff, String.eqb_neq. congruence.
Qed.

Lemma removeIsoFromJson_forgets_only_that_file_witness :
  exists isos',
    removeIsoFromJson "debian-12.iso" (Doc (Some [entryOf "debian-12.iso"; olderUbuntu]))
    = Return (Doc (Some isos'))
    /\ getIsoDataFromJson isos' "debian-12.iso" = None
    /\ forall g, g <> "debian-12.iso" ->
                 getIsoDataFromJson isos' g
                 = getIsoDataFromJson [entryOf "debian-12.iso"; olderUbuntu] g.
Proof.
  apply (removeIsoFromJson_forgets_only_that_file
           "debian-12.iso" (Doc (Some [entryOf "debian-12.iso"; olderUbuntu]))
           [entryOf "debian-12.iso"; olderUbuntu]).
  reflexivity.
Defined.

(** X5 ([addIsoToJson] then [removeIsoFromJson], server script lines
    1335-1380): for a file that the catalog does not know, neither by
    its file name nor by the normalized name of the image, adding and
    then removing it gives the entries back as they were, in their
    order. *)
Theorem add_then_remove_restores
        (now : string) (iso : IsoInfo) (f h : string) (s : Z)
        (c : catalogFile) (isos : list IsoRecord) :
  readIsos c = Some isos ->
  Forall (fun r => unrelated f (iso_name iso) r = true) isos ->
  (c1 ← addIsoToJson now iso f h s c; removeIsoFromJson f c1)
  = Return (Doc (Some isos)).
Proof.
  intros Hc Hall. unfold addIsoToJson. rewrite Hc.
  assert (H1 : findIndex (fun item => String.eqb (filename item) f) isos = None).
  { clear Hc. induction Hall as [|r l Hr _ IH]; simpl; [reflexivity|].
    unfold unrelated, hasFilename in Hr. apply andb_true_iff in Hr as [Hr _].
    apply negb_true_iff in Hr. now rewrite Hr, IH. }
  assert (H2 : findIndex (fun item => String.eqb (normalizeIsoName (name item))
                                                 (normalizeIsoName (iso_name iso))) isos
               = None).
  { clear Hc H1. induction Hall as [|r l Hr _ IH]; cbn [findIndex]; [reflexivity|].
    unfold unrelated in Hr. apply andb_true_iff in Hr as [_ Hr].
    apply negb_true_iff in Hr. now rewrite Hr, IH. }
  rewrite H1, H2. cbn [mbind completion_bind].
  unfold removeIsoFromJson. cbn [readIsos]. do 3 f_equal.
  rewrite List.filter_app. cbn [List.filter filename isoData].
  rewrite String.eqb_refl. cbn [negb]. rewrite app_nil_r.
  clear Hc H1 H2. induction Hall as [|r l Hr _ IH]; simpl; [reflexivity|].
  unfold unrelated, hasFilename in Hr. apply andb_true_iff in Hr as [Hr _].
  rewrite Hr. now f_equal.
Qed.

Lemma add_then_remove_restores_witness :
  (c1 ← addIsoToJson "t1" pointRelease "ubuntu-22.04.3-desktop-amd64.iso" "ab" 7
                     (Doc (Some [entryOf "debian-12.iso"]));
   removeIsoFromJson "ubuntu-22.04.3-desktop-amd64.iso" c1)
  = Return (Doc (Some [entryOf "debian-12.iso"])).
Proof.
  apply (add_then_remove_restores
           "t1" pointRelease "ubuntu-22.04.3-desktop-amd64.iso" "ab" 7
           (Doc (Some [entryOf "debian-12.iso"])) [entryOf "debian-12.iso"]).
  - reflexivity.
  - repeat constructor.
Defined.
End CatalogRoundTrips.

(* ------------------------------------------------------------------ *)
(** ** The order of versions *)

Section VersionOrder.
Import JSString JSNumber Server.
Local Open Scope Z_scope.

Lemma gt_asym (a b : number) : gt a b = true -> gt b a = false.
Proof.
  destruct a as [x| | | |m k], b as [y| | | |m' k']; cbn [gt];
    try reflexivity; try discriminate;
    intros H; apply Z.ltb_lt in H; apply Z.ltb_ge; lia.
Qed.

Lemma compareLoop_swap (p1 p2 : list number) (n i : nat) :
  compareLoop p2 p1 i n = - compareLoop p1 p2 i n.
Proof.
  revert i. induction n as [|n IH]; intros i; cbn [compareLoop]; [reflexivity|].
  set (a := if Nat.ltb i (length p1) then nth i p1 (Fin 0) else Fin 0).
  set (b := if Nat.ltb i (length p2) then nth i p2 (Fin 0) else Fin 0).
  unfold lt.
  destruct (gt a b) eqn:Eab.
  - rewrite (gt_asym _ _ Eab). reflexivity.
  - destruct (gt b a); [reflexivity | apply IH].
Qed.

Lemma compareLoop_sign (p1 p2 : list number) (n i : nat) :
  compareLoop p1 p2 i n = -1 \/ compareLoop p1 p2 i n = 0 \/ compareLoop p1 p2 i n = 1.
Proof.
  revert i. induction n as [|n IH]; intros i; cbn [compareLoop]; [auto|].
  destruct (gt _ _); [auto|]. destruct (lt _ _); [auto|]. apply IH.
Qed.

(** X6 ([compareVersions], server script lines 780-798): the comparison
    is antisymmetric.  Its result is -1, 0 or 1, and exchanging the two
    versions exchanges -1 and 1. *)
Theorem compareVersions_antisymmetric (v1 v2 : string) (c : Z) :
  compareVersions v1 v2 = Return c ->
  compareVersions v2 v1 = Return (- c) /\ (c = -1 \/ c = 0 \/ c = 1).
Proof.
  unfold compareVersions.
  destruct (mapM Number (split DOT v1)) as [p1| |]; try discriminate.
  destruct (mapM Number (split DOT v2)) as [p2| |]; try discriminate.
  cbn. intros [= <-]. split.
  - rewrite Nat.max_comm. f_equal. apply compareLoop_swap.
  - apply compareLoop_sign.
Qed.

Lemma compareVersions_antisymmetric_witness :
  compareVersions "22.04" "22.04.3" = Return (- 1)
  /\ (1 = -1 \/ 1 = 0 \/ 1 = 1).
Proof.
  apply (compareVersions_antisymmetric "22.04.3" "22.04" 1).
  vm_compute. reflexivity.
Defined.
End VersionOrder.

Section VersionPadding.
Import JSString JSNumber Server.

Lemma splitChars_last (sep z : ascii) (l cur : list ascii) :
  Ascii.eqb z sep = false ->
  splitChars sep (l ++ [sep; z]) cur = splitChars sep l cur ++ [[z]].
Proof.
  intros Hz. revert cur. induction l as [|c l IH]; intros cur; simpl.
  - rewrite Ascii.eqb_refl, Hz. reflexivity.
  - destruct (Ascii.eqb c sep); simpl; now rewrite IH.
Qed.

Lemma split_dot_zero (v : string) : split DOT (v +:+ ".0") = split DOT v ++ ["0"].
Proof.
  unfold split. rewrite chars_append.
  change (chars ".0") with [DOT; "0"%char].
  rewrite splitChars_last by reflexivity. now rewrite map_app.
Qed.

Lemma mapM_app {A B} (f : A -> completion B) (l l' : list A) :
  mapM f (l ++ l') = (ys ← mapM f l; ys' ← mapM f l'; Return (ys ++ ys')).
Proof.
  induction l as [|x l IH]; simpl.
  - destruct (mapM f l'); reflexivity.
  - destruct (f x); simpl; try reflexivity. rewrite IH.
    destruct (mapM f l); simpl; try reflexivity.
    destruct (mapM f l'); reflexivity.
Qed.

Lemma component_pad (p : list number) (i : nat) :
  (if Nat.ltb i (length (p ++ [Fin 0])) then nth i (p ++ [Fin 0]) (Fin 0) else Fin 0)
  = (if Nat.ltb i (length p) then nth i p (Fin 0) else Fin 0).
Proof.
  rewrite length_app. simpl.
  destruct (Nat.ltb_spec i (length p)) as [H|H].
  - assert (Nat.ltb i (length p + 1) = true) as -> by (apply Nat.ltb_lt; lia).
    now apply app_nth1.
  - destruct (Nat.ltb i (length p + 1)); [|reflexivity].
    rewrite app_nth2 by lia.
    destruct (i - length p)%nat as [|[|k]]; reflexivity.
Qed.

Lemma compareLoop_pad (p1 p2 : list number) (n i : nat) :
  compareLoop (p1 ++ [Fin 0]) p2 i n = compareLoop p1 p2 i n.
Proof.
  revert i. induction n as [|n IH]; intros i; cbn [compareLoop]; [reflexivity|].
  rewrite component_pad, IH. reflexivity.
Qed.

Lemma compareLoop_beyond (p1 p2 : list number) (n i : nat) :
  (Nat.max (length p1) (length p2) <= i + n)%nat ->
  compareLoop p1 p2 i (S n) = compareLoop p1 p2 i n.
Proof.
  revert i. induction n as [|n IH]; intros i H.
  - cbn [compareLoop].
    assert (Nat.ltb i (length p1) = false) as -> by (apply Nat.ltb_ge; lia).
    assert (Nat.ltb i (length p2) = false) as -> by (apply Nat.ltb_ge; lia).
    reflexivity.
  - cbn [compareLoop]. cbn [compareLoop] in IH.
    rewrite IH by lia. reflexivity.
Qed.

Lemma compareLoop_pad_max (p1 p2 : list number) :
  compareLoop (p1 ++ [Fin 0]) p2 0 (Nat.max (length (p1 ++ [Fin 0])) (length p2))
  = compareLoop p1 p2 0 (Nat.max (length p1) (length p2)).
Proof.
  rewrite compareLoop_pad, length_app. simpl.
  destruct (Nat.le_gt_cases (length p2) (length p1)) as [H|H].
  - replace (Nat.max (length p1 + 1) (length p2)) with (S (Nat.max (length p1) (length p2)))
      by lia.
    apply compareLoop_beyond. lia.
  - f_equal. lia.
Qed.

(** X7 ([compareVersions], server script lines 780-798): a component
    that is missing counts as 0, so a trailing ".0" is of no
    consequence: with or without it, a version compares alike with
    every other one, on either side. *)
Theorem compareVersions_ignores_trailing_zero (v w : string) :
  compareVersions (v +:+ ".0") w = compareVersions v w
  /\ compareVersions w (v +:+ ".0") = compareVersions w v.
Proof.
  unfold compareVersions. rewrite split_dot_zero, mapM_app.
  change (mapM Number ["0"]) with (@Return (list number) [Fin 0]).
  destruct (mapM Number (split DOT v)) as [p1| |];
    destruct (mapM Number (split DOT w)) as [p2| |]; cbn; try (split; reflexivity).
  split; f_equal.
  - apply compareLoop_pad_max.
  - rewrite (compareLoop_swap (p1 ++ [Fin 0]) p2), (compareLoop_swap p1 p2).
    rewrite (Nat.max_comm (length p2) (length (p1 ++ [Fin 0]))).
    rewrite (Nat.max_comm (length p2) (length p1)).
    now rewrite compareLoop_pad_max.
Qed.
End VersionPadding.

(* ------------------------------------------------------------------ *)
(** ** Marking the listing, deleting and recording *)

Section Marking.
Import JSString Server Examples.

Lemma mapM_Return_Forall2 {A B} (f : A -> completion B) (l : list A) (out : list B) :
  mapM f l = Return out -> Forall2 (fun x y => f x = Return y) l out.
Proof.
  revert out. induction l as [|x l IH]; intros out; simpl.
  - intros [= <-]. constructor.
  - destruct (f x) as [y| |] eqn:Ex; try discriminate. simpl.
    destruct (mapM f l) as [ys| |]; try discriminate. simpl.
    intros [= <-]. constructor; [exact Ex | now apply IH].
Qed.

Lemma updateCheck_unmatched (d : Details) (isoFilename : string)
      (data : option IsoRecord) (exact : bool)
      (statSize : string -> option Z) (matchedFile : option string) :
  truthyOpt matchedFile = None ->
  updateCheck d isoFilename matchedFile data exact statSize = Return false.
Proof. unfold updateCheck. now intros ->. Qed.

(** X8 ([markArchivedIsos], server script lines 613-751): marking only
    marks.  The listing it returns has the names of the listing it was
    given, in their order, and the URL, the version and the size of
    every entry are untouched; and an entry that comes in unflagged is
    never flagged as an update unless it is also marked as being in the
    archive. *)
Theorem markArchivedIsos_only_marks
        (URL_pathname : string -> option string)
        (archive : option (list string)) (statSize : string -> option Z)
        (catalog : catalogFile) (isoList out : list (string * Details)) :
  markArchivedIsos URL_pathname archive statSize catalog isoList = Return out ->
  Forall2 (fun e o =>
             fst o = fst e
             /\ d_url (snd o) = d_url (snd e)
             /\ d_version (snd o) = d_version (snd e)
             /\ d_size (snd o) = d_size (snd e)
             /\ (d_updateAvailable (snd e) = false ->
                 d_updateAvailable (snd o) = true -> d_inArchive (snd o) = true))
          isoList out.
Proof.
  assert (Hsame : Forall2 (fun e o : string * Details =>
             fst o = fst e
             /\ d_url (snd o) = d_url (snd e)
             /\ d_version (snd o) = d_version (snd e)
             /\ d_size (snd o) = d_size (snd e)
             /\ (d_updateAvailable (snd e) = false ->
                 d_updateAvailable (snd o) = true -> d_inArchive (snd o) = true))
          isoList isoList).
  { induction isoList as [|e l IH]; constructor; [|exact IH].
    repeat split. intros H1 H2. congruence. }
  unfold markArchivedIsos.
  destruct archive as [files|]; [|now intros [= <-]].
  destruct (readIsos catalog) as [isos|]; [|now intros [= <-]].
  destruct (mapM _ isoList) as [marked| |] eqn:Em; [|now intros [= <-] | discriminate].
  intros [= <-]. clear Hsame.
  apply mapM_Return_Forall2 in Em.
  induction Em as [|e o l l' Heo _ IH]; constructor; [|exact IH].
  unfold markEntry in Heo.
  destruct (URL_pathname (d_url (snd e))) as [pathname|]; [|discriminate].
  cbv zeta in Heo.
  destruct (locate files isos (fst e) (Path.basename pathname))
    as [[matchedFile data] exact].
  destruct (updateCheck (snd e) (Path.basename pathname) matchedFile data exact statSize)
    as [flag| |] eqn:Eu; try discriminate.
  cbn in Heo. injection Heo as <-. cbn. repeat split.
  intros _ ->.
  destruct (truthyOpt matchedFile) eqn:Et; [reflexivity|].
  rewrite (updateCheck_unmatched _ _ _ _ _ _ Et) in Eu. discriminate.
Qed.

Lemma markArchivedIsos_only_marks_witness :
  Forall2 (fun e o =>
             fst o = fst e
             /\ d_url (snd o) = d_url (snd e)
             /\ d_version (snd o) = d_version (snd e)
             /\ d_size (snd o) = d_size (snd e)
             /\ (d_updateAvailable (snd e) = false ->
                 d_updateAvailable (snd o) = true -> d_inArchive (snd o) = true))
          [("Ubuntu 22.04 Desktop", sameVersionOtherSize)]
          [("Ubuntu 22.04 Desktop",
            {| d_url := "https://releases.example/22.04/ubuntu-22.04-desktop-amd64.iso";
               d_version := "22.04";
               d_size := 4194304;
               d_inArchive := true;
               d_updateAvailable := true;
               d_filename := Some "ubuntu-22.04-desktop-amd64.iso" |})].
Proof.
  apply (markArchivedIsos_only_marks
           pathAfterHost
           (Some ["ubuntu-22.04-desktop-amd64.iso"]) (fun _ => Some 2097152%Z)
           (Doc (Some [olderUbuntu])) [("Ubuntu 22.04 Desktop", sameVersionOtherSize)]).
  vm_compute. reflexivity.
Defined.
End Marking.

Section DeletingTwice.
Import JSString FS Server CatalogSpec Examples.



(** X10 ([deleteArchiveIso], command-line tool, part_003 lines
    1697-1736): after a deletion that went through, the catalog has no
    entry left whose file name or whose name is the name given, and the
    same command run again exits with code 1 and changes nothing. *)
Theorem deleteArchiveIso_forgets_and_cannot_repeat
        (cwd : string) (isoArchive : option string) (filename : string)
        (st st' : state) :
  Cli.deleteArchiveIso cwd isoArchive filename st = (Cli.Completed, st') ->
  Forall (fun r => Server.filename r <> filename /\ Server.name r <> filename)
         (entries (catalog st'))
  /\ Cli.deleteArchiveIso cwd isoArchive filename st' = (Cli.Exited 1, st').
Proof.
  unfold Cli.deleteArchiveIso.
  set (archivePath := Path.resolve cwd _).
  set (p := Path.join archivePath filename).
  destruct (negb (startsWith p archivePath)); [discriminate|].
  destruct (negb (existsSync (fs st) p)); [discriminate|].
  unfold unlinkSync. destruct (fs st !! p) as [[content|]|]; try discriminate.
  intros [= <-]. cbn [fs catalog]. split.
  - unfold Cli.forget. destruct (catalog st) as [| |[isos|]]; cbn [entries];
      try constructor.
    apply List.Forall_forall. intros r Hr. apply filter_In in Hr as [_ Hr].
    apply andb_true_iff in Hr as [H1 H2].
    apply negb_true_iff in H1, H2. apply String.eqb_neq in H1, H2. auto.
  - unfold existsSync. rewrite lookup_delete_eq. reflexivity.
Qed.

Lemma deleteArchiveIso_forgets_and_cannot_repeat_witness :
  Forall (fun r => Server.filename r <> "debian.iso" /\ Server.name r <> "debian.iso")
         (entries (catalog {| fs := ∅; catalog := Doc (Some [olderUbuntu]) |}))
  /\ Cli.deleteArchiveIso "/data" None "debian.iso"
                          {| fs := ∅; catalog := Doc (Some [olderUbuntu]) |}
     = (Cli.Exited 1, {| fs := ∅; catalog := Doc (Some [olderUbuntu]) |}).
Proof.
  apply (deleteArchiveIso_forgets_and_cannot_repeat
           "/data" None "debian.iso"
           {| fs := {[ "/data/ISO-Archive/debian.iso" := File [Byte.x01] ]};
              catalog := Doc (Some [entryOf "debian.iso"; olderUbuntu]) |}).
  vm_compute. reflexivity.
Defined.

(** X11 ([updateIsosJson], command-line tool, part_003 lines 1821-1840):
    removing undoes adding.  Removing an entry after adding it leaves
    what removing alone leaves, which for a catalog without an entry of
    that file name is the catalog itself; and after a removal no entry
    has that file name. *)
Theorem updateIsosJson_remove_undoes_add (meta : IsoRecord) (c : catalogFile) :
  Cli.updateIsosJson meta true (Cli.updateIsosJson meta false c)
  = Cli.updateIsosJson meta true c
  /\ Forall (fun r => filename r <> filename meta)
            (entries (Cli.updateIsosJson meta true c))
  /\ forall isos,
      c = Doc (Some isos) ->
      Forall (fun r => filename r <> filename meta) isos ->
      Cli.updateIsosJson meta true (Cli.updateIsosJson meta false c) = c.
Proof.
  assert (Hgone : forall l,
             Forall (fun r => filename r <> filename meta)
                    (List.filter (fun i => negb (String.eqb (filename i) (filename meta))) l)).
  { intros l. apply List.Forall_forall. intros r Hr. apply filter_In in Hr as [_ Hr].
    now apply negb_true_iff, String.eqb_neq in Hr. }
  assert (Hadd : forall l,
             List.filter (fun i => negb (String.eqb (filename i) (filename meta)))
                         (List.filter (fun i => negb (String.eqb (filename i) (filename meta))) l
                          ++ [meta])
             = List.filter (fun i => negb (String.eqb (filename i) (filename meta))) l).
  { intros l. rewrite List.filter_app, filter_idem. cbn [List.filter].
    rewrite String.eqb_refl. cbn [negb]. apply app_nil_r. }
  split; [|split].
  - destruct c as [| |[isos|]]; cbn [Cli.updateIsosJson]; try reflexivity.
    all: now rewrite Hadd.
  - destruct c as [| |[isos|]]; cbn [Cli.updateIsosJson entries]; try constructor.
    apply Hgone.
  - intros isos -> Hnone. cbn [Cli.updateIsosJson]. rewrite Hadd. do 2 f_equal.
    induction Hnone as [|r l Hr _ IH]; cbn [List.filter]; [reflexivity|].
    apply String.eqb_neq in Hr. rewrite Hr. cbn [negb]. now f_equal.
Qed.

Lemma updateIsosJson_remove_undoes_add_witness :
  Cli.updateIsosJson (entryOf "debian-12.iso") true
                     (Cli.updateIsosJson (entryOf "debian-12.iso") false
                                         (Doc (Some [olderUbuntu])))
  = Doc (Some [olderUbuntu]).
Proof.
  apply (proj2 (proj2 (updateIsosJson_remove_undoes_add
                         (entryOf "debian-12.iso") (Doc (Some [olderUbuntu]))))
               [olderUbuntu] eq_refl).
  repeat constructor. discriminate.
Defined.
End DeletingTwice.

(* ------------------------------------------------------------------ *)
(** ** The matcher on patterns of one character and on literal texts *)

Section MatcherFacts.
Import JSString RegExp.

Lemma skipn_cons_nth {A} (s : list A) (i : nat) (c : A) :
  nth_error s i = Some c -> skipn i s = c :: skipn (S i) s.
Proof.
  revert i. induction s as [|a s IH]; intros [|i] H; simpl in *; try discriminate.
  - now injection H as <-.
  - now apply IH.
Qed.

Lemma skipn_nil_nth {A} (s : list A) (i : nat) :
  nth_error s i = None -> skipn i s = [].
Proof.
  revert i. induction s as [|a s IH]; intros [|i] H; simpl in *; try discriminate;
    auto.
Qed.

Variable icase : bool.
Variable r : regex.
Variable p : ascii -> bool.
Hypothesis r_single : forall st k, rmatch icase r st k = step1 p st k.

(** A pattern that stands for one character matches at a position
    exactly when the character there is one of its characters. *)
Lemma match_at_single (s : list ascii) (i : nat) :
  match_at icase r s i
  = match nth_error s i with
    | Some c => if p c then Some (MatchResult i [c] []) else None
    | None => None
    end.
Proof.
  unfold match_at. rewrite r_single. unfold step1. cbn [rest pos caps].
  destruct (nth_error s i) as [c|] eqn:E.
  - rewrite (skipn_cons_nth _ _ _ E). destruct (p c); [|reflexivity].
    cbn [pos caps]. replace (S i - i) with 1 by lia. reflexivity.
  - now rewrite (skipn_nil_nth _ _ E).
Qed.

(** The leftmost match of such a pattern from position [i] on. *)
Lemma search_from_single (s : list ascii) (n : nat) :
  forall i, length s - i = n ->
    (search_from icase r s i n = None
     /\ forallb (fun c => negb (p c)) (skipn i s) = true)
    \/ exists pre c post,
        skipn i s = pre ++ c :: post
        /\ forallb (fun c => negb (p c)) pre = true
        /\ p c = true
        /\ search_from icase r s i n = Some (MatchResult (i + length pre) [c] []).
Proof.
  induction n as [|n IH]; intros i Hn; cbn [search_from]; rewrite match_at_single.
  - destruct (nth_error s i) as [c|] eqn:E.
    + assert (i < length s) by (apply nth_error_Some; congruence). lia.
    + left. now rewrite (skipn_nil_nth _ _ E).
  - destruct (nth_error s i) as [c|] eqn:E.
    + rewrite (skipn_cons_nth _ _ _ E). destruct (p c) eqn:Ep.
      * right. exists [], c, (skipn (S i) s). cbn. rewrite Nat.add_0_r. auto.
      * destruct (IH (S i) ltac:(lia)) as [[H1 H2] | (pre & c' & post & H1 & H2 & H3 & H4)].
        -- left. cbn. now rewrite Ep, H2.
        -- right. exists (c :: pre), c', post. cbn. rewrite Ep, H1, H2, H4.
           replace (i + S (length pre)) with (S i + length pre) by lia. auto.
    + apply nth_error_None in E. lia.
Qed.

Variable f : match_result -> list ascii.
Variable g : ascii -> list ascii.
Hypothesis f_text : forall i c, f (MatchResult i [c] []) = g c.

Lemma flat_map_unmatched (l : list ascii) :
  forallb (fun c => negb (p c)) l = true ->
  flat_map (fun c => if p c then g c else [c]) l = l.
Proof.
  induction l as [|c l IH]; cbn; [reflexivity|].
  intros H. apply andb_true_iff in H as [Hc Hl].
  apply negb_true_iff in Hc. rewrite Hc. cbn. now rewrite IH.
Qed.

(** Replacing every match of a pattern that stands for one character
    rewrites the text character by character. *)
Lemma replace_from_single (s : list ascii) (fuel : nat) :
  forall i, length s - i <= fuel ->
    replace_from icase r f s i fuel
    = flat_map (fun c => if p c then g c else [c]) (skipn i s).
Proof.
  induction fuel as [|fuel IH]; intros i H; cbn [replace_from].
  - rewrite skipn_all2 by lia. reflexivity.
  - destruct (search_from_single s (length s - i) i eq_refl)
      as [[H1 H2] | (pre & c & post & H1 & H2 & H3 & H4)].
    + rewrite H1. now rewrite flat_map_unmatched.
    + rewrite H4. cbn [m_text m_index length].
      assert (Hlen : length s - i = length pre + S (length post)).
      { rewrite <- length_skipn, H1, length_app. reflexivity. }
      rewrite f_text, IH by lia.
      replace (i + length pre - i) with (length pre) by lia.
      replace (i + length pre + 1) with (S (length pre) + i) by lia.
      rewrite <- skipn_skipn, H1.
      rewrite firstn_app, Nat.sub_diag, firstn_all, firstn_O, app_nil_r.
      change (S (length pre)) with (1 + length pre).
      rewrite <- (skipn_skipn 1 (length pre)), skipn_app, skipn_all, Nat.sub_diag.
      cbn [app skipn].
      rewrite flat_map_app. cbn [flat_map]. rewrite H3, (flat_map_unmatched _ H2).
      reflexivity.
Qed.

Lemma replace_all_single (s : string) :
  replace_all icase r f s
  = str (flat_map (fun c => if p c then g c else [c]) (chars s)).
Proof.
  unfold replace_all. rewrite replace_from_single by lia. reflexivity.
Qed.
End MatcherFacts.

Section EscapeFacts.
Import JSString RegExp PatternSpec.

Lemma escape_class :
  literal "[.*+?^${}()|[\]\\]"
  = RSeq REmpty
         (RClass false
            (map CChar (chars ".*+?^${}()|[]\"))).
Proof. vm_compute. reflexivity. Qed.

Lemma escape_class_single (st : mstate) (k : mstate -> option mstate) :
  rmatch false (literal "[.*+?^${}()|[\]\\]") st k = step1 isSpecial st k.
Proof.
  rewrite escape_class. cbn [rmatch]. unfold step1.
  destruct (rest st) as [|c cs]; [reflexivity|].
  replace (xorb false (existsb (fun it => item_matches false it c)
                               (map CChar (chars ".*+?^${}()|[]\"))))
    with (isSpecial c); [reflexivity|].
  destruct c as [[] [] [] [] [] [] [] []]; reflexivity.
Qed.

Lemma escapeRegExp_escaped (s : string) :
  IsoManagerHash.escapeRegExp s = str (escaped (chars s)).
Proof.
  unfold IsoManagerHash.escapeRegExp, escaped.
  apply (replace_all_single false _ isSpecial escape_class_single
                            _ (fun c => ["\"%char; c])).
  reflexivity.
Qed.

(** After an escaped text no quantifier can follow: the text starts with
    a backslash or with a character that is not special. *)
Lemma parse_quantifier_escaped (cs : list ascii) :
  parse_quantifier (escaped cs) = Ok (None, escaped cs).
Proof.
  destruct cs as [|c cs]; [reflexivity|].
  unfold escaped. cbn [flat_map].
  destruct c as [[] [] [] [] [] [] [] []]; reflexivity.
Qed.

(** One character of an escaped text is read as that character. *)
Lemma parse_escaped_char (fuel : nat) (acc : regex) (c : ascii) (t : list ascii) (n : nat) :
  parse (S fuel) (GAlternative acc) (escaped [c] ++ t) n
  = match parse_quantifier t with
    | Err e => Err e
    | Ok (q, t') => parse fuel (GAlternative (RSeq acc (quantified (RChar c) q))) t' n
    end.
Proof.
  destruct c as [[] [] [] [] [] [] [] []]; reflexivity.
Qed.

Lemma escaped_cons (c : ascii) (cs : list ascii) :
  escaped (c :: cs) = escaped [c] ++ escaped cs.
Proof. unfold escaped. cbn [flat_map]. now rewrite app_nil_r. Qed.

Lemma parse_escaped (cs : list ascii) :
  forall (fuel : nat) (acc : regex) (n : nat),
    length cs < fuel ->
    parse fuel (GAlternative acc) (escaped cs) n
    = Ok (fold_left (fun a c => RSeq a (RChar c)) cs acc, [], n).
Proof.
  induction cs as [|c cs IH]; intros fuel acc n H.
  - destruct fuel; [lia | reflexivity].
  - destruct fuel as [|fuel]; [lia|].
    rewrite escaped_cons, parse_escaped_char, parse_quantifier_escaped.
    cbn [quantified fold_left]. apply IH. cbn in H. lia.
Qed.

Lemma length_escaped (cs : list ascii) : length cs <= length (escaped cs).
Proof.
  induction cs as [|c cs IH]; [reflexivity|].
  rewrite escaped_cons, length_app. cbn [escaped flat_map].
  destruct (isSpecial c); cbn; lia.
Qed.

(** The escaped text is a pattern, and it stands for the text. *)
Lemma compile_escaped (cs : list ascii) :
  compile (str (escaped cs)) = Ok (literalText cs).
Proof.
  unfold compile. rewrite chars_str.
  pose proof (length_escaped cs) as Hlen.
  assert (Hfuel : exists fuel, 2 * length (escaped cs) + 2 = S fuel /\ length cs < fuel)
    by (exists (S (2 * length (escaped cs))); lia).
  destruct Hfuel as (fuel & -> & Hfuel).
  cbn [parse]. rewrite (parse_escaped cs fuel REmpty 0 Hfuel).
  reflexivity.
Qed.

Lemma isPrefix_snoc (cs : list ascii) (c : ascii) (l : list ascii) :
  isPrefix (cs ++ [c]) l
  = isPrefix cs l
    && match skipn (length cs) l with
       | x :: _ => Ascii.eqb c x
       | [] => false
       end.
Proof.
  revert l. induction cs as [|a cs IH]; intros [|b l]; cbn; try reflexivity.
  - now rewrite andb_true_r.
  - rewrite IH. now rewrite andb_assoc.
Qed.

Lemma skipn_S_of_cons {A} (n : nat) (l : list A) (x : A) (t : list A) :
  skipn n l = x :: t -> skipn (S n) l = t.
Proof.
  intros H. change (S n) with (1 + n). now rewrite <- skipn_skipn, H.
Qed.

(** The matcher on a literal text: the text must be in front. *)
Lemma rmatch_literalText (cs : list ascii) :
  forall (st : mstate) (k : mstate -> option mstate),
    rmatch false (literalText cs) st k
    = if isPrefix cs (rest st)
      then k (MState (pos st + length cs) (skipn (length cs) (rest st)) (caps st))
      else None.
Proof.
  unfold literalText.
  induction cs as [|c cs IH] using rev_ind; intros st k.
  - destruct st as [i l cps]. cbn. now rewrite Nat.add_0_r.
  - rewrite fold_left_app. cbn [fold_left rmatch]. rewrite IH.
    rewrite isPrefix_snoc. destruct (isPrefix cs (rest st)); [|reflexivity].
    unfold step1. cbn [rest pos caps andb canon].
    destruct (skipn (length cs) (rest st)) as [|x t] eqn:E; [reflexivity|].
    destruct (Ascii.eqb c x); [|reflexivity].
    rewrite length_app. cbn [length].
    replace (pos st + (length cs + 1)) with (S (pos st + length cs)) by lia.
    replace (length cs + 1) with (S (length cs)) by lia.
    now rewrite (skipn_S_of_cons _ _ _ _ E).
Qed.

Lemma match_at_literalText (cs s : list ascii) (i : nat) :
  match_at false (literalText cs) s i
  = if isPrefix cs (skipn i s)
    then Some (MatchResult i (firstn (length cs) (skipn i s)) [])
    else None.
Proof.
  unfold match_at. rewrite rmatch_literalText. cbn [rest pos caps].
  destruct (isPrefix cs (skipn i s)); [|reflexivity].
  cbn [pos caps]. now replace (i + length cs - i) with (length cs) by lia.
Qed.

Lemma search_from_literalText (cs s : list ascii) (n : nat) :
  forall i, length s - i = n ->
    match search_from false (literalText cs) s i n with
    | Some _ => true
    | None => false
    end = isInfix cs (skipn i s).
Proof.
  induction n as [|n IH]; intros i Hn; cbn [search_from];
    rewrite match_at_literalText.
  - rewrite (skipn_all2 s) by lia.
    destruct cs; reflexivity.
  - destruct (nth_error s i) as [c|] eqn:E.
    + rewrite (skipn_cons_nth _ _ _ E). cbn [isInfix].
      destruct (isPrefix cs (c :: skipn (S i) s)); [reflexivity|].
      cbn [orb]. apply IH. lia.
    + apply nth_error_None in E. lia.
Qed.

Lemma test_literalText (cs : list ascii) (t : string) :
  test false (literalText cs) t = includes t (str cs).
Proof.
  unfold test, exec, includes. rewrite chars_str.
  rewrite (search_from_literalText cs (chars t) (length (chars t)) 0) by lia.
  reflexivity.
Qed.
End EscapeFacts.

Section RepeatFacts.
Import JSString RegExp.

Lemma clear_caps_nil (cs : list (nat * list ascii)) : clear_caps [] cs = cs.
Proof.
  unfold clear_caps. induction cs as [|c cs IH]; cbn; [reflexivity|]. now f_equal.
Qed.

Variable icase : bool.
Variable x : regex.
Variable p : ascii -> bool.
Hypothesis x_single : forall st k, rmatch icase x st k = step1 p st k.

(** The end of the input after a repetition of a one-character pattern:
    greedy matching and backtracking come to asking whether all that is
    left belongs to the pattern. *)
Lemma repeat_to_end (fuel : nat) :
  forall (min : nat) (st : mstate),
    length (rest st) < fuel ->
    repeat_loop (rmatch icase x) [] min None fuel st
                (fun st' => match rest st' with [] => Some st' | _ :: _ => None end)
    = if forallb p (rest st) && (min <=? length (rest st))%nat
      then Some (MState (pos st + length (rest st)) [] (caps st))
      else None.
Proof.
  induction fuel as [|fuel IH]; intros min [i l cps] H; [lia|].
  cbn [repeat_loop rest pos caps] in *. rewrite x_single. unfold step1.
  cbn [rest pos caps]. rewrite clear_caps_nil.
  destruct l as [|c cs].
  - cbn. destruct min; cbn; [|reflexivity]. now rewrite Nat.add_0_r.
  - cbn [forallb length]. destruct (p c); cbn [andb].
    + assert (Nat.eqb (S i) i = false) as -> by (apply Nat.eqb_neq; lia).
      rewrite andb_false_r. cbn [option_map].
      rewrite IH by (cbn in *; lia). cbn [rest pos caps].
      replace (Nat.pred min <=? length cs)%nat with (min <=? S (length cs))%nat
        by (destruct min; reflexivity).
      replace (S i + length cs) with (i + S (length cs)) by lia.
      destruct (Nat.eqb min 0); [|reflexivity].
      now destruct (forallb p cs && (min <=? S (length cs))%nat).
    + now destruct (Nat.eqb min 0).
Qed.
End RepeatFacts.

Section AnchoredFacts.
Import JSString RegExp HexSpec.

Lemma search_from_none (icase : bool) (r : regex) (s : list ascii) (n : nat) :
  forall i, (forall j, i <= j -> match_at icase r s j = None) ->
            search_from icase r s i n = None.
Proof.
  induction n as [|n IH]; intros i H; cbn [search_from]; rewrite (H i) by lia;
    [reflexivity|].
  apply IH. intros j Hj. apply H. lia.
Qed.

Lemma search_from_anchored (icase : bool) (r : regex) (s : list ascii) (n : nat) :
  (forall j, 0 < j -> match_at icase r s j = None) ->
  search_from icase r s 0 n = match_at icase r s 0.
Proof.
  intros H. destruct n as [|n]; cbn [search_from];
    destruct (match_at icase r s 0); try reflexivity.
  apply search_from_none. intros j Hj. apply H. lia.
Qed.

Lemma hex_class :
  literal "^[0-9a-fA-F]+$"
  = RSeq (RSeq (RSeq REmpty RBol)
               (RRepeat (RClass false [CRange "0" "9"; CRange "a" "f"; CRange "A" "F"])
                        1 None))
         REol.
Proof. vm_compute. reflexivity. Qed.

Lemma hex_class_single (st : mstate) (k : mstate -> option mstate) :
  rmatch false (RClass false [CRange "0" "9"; CRange "a" "f"; CRange "A" "F"]) st k
  = step1 isHexDigit st k.
Proof.
  cbn [rmatch]. unfold step1. destruct (rest st) as [|c cs]; [reflexivity|].
  replace (xorb false (existsb (fun it => item_matches false it c)
                               [CRange "0" "9"; CRange "a" "f"; CRange "A" "F"]))
    with (isHexDigit c); [reflexivity|].
  unfold isHexDigit. cbn [existsb item_matches andb orb xorb].
  rewrite !orb_false_r. now rewrite orb_assoc.
Qed.

(** The test [/^[0-9a-fA-F]+$/.test(s)]. *)
Lemma test_hex (s : string) : test false (literal "^[0-9a-fA-F]+$") s = isHex s.
Proof.
  unfold test, exec. rewrite hex_class.
  rewrite search_from_anchored.
  - unfold match_at. cbn [rmatch pos rest caps Nat.eqb skipn].
    rewrite (repeat_to_end false _ isHexDigit hex_class_single) by (cbn; lia).
    cbn [rest]. unfold isHex. rewrite !skipn_O.
    destruct s as [|c s]; [reflexivity|].
    cbn [chars list_ascii_of_string length Nat.leb String.eqb negb andb].
    rewrite andb_true_r.
    now destruct (forallb isHexDigit (c :: list_ascii_of_string s)).
  - intros j Hj. unfold match_at. cbn [rmatch pos].
    destruct j; [lia | reflexivity].
Qed.
End AnchoredFacts.

Section PatternProperties.
Import JSString RegExp PatternSpec HexSpec Server.

(** X12 ([escapeRegExp], iso-manager.js:531-533): escaping puts a
    backslash in front of each of the fourteen special characters and
    leaves the rest of the text alone; what comes out is always a
    pattern that [new RegExp] accepts, and that pattern matches in a
    text exactly when the text contains the original string. *)
Theorem escapeRegExp_matches_literally (s t : string) :
  IsoManagerHash.escapeRegExp s = str (escaped (chars s))
  /\ exists r,
      RegExp_new (IsoManagerHash.escapeRegExp s) = Return r
      /\ test false r t = includes t s.
Proof.
  split; [apply escapeRegExp_escaped|].
  exists (literalText (chars s)). split.
  - unfold RegExp_new. now rewrite escapeRegExp_escaped, compile_escaped.
  - now rewrite test_literalText, str_chars.
Qed.

Lemma alnum_class :
  literal "[^a-z0-9]" = RSeq REmpty (RClass true [CRange "a" "z"; CRange "0" "9"]).
Proof. vm_compute. reflexivity. Qed.

Lemma alnum_class_single (st : mstate) (k : mstate -> option mstate) :
  rmatch false (literal "[^a-z0-9]") st k
  = step1 (fun c => negb (isLower c || isDigit c)) st k.
Proof.
  rewrite alnum_class. cbn [rmatch]. unfold step1.
  destruct (rest st) as [|c cs]; [reflexivity|].
  replace (xorb true (existsb (fun it => item_matches false it c)
                              [CRange "a" "z"; CRange "0" "9"]))
    with (negb (isLower c || isDigit c)); [reflexivity|].
  unfold isLower, isDigit. cbn [existsb item_matches andb orb xorb].
  now rewrite !orb_false_r.
Qed.

Lemma toLowerChar_toUpperChar (c : ascii) : toLowerChar (toUpperChar c) = toLowerChar c.
Proof. destruct c as [[] [] [] [] [] [] [] []]; reflexivity. Qed.

Lemma toLowerCase_toUpperCase (s : string) : toLowerCase (toUpperCase s) = toLowerCase s.
Proof.
  unfold toLowerCase, toUpperCase. rewrite chars_str, map_map. f_equal.
  apply map_ext. intros c. apply toLowerChar_toUpperChar.
Qed.

Lemma toLowerChar_idem (c : ascii) : toLowerChar (toLowerChar c) = toLowerChar c.
Proof. destruct c as [[] [] [] [] [] [] [] []]; reflexivity. Qed.

Lemma toLowerCase_idem (s : string) : toLowerCase (toLowerCase s) = toLowerCase s.
Proof.
  unfold toLowerCase. rewrite chars_str, map_map. f_equal.
  apply map_ext. intros c. apply toLowerChar_idem.
Qed.

(** X13 ([normalizeIsoName], server script lines 754-770): a normalized
    name is made of lower-case letters and digits only, and the letter
    case of the name it is made from does not matter. *)
Theorem normalizeIsoName_alphabet (name : string) :
  Forall (fun c => isLower c || isDigit c = true) (chars (normalizeIsoName name))
  /\ normalizeIsoName (toUpperCase name) = normalizeIsoName name
  /\ normalizeIsoName (toLowerCase name) = normalizeIsoName name.
Proof.
  split; [|split].
  - unfold normalizeIsoName.
    rewrite (replace_all_single false _ _ alnum_class_single erase (fun _ => []))
      by reflexivity.
    rewrite chars_str. apply List.Forall_forall. intros c Hc.
    apply in_flat_map in Hc as (x & _ & Hx).
    destruct (isLower x || isDigit x) eqn:E; cbn in Hx; [|contradiction].
    destruct Hx as [<-|[]]. exact E.
  - unfold normalizeIsoName. now rewrite toLowerCase_toUpperCase.
  - unfold normalizeIsoName. now rewrite toLowerCase_idem.
Qed.
End PatternProperties.

Section HashOnlyFile.
Import JSString RegExp HexSpec IsoHashVerifier.

(** X14 ([extractHashFromFile], iso-hash-verifier.js:23-73): for a
    checksum file that no line of which mentions the file name and that
    is not JSON, the answer is the content of the file, trimmed and in
    lower case, when that is one hexadecimal digit or more, whatever
    their number and whatever the algorithm; otherwise it is [null]. *)
Theorem verifier_hash_only_file
        (JSON_parse : string -> option json)
        (fileContent filename hashAlgorithm : string) :
  hashLine fileContent filename = None ->
  JSON_parse fileContent = None ->
  extractHashFromFile JSON_parse fileContent filename hashAlgorithm
  = Return (if isHex (trim fileContent)
            then VString (toLowerCase (trim fileContent))
            else VNull).
Proof.
  intros Hline Hjson. unfold extractHashFromFile, fromJson, hashOnlyFile.
  rewrite Hline, Hjson. cbn [mbind completion_bind]. rewrite test_hex.
  now destruct (isHex (trim fileContent)).
Qed.

Lemma verifier_hash_only_file_witness :
  extractHashFromFile (fun _ => None) " C0FFEE " "debian-12.iso" "sha256"
  = Return (if isHex (trim " C0FFEE ")
            then VString (toLowerCase (trim " C0FFEE "))
            else VNull).
Proof.
  apply (verifier_hash_only_file (fun _ => None) " C0FFEE " "debian-12.iso" "sha256").
  - reflexivity.
  - reflexivity.
Defined.
End HashOnlyFile.

(* ------------------------------------------------------------------ *)
(** ** The other scripts and the command-line tool *)

Section GetSizeFacts.
Import JSString Net DownloadSpec GetSize.


End GetSizeFacts.

Section DownloaderNetFacts.
Import JSString Net DownloadSpec DownloaderNet.



End DownloaderNetFacts.

Section CliVerifyFacts.
Import JSString FS Server CatalogSpec Examples CliVerify.



End CliVerifyFacts.

Section WatcherFacts.
Import JSString Watcher.
Local Open Scope Z_scope.

(** A call leaves under every key a time that is no earlier than the
    one it found, provided the clock is past the epoch. *)
Lemma shouldLog_table_grows (c : call) (table : gmap string Z) (key : string) (t0 : Z) :
  0 < c_now c -> 0 < t0 -> table !! key = Some t0 ->
  exists t1,
    snd (shouldLogWatcherEvent (c_filename c) (c_eventType c) (c_now c) table) !! key
    = Some t1 /\ t0 <= t1.
Proof.
  intros Hnow Ht0 Hkey. unfold shouldLogWatcherEvent.
  destruct (truthyOpt (c_filename c)) as [f|]; [|exists t0; split; [exact Hkey | lia]].
  destruct (negb (RegExp.test true _ f)); [exists t0; split; [exact Hkey | lia]|].
  cbv zeta.
  destruct (decide (c_eventType c +:+ ":" +:+ f = key)) as [Heq|Hne].
  - rewrite Heq, Hkey. unfold Server.truthyNum.
    assert ((t0 =? 0) = false) as -> by (apply Z.eqb_neq; lia). cbn [negb orb].
    destruct (5000 <? c_now c - t0) eqn:E; cbn [snd].
    + apply Z.ltb_lt in E. rewrite lookup_insert_eq. exists (c_now c). split; [reflexivity|lia].
    + exists t0. split; [exact Hkey | lia].
  - destruct (_ || _); cbn [snd].
    + rewrite lookup_insert_ne by exact Hne. exists t0. split; [exact Hkey | lia].
    + exists t0. split; [exact Hkey | lia].
Qed.

(** With a time under its key, a call is answered [true] only more than
    five seconds after that time, whatever the calls in between. *)
Lemma answers_after (calls : list call) :
  forall (table : gmap string Z) (f eventType : string) (t0 : Z) (j : nat) (tj : Z),
    Forall (fun c => 0 < c_now c) calls ->
    0 < t0 ->
    table !! (eventType +:+ ":" +:+ f) = Some t0 ->
    calls !! j = Some {| c_filename := Some f; c_eventType := eventType; c_now := tj |} ->
    answers calls table !! j = Some true ->
    5000 < tj - t0.
Proof.
  induction calls as [|c calls IH]; intros table f eventType t0 j tj Hpos Ht0 Hkey Hj Hans;
    [discriminate|].
  apply Forall_cons in Hpos as [Hc Hpos].
  destruct j as [|j].
  - cbn in Hj. injection Hj as ->. cbn in Hans. injection Hans as Hans.
    unfold shouldLogWatcherEvent in Hans. cbn [truthyOpt] in Hans.
    destruct (truthy f); [|discriminate].
    destruct (negb (RegExp.test true _ f)); [discriminate|].
    cbv zeta in Hans. rewrite Hkey in Hans. unfold Server.truthyNum in Hans.
    assert ((t0 =? 0) = false) as E0 by (apply Z.eqb_neq; lia).
    rewrite E0 in Hans. cbn [negb orb] in Hans.
    destruct (5000 <? tj - t0) eqn:E; [|discriminate]. now apply Z.ltb_lt in E.
  - cbn in Hj, Hans.
    destruct (shouldLog_table_grows c table _ t0 Hc Ht0 Hkey) as (t1 & Hkey1 & Hle).
    pose proof (IH _ f eventType t1 j tj Hpos ltac:(lia) Hkey1 Hj Hans). lia.
Qed.

(** X18 ([shouldLogWatcherEvent], command-line tool, part_003 lines
    1683-1694): the throttle holds over any sequence of calls.  With a
    clock that is past the epoch, two calls for the same file and the
    same kind of event that are both answered [true] are more than five
    seconds apart, whatever other calls come in between and whatever
    the table held at the start. *)
Theorem watcher_log_is_throttled (calls : list call) :
  forall (table : gmap string Z) (f eventType : string) (i j : nat) (ti tj : Z),
    Forall (fun c => 0 < c_now c) calls ->
    (i < j)%nat ->
    calls !! i = Some {| c_filename := Some f; c_eventType := eventType; c_now := ti |} ->
    calls !! j = Some {| c_filename := Some f; c_eventType := eventType; c_now := tj |} ->
    answers calls table !! i = Some true ->
    answers calls table !! j = Some true ->
    5000 < tj - ti.
Proof.
  induction calls as [|c calls IH];
    intros table f eventType i j ti tj Hpos Hij Hi Hj Hai Haj; [discriminate|].
  pose proof Hpos as Hpos'. apply Forall_cons in Hpos' as [Hc Hrest].
  destruct j as [|j]; [lia|]. destruct i as [|i].
  - (* the first call is the earlier one: it leaves its time in the table *)
    cbn in Hi. injection Hi as ->. cbn in Hai, Hj, Haj. injection Hai as Hai.
    cbn [c_now] in Hc.
    apply (answers_after calls
                         (snd (shouldLogWatcherEvent (Some f) eventType ti table))
                         f eventType ti j tj Hrest Hc); [|exact Hj|exact Haj].
    revert Hai. unfold shouldLogWatcherEvent. cbn [truthyOpt].
    destruct (truthy f); [|discriminate].
    destruct (negb (RegExp.test true _ f)); [discriminate|].
    cbv zeta. destruct (_ || _); [|discriminate].
    intros _. cbn [snd]. apply lookup_insert_eq.
  - cbn in Hi, Hj, Hai, Haj.
    apply (IH _ f eventType i j ti tj Hrest ltac:(lia) Hi Hj Hai Haj).
Qed.

Lemma watcher_log_is_throttled_witness :
  answers [ {| c_filename := Some "debian-12.iso"; c_eventType := "change";
               c_now := 1700000000000 |};
            {| c_filename := Some "debian-12.iso"; c_eventType := "change";
               c_now := 1700000003000 |};
            {| c_filename := Some "debian-12.iso"; c_eventType := "change";
               c_now := 1700000009000 |} ] ∅
  = [true; false; true]
  /\ 5000 < 1700000009000 - 1700000000000.
Proof.
  split; [vm_compute; reflexivity|].
  apply (watcher_log_is_throttled
           [ {| c_filename := Some "debian-12.iso"; c_eventType := "change";
                c_now := 1700000000000 |};
             {| c_filename := Some "debian-12.iso"; c_eventType := "change";
                c_now := 1700000003000 |};
             {| c_filename := Some "debian-12.iso"; c_eventType := "change";
                c_now := 1700000009000 |} ]
           ∅ "debian-12.iso" "change" 0%nat 2%nat).
  - repeat constructor.
  - lia.
  - reflexivity.
  - reflexivity.
  - vm_compute. reflexivity.
  - vm_compute. reflexivity.
Defined.
End WatcherFacts.

Section SelectIsoFacts.
Import JSString JSNumber JSParse Net SelectIso.
Local Open Scope Z_scope.

(** X19 ([selectIso] of iso-manager.js, lines 843-863): the prompt is
    repeated as long as the answers are numbers out of range, and it
    ends at the first answer that is not: with the entry of that number
    when it is a number from 1 to the length of the list, and with
    [undefined] when the answer is no number at all, since NaN passes
    the test of the loop. *)
Theorem selectIso_ends_at_first_answer_not_out_of_range
        {Iso : Type} (isos : list Iso) (skipped : list string) (answer : string)
        (rest : list string) (n : number) :
  Forall (fun a => exists k, parseInt a = Return (Fin k)
                             /\ (k < 1 \/ Z.of_nat (length isos) < k)) skipped ->
  parseInt answer = Return n ->
  (n = NaN \/ exists k, n = Fin k /\ 1 <= k <= Z.of_nat (length isos)) ->
  selectIso isos (skipped ++ answer :: rest)
  = Return (Resolved (match n with
                      | Fin k => nth_error isos (Z.to_nat (k - 1))
                      | _ => None
                      end)).
Proof.
  intros Hskip Hn Hcase. induction Hskip as [|a l (k & Ha & Hk) _ IH].
  - cbn [app selectIso]. rewrite Hn. cbn [mbind completion_bind].
    destruct Hcase as [-> | (k & -> & Hk)]; [reflexivity|].
    unfold lt. cbn [gt minus1 at_index].
    assert ((k <? 1) = false) as -> by (apply Z.ltb_ge; lia).
    assert ((Z.of_nat (length isos) <? k) = false) as -> by (apply Z.ltb_ge; lia).
    assert ((k - 1 <? 0) = false) as -> by (apply Z.ltb_ge; lia).
    reflexivity.
  - cbn [app selectIso]. rewrite Ha. cbn [mbind completion_bind].
    unfold lt. cbn [gt].
    destruct Hk as [Hk|Hk].
    + assert ((k <? 1) = true) as -> by (apply Z.ltb_lt; lia). exact IH.
    + assert ((Z.of_nat (length isos) <? k) = true) as -> by (apply Z.ltb_lt; lia).
      rewrite orb_true_r. exact IH.
Qed.

Lemma selectIso_ends_at_first_answer_not_out_of_range_witness :
  selectIso ["debian"; "ubuntu"] (["7"; "0"] ++ "two" :: ["2"])
  = Return (Resolved None).
Proof.
  apply (selectIso_ends_at_first_answer_not_out_of_range
           ["debian"; "ubuntu"] ["7"; "0"] "two" ["2"] NaN).
  - repeat constructor.
    + exists 7. split; [reflexivity | cbn; lia].
    + exists 0. split; [reflexivity | cbn; lia].
  - reflexivity.
  - now left.
Defined.

(** [parseInt] gives an integer or NaN. *)
Lemma parseInt_values (a : string) (n : number) :
  parseInt a = Return n -> n = NaN \/ exists k, n = Fin k.
Proof.
  unfold parseInt.
  destruct (takeWhile isDigit _) as [|c digits]; [intros [= <-]; now left|].
  destruct (Nat.ltb 20 (length (c :: digits))); [discriminate|].
  destruct (ofInteger (decimal (c :: digits))); try discriminate.
  intros [= <-]. right. eauto.
Qed.

(** Whatever the loop of the downloader resolves with is an entry of the
    list. *)
Lemma selectLoop_resolves_with_entry
      {Iso : Type} (isos : list Iso) (answers : list string) (o : option Iso) :
  selectLoop isos answers = Return (Resolved o) ->
  exists x, o = Some x /\ In x isos.
Proof.
  induction answers as [|a answers IH]; cbn [selectLoop]; [discriminate|].
  destruct (parseInt a) as [n| |] eqn:Ea; try discriminate.
  cbn [mbind completion_bind]. cbv zeta.
  destruct (parseInt_values a n Ea) as [-> | [k ->]]; cbn [minus1 orb]; [exact IH|].
  unfold lt. cbn [gt].
  destruct (k - 1 <? 0) eqn:E0; [exact IH|]. cbn [orb].
  destruct (k - 1 <? Z.of_nat (length isos)) eqn:E1; [|exact IH]. cbn [negb].
  intros [= <-]. cbn [at_index]. rewrite E0.
  apply Z.ltb_ge in E0. apply Z.ltb_lt in E1.
  destruct (nth_error isos (Z.to_nat (k - 1))) as [x|] eqn:Ex.
  - exists x. split; [reflexivity|]. eapply nth_error_In; eauto.
  - apply nth_error_None in Ex. lia.
Qed.

(** X20 ([selectIso] of the downloader module, server script lines
    1663-1693): the prompt of the downloader is repeated until an
    answer is a number from 1 to the length of the list, an answer that
    is no number being asked again like one out of range, and the
    promise resolves with the entry of that number.  So what it
    resolves with is always an entry of the list, never [undefined];
    and an empty list is refused before any question is asked. *)
Theorem downloaderSelectIso_returns_an_entry
        {Iso : Type} (isos : list Iso) (skipped : list string) (answer : string)
        (rest : list string) (k : Z) :
  Forall (fun a => exists n, parseInt a = Return n
                             /\ (n = NaN
                                 \/ exists j, n = Fin j
                                              /\ (j < 1 \/ Z.of_nat (length isos) < j)))
         skipped ->
  parseInt answer = Return (Fin k) ->
  1 <= k <= Z.of_nat (length isos) ->
  (exists x, nth_error isos (Z.to_nat (k - 1)) = Some x
             /\ downloaderSelectIso isos (skipped ++ answer :: rest)
                = Return (Resolved (Some x)))
  /\ (forall answers o,
         downloaderSelectIso isos answers = Return (Resolved o) ->
         exists x, o = Some x /\ In x isos)
  /\ (forall answers : list string,
         downloaderSelectIso (@nil Iso) answers
         = Return (Rejected (Error "No ISOs available"))).
Proof.
  intros Hskip Hk Hrange. split; [|split; [|reflexivity]].
  - destruct (nth_error isos (Z.to_nat (k - 1))) as [x|] eqn:Ex;
      [|apply nth_error_None in Ex; lia].
    exists x. split; [reflexivity|].
    unfold downloaderSelectIso. destruct isos as [|x0 isos0]; [cbn in Hrange; lia|].
    revert Ex Hrange Hskip. generalize (x0 :: isos0) as isos. intros isos Ex Hrange Hskip.
    induction Hskip as [|a l (n & Ha & Hn) _ IH].
    + cbn [app selectLoop]. rewrite Hk. cbn [mbind completion_bind minus1 orb].
      unfold lt. cbn [gt at_index].
      assert ((k - 1 <? 0) = false) as -> by (apply Z.ltb_ge; lia).
      assert ((k - 1 <? Z.of_nat (length isos)) = true) as -> by (apply Z.ltb_lt; lia).
      cbn [negb orb]. now rewrite Ex.
    + cbn [app selectLoop]. rewrite Ha. cbn [mbind completion_bind].
      destruct Hn as [-> | (j & -> & Hj)]; [exact IH|].
      cbn [minus1 orb]. unfold lt. cbn [gt].
      destruct Hj as [Hj|Hj].
      * assert ((j - 1 <? 0) = true) as -> by (apply Z.ltb_lt; lia). exact IH.
      * assert ((j - 1 <? Z.of_nat (length isos)) = false) as ->
            by (apply Z.ltb_ge; lia).
        cbn [negb]. rewrite orb_true_r. exact IH.
  - intros answers o. unfold downloaderSelectIso.
    destruct isos as [|x0 isos0]; [discriminate|].
    apply selectLoop_resolves_with_entry.
Qed.

Lemma downloaderSelectIso_returns_an_entry_witness :
  (exists x, nth_error ["debian"; "ubuntu"] (Z.to_nat (2 - 1)) = Some x
             /\ downloaderSelectIso ["debian"; "ubuntu"] (["7"; "0"; "two"] ++ "2" :: ["1"])
                = Return (Resolved (Some x)))
  /\ (forall answers o,
         downloaderSelectIso ["debian"; "ubuntu"] answers = Return (Resolved o) ->
         exists x, o = Some x /\ In x ["debian"; "ubuntu"])
  /\ (forall answers : list string,
         downloaderSelectIso (@nil string) answers
         = Return (Rejected (Error "No ISOs available"))).
Proof.
  apply (downloaderSelectIso_returns_an_entry
           ["debian"; "ubuntu"] ["7"; "0"; "two"] "2" ["1"] 2).
  - repeat constructor.
    + exists (Fin 7). split; [reflexivity|]. right. exists 7. split; [reflexivity | cbn; lia].
    + exists (Fin 0). split; [reflexivity|]. right. exists 0. split; [reflexivity | cbn; lia].
    + exists NaN. split; [reflexivity | now left].
  - reflexivity.
  - cbn. lia.
Defined.
End SelectIsoFacts.

Section HashFilesFacts.
Import JSString Net HashFiles.

Lemma tryPatterns_never_finds
      (URL_resolve : string -> string -> option string) (web : string -> list exchange)
      (baseUrl : string) (patterns : list string) (filename hashAlgorithm : string) :
  match tryPatterns URL_resolve web baseUrl patterns filename hashAlgorithm with
  | Return (Resolved (Some _)) | Return (Rejected _) | Throw _ | Unmodelled => False
  | _ => True
  end.
Proof.
  induction patterns as [|pattern patterns IH]; cbn [tryPatterns]; [exact I|].
  cbv zeta.
  destruct (IsoManager.fetchData URL_resolve (web (baseUrl +:+ pattern))
                                 (baseUrl +:+ pattern) 5) as [|hashData|e|e];
    try exact I; try exact IH.
  destruct (extractHashFromFile_never_finds hashData filename hashAlgorithm) as [-> | ->];
    exact IH.
Qed.

(** What [findHashFile] resolves with. *)
Lemma findHashFile_resolves_empty
      (URL_resolve : string -> string -> option string)
      (URL_pathname : string -> option string) (web : string -> list exchange)
      (isoUrl hashAlgorithm hashMatch h : string) :
  findHashFile URL_resolve URL_pathname web isoUrl hashAlgorithm hashMatch
  = Return (Resolved h) ->
  h = "".
Proof.
  unfold findHashFile.
  destruct (parseUrl URL_pathname isoUrl) as [baseUrl filename].
  destruct (negb (truthy baseUrl) || negb (truthy filename)); [now intros [= <-]|].
  pose proof (tryPatterns_never_finds
                URL_resolve web baseUrl
                (distinct (candidates isoUrl filename hashAlgorithm hashMatch) [])
                filename hashAlgorithm) as H1.
  destruct (tryPatterns _ _ baseUrl _ _ _) as [[|[x|]|e|e]|e|]; try contradiction;
    cbn [mbind completion_bind]; try discriminate.
  destruct (Nat.ltb 2 _); [|now intros [= <-]].
  cbv zeta.
  match goal with
  | |- context [tryPatterns ?u ?w ?b ?p ?f ?a] =>
      pose proof (tryPatterns_never_finds u w b p f a) as H2;
      destruct (tryPatterns u w b p f a) as [[|[x|]|e|e]|e|]
  end; try contradiction; cbn [mbind completion_bind]; try discriminate.
  now intros [= <-].
Qed.

(** [fetchData] never leaves its promise pending, thanks to its
    timeout; the one exception that escapes from it is the one of
    [new URL] on a Location that it cannot resolve. *)
Lemma fetchData_settles
      (URL_resolve : string -> string -> option string) (net : list exchange) :
  forall (url : string) (maxRedirects : Z),
    match IsoManager.fetchData URL_resolve net url maxRedirects with
    | Pending => False
    | Uncaught e =>
        e = TypeError "Invalid URL" /\ exists t u, URL_resolve t u = None
    | _ => True
    end.
Proof.
  induction net as [|[m| |r chunks e] net IH]; intros url maxRedirects;
    cbn [IsoManager.fetchData]; try exact I.
  destruct (redirectsTo r) as [target|].
  - destruct (maxRedirects <=? 0)%Z; [exact I|].
    destruct (URL_resolve target url) eqn:Eu; [apply IH|]. split; eauto.
  - destruct (negb (statusCode r =? 200)%Z); [exact I|]. now destruct e.
Qed.

(** The loops over the candidate names come to their end without a
    hash, unless that exception escapes. *)
Lemma tryPatterns_outcome
      (URL_resolve : string -> string -> option string) (web : string -> list exchange)
      (baseUrl : string) (patterns : list string) (filename hashAlgorithm : string) :
  tryPatterns URL_resolve web baseUrl patterns filename hashAlgorithm
  = Return (Resolved None)
  \/ (tryPatterns URL_resolve web baseUrl patterns filename hashAlgorithm
      = Return (Uncaught (TypeError "Invalid URL"))
      /\ exists t u, URL_resolve t u = None).
Proof.
  induction patterns as [|pattern patterns IH]; cbn [tryPatterns]; [now left|].
  cbv zeta.
  pose proof (fetchData_settles URL_resolve (web (baseUrl +:+ pattern))
                                (baseUrl +:+ pattern) 5) as Hf.
  destruct (IsoManager.fetchData URL_resolve (web (baseUrl +:+ pattern))
                                 (baseUrl +:+ pattern) 5) as [|hashData|e|e];
    [destruct Hf | | exact IH | destruct Hf as [-> Hu]; now right].
  destruct (extractHashFromFile_never_finds hashData filename hashAlgorithm) as [-> | ->];
    exact IH.
Qed.

(** X21 ([findHashFile], iso-manager.js:374-467): the search for a
    checksum file never finds a hash.  Whatever names it tries and
    whatever the servers answer, every content that is fetched either
    is blank or makes [extractHashFromFile] throw, which the loop
    catches.  So the promise is never rejected and never resolved with
    a hash: either it resolves with the empty string, or the TypeError
    of [new URL] on the Location of a redirect escapes from the
    response handler of [fetchData], where nothing catches it.  When
    every Location can be resolved the promise resolves with the empty
    string. *)
Theorem findHashFile_never_finds
        (URL_resolve : string -> string -> option string)
        (URL_pathname : string -> option string) (web : string -> list exchange)
        (isoUrl hashAlgorithm hashMatch : string) :
  (findHashFile URL_resolve URL_pathname web isoUrl hashAlgorithm hashMatch
   = Return (Resolved "")
   \/ findHashFile URL_resolve URL_pathname web isoUrl hashAlgorithm hashMatch
      = Return (Uncaught (TypeError "Invalid URL")))
  /\ ((forall t u, exists v, URL_resolve t u = Some v) ->
      findHashFile URL_resolve URL_pathname web isoUrl hashAlgorithm hashMatch
      = Return (Resolved "")).
Proof.
  assert (H : findHashFile URL_resolve URL_pathname web isoUrl hashAlgorithm hashMatch
              = Return (Resolved "")
              \/ (findHashFile URL_resolve URL_pathname web isoUrl hashAlgorithm hashMatch
                  = Return (Uncaught (TypeError "Invalid URL"))
                  /\ exists t u, URL_resolve t u = None)).
  { unfold findHashFile.
    destruct (parseUrl URL_pathname isoUrl) as [baseUrl filename].
    destruct (negb (truthy baseUrl) || negb (truthy filename)); [now left|].
    destruct (tryPatterns_outcome
                URL_resolve web baseUrl
                (distinct (candidates isoUrl filename hashAlgorithm hashMatch) [])
                filename hashAlgorithm) as [-> | [-> Hu]];
      cbn [mbind completion_bind]; [|now right].
    destruct (Nat.ltb 2 _); [|now left].
    cbv zeta.
    match goal with
    | |- context [tryPatterns ?u ?w ?b ?p ?f ?a] =>
        destruct (tryPatterns_outcome u w b p f a) as [-> | [-> Hu]]
    end; cbn [mbind completion_bind]; [now left | now right]. }
  split.
  - destruct H as [H | [H _]]; auto.
  - intros Htotal. destruct H as [H | [_ (t & u & Hu)]]; [exact H|].
    destruct (Htotal t u) as [v Hv]. congruence.
Qed.

(** X22 ([verifyIsoHash], iso-manager.js:678-738): the verification is
    a placeholder.  When it resolves, an entry with a link and a hash
    comes back marked as verified and unchanged, with the time of the
    call as the time of its last verification, without anything being
    fetched; any other entry comes back as it was: an entry without a
    hash never gets one. *)
Theorem verifyIsoHash_is_a_placeholder
        (URL_resolve : string -> string -> option string)
        (URL_pathname : string -> option string) (web : string -> list exchange)
        (configAlgorithm configMatch : option string) (now : string)
        (iso iso' : Iso) :
  verifyIsoHash URL_resolve URL_pathname web configAlgorithm configMatch now iso
  = Return (Resolved iso') ->
  iso' = if truthy (link iso) && truthy (hash iso)
         then {| name := name iso; link := link iso; hash := hash iso;
                 hashAlgorithm := hashAlgorithm iso; hashSource := hashSource iso;
                 lastVerified := Some now; verified := Some true;
                 changed := Some false; currentHash := currentHash iso |}
         else iso.
Proof.
  unfold verifyIsoHash.
  destruct (truthy (link iso)); cbn [negb andb]; [|now intros [= <-]].
  destruct (truthy (hash iso)) eqn:Eh; cbn [negb].
  - intros [= <-]. unfold simulate. rewrite Eh, String.eqb_refl. reflexivity.
  - cbv zeta.
    match goal with
    | |- context [findHashFile ?u ?p ?w ?l ?a ?m] =>
        pose proof (findHashFile_resolves_empty u p w l a m) as Hf;
        destruct (findHashFile u p w l a m) as [[|h|e|e]|e|]
    end; cbn [mbind completion_bind]; try discriminate.
    rewrite (Hf h eq_refl). intros [= <-]. unfold simulate. cbn [hash truthy String.eqb negb].
    unfold truthy in Eh. apply negb_false_iff, String.eqb_eq in Eh.
    destruct iso as [n l h0 a hs lv v c ch]. cbn in *. now subst h0.
Qed.

Lemma verifyIsoHash_is_a_placeholder_witness :
  {| name := "Debian 12"; link := "https://cdimage.debian.org/debian-12.iso";
     hash := "00ff"; hashAlgorithm := None; hashSource := None;
     lastVerified := Some "2025-06-01T00:00:00.000Z"; verified := Some true;
     changed := Some false; currentHash := None |}
  = (if truthy "https://cdimage.debian.org/debian-12.iso" && truthy "00ff"
     then {| name := "Debian 12"; link := "https://cdimage.debian.org/debian-12.iso";
             hash := "00ff"; hashAlgorithm := None; hashSource := None;
             lastVerified := Some "2025-06-01T00:00:00.000Z"; verified := Some true;
             changed := Some false; currentHash := None |}
     else {| name := "Debian 12"; link := "https://cdimage.debian.org/debian-12.iso";
             hash := "00ff"; hashAlgorithm := None; hashSource := None;
             lastVerified := None; verified := None; changed := None;
             currentHash := None |}).
Proof.
  apply (verifyIsoHash_is_a_placeholder
           DownloadSpec.absolute (fun _ => None) (fun _ => []) None None
           "2025-06-01T00:00:00.000Z"
           {| name := "Debian 12"; link := "https://cdimage.debian.org/debian-12.iso";
              hash := "00ff"; hashAlgorithm := None; hashSource := None;
              lastVerified := None; verified := None; changed := None;
              currentHash := None |}).
  reflexivity.
Defined.
End HashFilesFacts.

(* ------------------------------------------------------------------ *)
(** ** Transfers, the catalog and the route of deletion *)

Section TransferFacts.
Import JSString Net FS DownloadSpec Examples.





(** X25 ([IsoManager.downloadAndVerifyFile], iso-manager.js:990-1091):
    the engine removes nothing.  Whatever the exchanges and however the
    download ends (resolved, rejected, pending or with an exception), a
    path of the file system that held something before the call holds
    something after it: no branch of the function unlinks. *)
Theorem engine_never_removes_a_file
        (URL_resolve : string -> string -> option string)
        (net : list exchange) (diskError : option string)
        (url resolvedOutputPath : string) (fs0 : filesystem) (p : string) :
  is_Some (fs0 !! p) ->
  is_Some (fst (IsoManager.downloadAndVerifyFile URL_resolve net diskError url
                                                 resolvedOutputPath fs0) !! p).
Proof.
  intros Hp. unfold IsoManager.downloadAndVerifyFile.
  now apply downloadLoop_removes_nothing.
Qed.

Lemma engine_never_removes_a_file_witness :
  is_Some (fst (IsoManager.downloadAndVerifyFile
                  absolute brokenTransfer None "http://mirror.example/a.iso"
                  "/data/ISO-Archive"
                  {[ "/data/ISO-Archive/a.iso" := File [Byte.x07] ]})
           !! "/data/ISO-Archive/a.iso").
Proof.
  apply (engine_never_removes_a_file
           absolute brokenTransfer None "http://mirror.example/a.iso" "/data/ISO-Archive"
           {[ "/data/ISO-Archive/a.iso" := File [Byte.x07] ]} "/data/ISO-Archive/a.iso").
  vm_compute. eauto.
Defined.
End TransferFacts.

Section CatalogInvariant.
Import JSString Server CatalogSpec Examples.

Lemma filter_filter_le {A} (p q : A -> bool) (l : list A) :
  length (List.filter p (List.filter q l)) <= length (List.filter p l).
Proof.
  induction l as [|a l IH]; cbn; [lia|].
  destruct (q a); cbn; destruct (p a); cbn; lia.
Qed.

(** X26 ([addIsoToJson] and [removeIsoFromJson], server script lines
    1335-1380): the catalog keeps its invariant.  If no file name has
    more than one entry, this is still so after an addition and after a
    removal, for every file name. *)
Theorem catalog_keeps_one_entry_per_file
        (now : string) (iso : IsoInfo) (f h : string) (s : Z)
        (c : catalogFile) (isos : list IsoRecord) :
  readIsos c = Some isos ->
  (forall g, length (List.filter (hasFilename g) isos) <= 1) ->
  (exists added,
      addIsoToJson now iso f h s c = Return (Doc (Some added))
      /\ forall g, length (List.filter (hasFilename g) added) <= 1)
  /\ (exists left,
         removeIsoFromJson f c = Return (Doc (Some left))
         /\ forall g, length (List.filter (hasFilename g) left) <= 1).
Proof.
  intros Hc Hall. split.
  - destruct (addIsoToJson_keeps_at_most_one now iso f h s c isos f Hc Hall)
      as (added & E & _).
    exists added. split; [exact E|]. intros g.
    destruct (addIsoToJson_keeps_at_most_one now iso f h s c isos g Hc Hall)
      as (added' & E' & Hg).
    rewrite E in E'. injection E' as <-. exact Hg.
  - unfold removeIsoFromJson. rewrite Hc. eexists. split; [reflexivity|].
    intros g. etransitivity; [apply filter_filter_le | apply Hall].
Qed.

Lemma catalog_keeps_one_entry_per_file_witness :
  (exists added,
      addIsoToJson "t1" pointRelease "ubuntu-22.04.3-desktop-amd64.iso" "ab" 7
                   (Doc (Some [entryOf "debian-12.iso"; olderUbuntu]))
      = Return (Doc (Some added))
      /\ forall g, length (List.filter (hasFilename g) added) <= 1)
  /\ (exists left,
         removeIsoFromJson "ubuntu-22.04.3-desktop-amd64.iso"
                           (Doc (Some [entryOf "debian-12.iso"; olderUbuntu]))
         = Return (Doc (Some left))
         /\ forall g, length (List.filter (hasFilename g) left) <= 1).
Proof.
  apply (catalog_keeps_one_entry_per_file
           "t1" pointRelease "ubuntu-22.04.3-desktop-amd64.iso" "ab" 7
           (Doc (Some [entryOf "debian-12.iso"; olderUbuntu]))
           [entryOf "debian-12.iso"; olderUbuntu]).
  - reflexivity.
  - intros g. unfold hasFilename. cbn [List.filter filename entryOf olderUbuntu].
    destruct (String.eqb "debian-12.iso" g) eqn:E1;
      destruct (String.eqb "ubuntu-22.04-desktop-amd64.iso" g) eqn:E2; cbn; try lia.
    apply String.eqb_eq in E1, E2. congruence.
Defined.
End CatalogInvariant.

Section RouteFacts.
Import JSString FS Server Examples.


End RouteFacts.

(* ------------------------------------------------------------------ *)
(** ** The matcher is sound; versions read from file names *)

Section MatcherSoundness.
Import JSString RegExp RegExpSpec.
Variable icase : bool.

Lemma step1_sound (r : regex) (p : ascii -> bool) :
  (forall x, p x = true -> lang icase r [x]) -> sound icase r (step1 p).
Proof.
  intros Hp st k res. unfold step1.
  destruct (rest st) as [|c cs] eqn:E; [discriminate|].
  destruct (p c) eqn:Ec; [|discriminate].
  intros H. exists [c], (MState (S (pos st)) cs (caps st)).
  cbn. repeat split; [lia | now apply Hp | exact H].
Qed.

Lemma repeat_loop_sound (r : regex) (m : matcher) (gs : list nat) :
  sound icase r m ->
  forall (fuel min : nat) (max : option nat),
    sound icase (RRepeat r min max) (repeat_loop m gs min max fuel).
Proof.
  intros Hm. induction fuel as [|fuel IH]; intros min max st k res;
    cbn [repeat_loop]; [discriminate|].
  assert (Hstay : k st = Some res ->
                  lang icase (RRepeat r min max) [] ->
                  exists w st', rest st = w ++ rest st' /\ pos st' = pos st + length w
                                /\ lang icase (RRepeat r min max) w /\ k st' = Some res).
  { intros Hk Hl. exists [], st. cbn. repeat split; [lia | exact Hl | exact Hk]. }
  assert (Hiter : forall max',
             max' <> Some 0 ->
             m (MState (pos st) (rest st) (clear_caps gs (caps st)))
               (fun st' =>
                  if Nat.eqb min 0 && Nat.eqb (pos st') (pos st) then None
                  else repeat_loop m gs (Nat.pred min) (option_map Nat.pred max') fuel st' k)
             = Some res ->
             exists w st', rest st = w ++ rest st' /\ pos st' = pos st + length w
                           /\ lang icase (RRepeat r min max') w /\ k st' = Some res).
  { intros max' Hmax H. apply Hm in H as (u & st1 & Hu & Hp & Hl & Hk).
    cbn [rest pos] in Hu, Hp.
    destruct (Nat.eqb min 0 && Nat.eqb (pos st1) (pos st)); [discriminate|].
    apply IH in Hk as (v & st2 & Hv & Hp2 & Hl2 & Hk2).
    exists (u ++ v), st2. rewrite Hu, Hv, <- app_assoc, length_app.
    repeat split; [lia | now apply L_repeat_more | exact Hk2]. }
  destruct max as [[|n]|].
  - intros H. apply Hstay; [exact H | apply L_repeat_full].
  - destruct (Nat.eqb_spec min 0) as [->|Hmin].
    + destruct (m _ _) as [res'|] eqn:E.
      * intros [= <-]. now apply (Hiter (Some (S n))).
      * intros H. apply Hstay; [exact H | apply L_repeat_done].
    + now apply (Hiter (Some (S n))).
  - destruct (Nat.eqb_spec min 0) as [->|Hmin].
    + destruct (m _ _) as [res'|] eqn:E.
      * intros [= <-]. now apply (Hiter None).
      * intros H. apply Hstay; [exact H | apply L_repeat_done].
    + now apply (Hiter None).
Qed.

(** The matcher is sound: a match is a text of the pattern. *)
Lemma rmatch_sound (r : regex) : sound icase r (rmatch icase r).
Proof.
  induction r as [ | c | | neg items | a IHa b IHb | a IHa b IHb
                   | r IH min max | i r IH | | ]; cbn [rmatch].
  - intros st k res H. exists [], st. cbn. repeat split; [lia | constructor | exact H].
  - apply step1_sound. intros x Hx. now constructor.
  - apply step1_sound. intros x Hx. constructor. now apply negb_true_iff.
  - apply step1_sound. intros x Hx. now constructor.
  - intros st k res H.
    apply IHa in H as (u & st1 & Hu & Hp1 & Hl1 & H).
    apply IHb in H as (v & st2 & Hv & Hp2 & Hl2 & H).
    exists (u ++ v), st2. rewrite Hu, Hv, <- app_assoc, length_app.
    repeat split; [lia | now constructor | exact H].
  - intros st k res H.
    destruct (rmatch icase a st k) as [res'|] eqn:E.
    + injection H as <-. apply IHa in E as (u & st1 & Hu & Hp & Hl & Hk).
      exists u, st1. repeat split; try assumption. now apply L_alt_l.
    + apply IHb in H as (v & st1 & Hv & Hp & Hl & Hk).
      exists v, st1. repeat split; try assumption. now apply L_alt_r.
  - intros st k res H. now apply (repeat_loop_sound r _ _ IH) in H.
  - intros st k res H.
    apply IH in H as (u & st1 & Hu & Hp & Hl & Hk).
    eexists u, (MState (pos st1) (rest st1) _). cbn [rest pos].
    repeat split; [exact Hu | exact Hp | now constructor | exact Hk].
  - intros st k res H. destruct (Nat.eqb (pos st) 0); [|discriminate].
    exists [], st. cbn. repeat split; [lia | constructor | exact H].
  - intros st k res H. destruct (rest st) eqn:E; [|discriminate].
    exists [], st. cbn. repeat split; [now rewrite E | lia | constructor | exact H].
Qed.

Lemma match_at_sound (r : regex) (s : list ascii) (i : nat) (m : match_result) :
  match_at icase r s i = Some m ->
  m_index m = i /\ lang icase r (m_text m)
  /\ exists post, skipn i s = m_text m ++ post.
Proof.
  unfold match_at.
  destruct (rmatch icase r _ Some) as [st'|] eqn:E; [|discriminate].
  intros [= <-]. cbn [m_index m_text].
  apply rmatch_sound in E as (w & st1 & Hw & Hp & Hl & [= <-]).
  cbn [rest pos] in Hw, Hp.
  assert (Ht : firstn (pos st1 - i) (skipn i s) = w).
  { rewrite Hw, Hp. replace (i + length w - i) with (length w) by lia.
    now rewrite firstn_app, Nat.sub_diag, firstn_all, firstn_O, app_nil_r. }
  rewrite Ht. repeat split; [exact Hl|]. now exists (rest st1).
Qed.

Lemma search_from_sound (r : regex) (s : list ascii) (n : nat) :
  forall (i : nat) (m : match_result),
    search_from icase r s i n = Some m ->
    lang icase r (m_text m)
    /\ exists post, skipn (m_index m) s = m_text m ++ post.
Proof.
  induction n as [|n IH]; intros i m; cbn [search_from];
    destruct (match_at icase r s i) as [m'|] eqn:E.
  - intros [= <-]. apply match_at_sound in E as (-> & Hl & Hp). auto.
  - discriminate.
  - intros [= <-]. apply match_at_sound in E as (-> & Hl & Hp). auto.
  - apply IH.
Qed.

(** A match of [exec] is a text of the pattern and a part of the
    input. *)
Lemma exec_sound (r : regex) (s : string) (m : match_result) :
  exec icase r s = Some m ->
  lang icase r (m_text m)
  /\ exists pre post, chars s = pre ++ m_text m ++ post.
Proof.
  unfold exec. intros H. apply search_from_sound in H as (Hl & post & Hp).
  split; [exact Hl|]. exists (firstn (m_index m) (chars s)), post.
  now rewrite <- Hp, firstn_skipn.
Qed.
End MatcherSoundness.

Section VersionShape.
Import JSString JSNumber RegExp RegExpSpec Server VersionSpec.

Lemma version_pattern :
  literal "[\d]+(\.[\d]+)+"
  = RSeq (RSeq REmpty (RRepeat (RClass false [CDigit]) 1 None))
         (RRepeat (RGroup 1 (RSeq (RSeq REmpty (RChar "."))
                                  (RRepeat (RClass false [CDigit]) 1 None)))
                  1 None).
Proof. vm_compute. reflexivity. Qed.

(** The texts of [[\d]+] and the like: digits, as many as asked for. *)
Lemma lang_digits (r0 : regex) (w : list ascii) :
  lang false r0 w ->
  forall n, r0 = RRepeat (RClass false [CDigit]) n None ->
            forallb isDigit w = true /\ n <= length w.
Proof.
  induction 1 as [ | | | | | | | r max | r min | r min max u v Hmax Hu _ Hv IHv | | | ];
    intros n E; try discriminate E.
  - injection E as -> <- ->. split; [reflexivity | cbn; lia].
  - injection E as -> -> ->.
    destruct (IHv (Nat.pred n) eq_refl) as [Hd Hn].
    inversion Hu as [ | | | neg items x Hx | | | | | | | | | ]; subst.
    cbn in Hx. rewrite orb_false_r in Hx.
    cbn [app forallb length]. rewrite Hx, Hd. split; [reflexivity | lia].
Qed.

(** The texts of [(\.[\d]+)+]: groups of a dot and digits. *)
Lemma lang_groups (r0 : regex) (w : list ascii) :
  lang false r0 w ->
  forall n,
    r0 = RRepeat (RGroup 1 (RSeq (RSeq REmpty (RChar "."))
                                 (RRepeat (RClass false [CDigit]) 1 None)))
                 n None ->
    exists groups : list (list ascii),
      w = concat (map (cons "."%char) groups)
      /\ Forall (fun ds => forallb isDigit ds = true /\ 1 <= length ds) groups
      /\ n <= length groups.
Proof.
  induction 1 as [ | | | | | | | r max | r min | r min max u v Hmax Hu _ Hv IHv | | | ];
    intros n E; try discriminate E.
  - injection E as -> <- ->. exists []. repeat split; [constructor | cbn; lia].
  - injection E as -> -> ->.
    destruct (IHv (Nat.pred n) eq_refl) as (groups & -> & Hg & Hn).
    inversion Hu as [ | | | | | | | | | | i r u' Hg1 | | ]; subst.
    inversion Hg1 as [ | | | | a b u1 u2 Hdot Hds | | | | | | | | ]; subst.
    inversion Hdot as [ | | | | a b u3 u4 He Hc | | | | | | | | ]; subst.
    inversion He; subst. inversion Hc as [ | c x Hx | | | | | | | | | | | ]; subst.
    cbn [canon] in Hx. apply Ascii.eqb_eq in Hx. subst x.
    destruct (lang_digits _ _ Hds 1 eq_refl) as [Hd Hl].
    exists (u2 :: groups). cbn [map concat app length].
    repeat split; [constructor; auto | lia].
Qed.

Lemma splitChars_groups (groups : list (list ascii)) :
  forall d : list ascii,
    forallb isDigit d = true ->
    Forall (fun ds => forallb isDigit ds = true /\ 1 <= length ds) groups ->
    splitChars DOT (d ++ concat (map (cons DOT) groups)) [] = d :: groups.
Proof.
  assert (Hnodot : forall d, forallb isDigit d = true ->
                             forallb (fun x => negb (Ascii.eqb x DOT)) d = true).
  { intros d H. rewrite forallb_forall in *. intros x Hx.
    apply negb_true_iff, digit_not_dot. now apply H. }
  induction groups as [|g groups IH]; intros d Hd Hg.
  - cbn [map concat]. rewrite splitChars_app by now apply Hnodot.
    cbn. now rewrite app_nil_r, rev_involutive.
  - apply Forall_cons in Hg as [[Hg1 _] Hg].
    cbn [map concat]. rewrite splitChars_app by now apply Hnodot.
    cbn [app splitChars]. rewrite Ascii.eqb_refl, app_nil_r, rev_involutive.
    f_equal. now apply IH.
Qed.

Lemma str_app (a b : list ascii) : str (a ++ b) = str a +:+ str b.
Proof.
  rewrite <- (str_chars (str a +:+ str b)), chars_append, !chars_str. reflexivity.
Qed.

(** What [extractVersionFromFilename] returns: a part of the file name
    made of two numerals or more with dots between them. *)
Lemma extractVersion_shape (filename v : string) :
  extractVersionFromFilename filename = Some v ->
  (exists pre post, filename = pre +:+ v +:+ post)
  /\ exists (d : list ascii) (groups : list (list ascii)),
      split DOT v = map str (d :: groups)
      /\ Forall (fun ds => forallb isDigit ds = true /\ 1 <= length ds) (d :: groups)
      /\ 1 <= length groups.
Proof.
  unfold extractVersionFromFilename.
  destruct (exec false _ filename) as [m|] eqn:E; [|discriminate].
  cbn [group]. intros [= <-].
  apply exec_sound in E as (Hl & pre & post & Hs). split.
  - exists (str pre), (str post).
    rewrite <- (str_chars filename), Hs. now rewrite !str_app.
  - rewrite version_pattern in Hl.
    inversion Hl as [ | | | | a b u w Hu Hw | | | | | | | | ]; subst.
    inversion Hu as [ | | | | a b u1 u2 He Hd | | | | | | | | ]; subst.
    inversion He; subst.
    destruct (lang_digits _ _ Hd 1 eq_refl) as [Hd1 Hd2].
    destruct (lang_groups _ _ Hw 1 eq_refl) as (groups & -> & Hg & Hn).
    exists u2, groups. cbn [app]. unfold split. rewrite chars_str.
    change (cons "."%char) with (cons DOT).
    rewrite (splitChars_groups groups u2 Hd1 Hg).
    repeat split; [constructor; auto | exact Hn].
Qed.

Lemma numeral_of_digits (ds : list ascii) :
  forallb isDigit ds = true -> 1 <= length ds -> isNumeral (str ds) = true.
Proof.
  intros Hd Hl. unfold isNumeral. rewrite chars_str, Hd.
  destruct ds as [|c ds]; [cbn in Hl; lia | reflexivity].
Qed.

Lemma Number_of_numeral (s : string) :
  isNumeral s = true -> exists n, Number s = Return n.
Proof.
  unfold isNumeral, Number. intros H. apply andb_true_iff in H as [Hne Hd].
  rewrite (trim_digits _ Hd).
  destruct (chars s) as [|c l] eqn:E; [eauto|]. rewrite Hd. eauto.
Qed.

Lemma mapM_Number_numerals (cs : list string) :
  forallb isNumeral cs = true -> exists parts, mapM Number cs = Return parts.
Proof.
  induction cs as [|c cs IH]; cbn [forallb mapM]; [eauto|].
  intros H. apply andb_true_iff in H as [Hc Hcs].
  destruct (Number_of_numeral c Hc) as [n ->].
  destruct (IH Hcs) as [parts ->]. cbn. eauto.
Qed.

Lemma extractVersion_numerals (filename v : string) :
  extractVersionFromFilename filename = Some v ->
  2 <= length (split DOT v) /\ forallb isNumeral (split DOT v) = true.
Proof.
  intros H. apply extractVersion_shape in H as (_ & d & groups & -> & Hg & Hn).
  split; [rewrite length_map; cbn; lia|].
  rewrite forallb_forall. intros s Hs.
  apply in_map_iff in Hs as (ds & <- & Hin).
  rewrite List.Forall_forall in Hg. destruct (Hg ds Hin) as [Hd Hl].
  now apply numeral_of_digits.
Qed.

(** X28 ([extractVersionFromFilename], server script lines 773-777):
    the version read from a file name is a part of the name and a
    dotted number: split at its dots it has two components or more, and
    every component is a numeral of one decimal digit or more. *)
Theorem extractVersionFromFilename_is_a_dotted_number (filename v : string) :
  extractVersionFromFilename filename = Some v ->
  (exists pre post, filename = pre +:+ v +:+ post)
  /\ 2 <= length (split DOT v)
  /\ forallb isNumeral (split DOT v) = true.
Proof.
  intros H. split.
  - now apply extractVersion_shape in H as (Hpart & _).
  - exact (extractVersion_numerals filename v H).
Qed.

Lemma extractVersionFromFilename_is_a_dotted_number_witness :
  (exists pre post, "ubuntu-22.04.3-desktop-amd64.iso" = pre +:+ "22.04.3" +:+ post)
  /\ 2 <= length (split DOT "22.04.3")
  /\ forallb isNumeral (split DOT "22.04.3") = true.
Proof.
  apply (extractVersionFromFilename_is_a_dotted_number
           "ubuntu-22.04.3-desktop-amd64.iso" "22.04.3").
  vm_compute. reflexivity.
Defined.

(** X29 ([extractVersionFromFilename] with [compareVersions], server
    script lines 773-798): versions read from file names can always be
    compared.  For any two of them [compareVersions] returns, and what
    it returns is -1, 0 or 1: every component is a numeral, which
    [Number] reads as a number and never as NaN. *)
Theorem extracted_versions_are_comparable (f1 f2 v1 v2 : string) :
  extractVersionFromFilename f1 = Some v1 ->
  extractVersionFromFilename f2 = Some v2 ->
  exists c, compareVersions v1 v2 = Return c /\ (c = -1 \/ c = 0 \/ c = 1)%Z.
Proof.
  intros H1 H2. unfold compareVersions.
  apply extractVersion_numerals in H1 as [_ H1], H2 as [_ H2].
  destruct (mapM_Number_numerals _ H1) as [p1 ->].
  destruct (mapM_Number_numerals _ H2) as [p2 ->].
  cbn [mbind completion_bind]. eexists. split; [reflexivity|].
  apply compareLoop_sign.
Qed.

Lemma extracted_versions_are_comparable_witness :
  exists c, compareVersions "22.04.3" "12.5" = Return c /\ (c = -1 \/ c = 0 \/ c = 1)%Z.
Proof.
  apply (extracted_versions_are_comparable
           "ubuntu-22.04.3-desktop-amd64.iso" "debian-12.5-netinst.iso" "22.04.3" "12.5").
  - vm_compute. reflexivity.
  - vm_compute. reflexivity.
Defined.
End VersionShape.

(* ------------------------------------------------------------------ *)
(** ** Verification with an expected hash *)

Section VerifyFileFacts.
Import JSString Net FS Examples.

Lemma toUpperCase_nonempty (s : string) : s <> "" -> truthy (toUpperCase s) = true.
Proof. destruct s as [|c s]; [congruence | reflexivity]. Qed.

(** X30 ([verifyFile], iso-manager.js:1169-1193): with an expected hash
    the verdict is the comparison of the two hashes in lower case, and
    a mismatch is a result, not a failure.  For a file that exists the
    promise resolves with [isValid] telling whether the digest and the
    expected hash are the same text once in lower case, so that writing
    the expected hash in capitals changes nothing. *)
Theorem verifyFile_compares_in_lower_case
        (digestHex : string -> option (list Byte.byte -> string))
        (fs0 : filesystem) (filePath : string) (content : list Byte.byte)
        (expectedHash : string) (algorithm : option string)
        (digest : list Byte.byte -> string) :
  fs0 !! filePath = Some (File content) ->
  digestHex (match algorithm with Some a => a | None => "sha256" end) = Some digest ->
  expectedHash <> "" ->
  exists v v',
    IsoManager.verifyFile digestHex fs0 filePath (Some expectedHash) algorithm = Resolved v
    /\ IsoManager.isValid v
       = String.eqb (toLowerCase (digest content)) (toLowerCase expectedHash)
    /\ IsoManager.message v = (if IsoManager.isValid v then "Hash verified successfully"
                               else "Hash verification failed")
    /\ IsoManager.verifyFile digestHex fs0 filePath (Some (toUpperCase expectedHash))
                             algorithm = Resolved v'
    /\ IsoManager.isValid v' = IsoManager.isValid v.
Proof.
  intros Hf Hd He.
  unfold IsoManager.verifyFile, existsSync, IsoManager.calculateFileHash.
  rewrite Hf, Hd. cbn [negb truthyOpt].
  rewrite !(toUpperCase_nonempty _ He).
  assert (Ht : truthy expectedHash = true)
    by (unfold truthy; apply negb_true_iff; now apply String.eqb_neq).
  rewrite !Ht.
  eexists _, _. split; [reflexivity|]. cbn [IsoManager.isValid IsoManager.message].
  repeat split. now rewrite toLowerCase_toUpperCase.
Qed.

Lemma verifyFile_compares_in_lower_case_witness :
  exists v v',
    IsoManager.verifyFile toyDigest {[ "/data/a.iso" := File [Byte.x01] ]}
                          "/data/a.iso" (Some "Ab12cD34") None = Resolved v
    /\ IsoManager.isValid v
       = String.eqb (toLowerCase "ab12cd34") (toLowerCase "Ab12cD34")
    /\ IsoManager.message v = (if IsoManager.isValid v then "Hash verified successfully"
                               else "Hash verification failed")
    /\ IsoManager.verifyFile toyDigest {[ "/data/a.iso" := File [Byte.x01] ]}
                             "/data/a.iso" (Some (toUpperCase "Ab12cD34")) None
       = Resolved v'
    /\ IsoManager.isValid v' = IsoManager.isValid v.
Proof.
  apply (verifyFile_compares_in_lower_case
           toyDigest {[ "/data/a.iso" := File [Byte.x01] ]} "/data/a.iso" [Byte.x01]
           "Ab12cD34" None
           (fun bytes => match bytes with [] => "e3b0c442" | _ :: _ => "ab12cd34" end)).
  - reflexivity.
  - reflexivity.
  - discriminate.
Defined.
End VerifyFileFacts.
